(** * Agent hand-off hook and asset-generation result view

    A shallow embedding of the TypeScript sources

    - [useAgentCall] (the hook behind agent-to-agent hand-off),
    - [AgentPreview] (stream status handler, stop handler, option merge),
    - [AssetGenerationToolView.parseToolResult],

    together with the properties of the hand-off protocol that hold
    (or fail) on that code.  Asynchronous functions are embedded as
    resumable computations: a tree whose nodes are the synchronous state
    updates and the [await] points of the source. *)

From Stdlib Require Import String Ascii List Bool Arith NArith Lia.
From Stdlib Require Import DecimalString.
Import ListNotations.
Open Scope string_scope.

(* ================================================================== *)
(** ** JavaScript values and built-ins used by the components *)
(* ================================================================== *)

Module Js.

(** A string is kept as the bytes of its UTF-8 encoding. *)

(** Truthiness of a string: only the empty string is falsy. *)
Definition truthy (s : string) : bool := negb (s =? "").

(** [a || d] where [a : string | undefined] and [d : string]. *)
Definition or_else (a : option string) (d : string) : string :=
  match a with
  | Some s => if truthy s then s else d
  | None => d
  end.

(** [a ?? d]. *)
Definition nullish {A : Type} (a : option A) (d : A) : A :=
  match a with
  | Some v => v
  | None => d
  end.

(** [s.includes(sub)]. *)
Fixpoint includes (sub s : string) : bool :=
  String.prefix sub s ||
  match s with
  | EmptyString => false
  | String _ rest => includes sub rest
  end.

(** [`${n}`] for a non-negative integer such as [Date.now()]. *)
Definition show_N (n : N) : string := NilZero.string_of_uint (N.to_uint n).

(** A thrown or rejected value.  Any value can be thrown or be the
    reason of a rejection.  Of a value other than [null] and
    [undefined] the handlers look at its [message], its rendering in a
    template string, and the two [instanceof] tests.  [null] and
    [undefined] have no properties. *)
Inductive Error : Type :=
| Nullish (is_undefined : bool)
| mkError (message : option string) (text : string)
          (isError isBillingError : bool).

(** The value is [null] or [undefined]. *)
Definition is_nullish (e : Error) : bool :=
  match e with
  | Nullish _ => true
  | mkError _ _ _ _ => false
  end.

(** [e?.message]. *)
Definition err_message (e : Error) : option string :=
  match e with
  | Nullish _ => None
  | mkError message _ _ _ => message
  end.

(** [`${e}`]. *)
Definition err_text (e : Error) : string :=
  match e with
  | Nullish is_undefined => if is_undefined then "undefined" else "null"
  | mkError _ text _ _ => text
  end.

(** [e instanceof Error]. *)
Definition is_Error (e : Error) : bool :=
  match e with
  | Nullish _ => false
  | mkError _ _ isError _ => isError
  end.

(** [e instanceof BillingError]. *)
Definition is_BillingError (e : Error) : bool :=
  match e with
  | Nullish _ => false
  | mkError _ _ _ isBillingError => isBillingError
  end.

(** [new Error(msg)]. *)
Definition new_Error (msg : string) : Error :=
  mkError (Some msg) ("Error: " ++ msg) true false.

(** The [TypeError] thrown when [property] is read from [null] or
    [undefined].  Its text is the engine's (V8's wording here); the
    handlers never read it. *)
Definition cannot_read (e : Error) (property : string) : Error :=
  let msg := "Cannot read properties of " ++ err_text e
             ++ " (reading '" ++ property ++ "')" in
  mkError (Some msg) ("TypeError: " ++ msg) true false.

(** A continuation byte of a UTF-8 sequence. *)
Definition continuation (b : N) : bool := (128 <=? b)%N && (b <? 192)%N.

(** A decoded code point, or U+FFFD when it is not the shortest
    encoding of a scalar value. *)
Definition scalar (least cp : N) : N :=
  if (least <=? cp)%N && (cp <=? 1114111)%N
     && negb ((55296 <=? cp)%N && (cp <=? 57343)%N)
  then cp else 65533%N.

(** The code points of a string.  A byte that starts no well-formed
    sequence reads as U+FFFD. *)
Fixpoint code_points (s : string) : list N :=
  match s with
  | EmptyString => []
  | String a s1 =>
      let a := N_of_ascii a in
      if (a <? 128)%N then a :: code_points s1
      else
        match s1 with
        | String b s2 =>
            let b := N_of_ascii b in
            if (192 <=? a)%N && (a <? 224)%N && continuation b
            then scalar 128 ((a - 192) * 64 + (b - 128)) :: code_points s2
            else
              match s2 with
              | String c s3 =>
                  let c := N_of_ascii c in
                  if (224 <=? a)%N && (a <? 240)%N
                     && continuation b && continuation c
                  then scalar 2048 (((a - 224) * 64 + (b - 128)) * 64 + (c - 128))
                       :: code_points s3
                  else
                    match s3 with
                    | String d s4 =>
                        let d := N_of_ascii d in
                        if (240 <=? a)%N && (a <? 248)%N && continuation b
                           && continuation c && continuation d
                        then scalar 65536
                               ((((a - 240) * 64 + (b - 128)) * 64 + (c - 128)) * 64
                                + (d - 128))
                             :: code_points s4
                        else 65533%N :: code_points s1
                    | EmptyString => 65533%N :: code_points s1
                    end
              | EmptyString => 65533%N :: code_points s1
              end
        | EmptyString => [65533%N]
        end
  end.

(** The code points [String.prototype.trim] removes: the WhiteSpace and
    LineTerminator productions of ECMAScript (TAB, LF, VT, FF, CR,
    SPACE, NBSP, U+1680, U+2000..U+200A, LS, PS, U+202F, U+205F,
    U+3000, BOM). *)
Definition is_space (cp : N) : bool :=
  ((9 <=? cp)%N && (cp <=? 13)%N)
  || (cp =? 32)%N || (cp =? 160)%N || (cp =? 5760)%N
  || ((8192 <=? cp)%N && (cp <=? 8202)%N)
  || (cp =? 8232)%N || (cp =? 8233)%N || (cp =? 8239)%N || (cp =? 8287)%N
  || (cp =? 12288)%N || (cp =? 65279)%N.

(** [!s.trim()]: the string is empty once trimmed, that is, it holds
    nothing but white space. *)
Definition blank (s : string) : bool := forallb is_space (code_points s).

End Js.

(* ================================================================== *)
(** ** Shared data: messages, start options, collaborator calls *)
(* ================================================================== *)

(** [UnifiedMessage] as the handlers build it. *)
Record UnifiedMessage : Type := mkMessage {
  message_id : string;
  thread_id : string;
  type : string;
  is_llm_message : bool;
  content : string;
  metadata : string;
  created_at : string;
  updated_at : string
}.

(** [currentModelSettings] of [UseAgentCallParams]: every field optional. *)
Record ModelSettings : Type := mkSettings {
  model_name : option string;
  enable_thinking : option bool;
  reasoning_effort : option string
}.

(** The [options] object handed to [startAgentMutation.mutateAsync]. *)
Record AgentOptions : Type := mkOptions {
  opt_agent_id : option string;
  opt_model_name : option string;
  opt_enable_thinking : option bool;
  opt_reasoning_effort : option string;
  opt_enable_context_manager : option bool
}.

(** Object spread of one optional field: a key present in the source
    object replaces the target's. *)
Definition over {A : Type} (target source : option A) : option A :=
  match source with
  | Some v => Some v
  | None => target
  end.

(** [{ ...o, ...currentModelSettings }]; spreading [undefined] adds nothing. *)
Definition spread_settings (o : AgentOptions) (s : option ModelSettings)
  : AgentOptions :=
  match s with
  | None => o
  | Some s =>
      mkOptions (opt_agent_id o)
                (over (opt_model_name o) (model_name s))
                (over (opt_enable_thinking o) (enable_thinking s))
                (over (opt_reasoning_effort o) (reasoning_effort s))
                (opt_enable_context_manager o)
  end.

(** The three network operations of the hooks
    ([useStopAgentMutation], [useAddUserMessageMutation],
    [useStartAgentMutation]). *)
Inductive Call : Type :=
| StopRun (run_id : string)
| AppendMessage (threadId message : string)
| StartRun (threadId : string) (options : AgentOptions).

(** How a [mutateAsync] promise settles.  Only the start call's value
    is read, and only its [agent_run_id]; the other two values are
    discarded by the callers. *)
Inductive Response : Type :=
| Resolved (agent_run_id : string)
| Rejected (e : Js.Error).

Inductive Toast : Type :=
| ToastSuccess (text : string)
| ToastError (text : string).

(** The two clock reads of a hand-off: [Date.now()] and the two
    [new Date().toISOString()] renderings. *)
Record Clock : Type := mkClock {
  date_now : N;
  iso_created : string;
  iso_updated : string
}.

(** React state reachable from the handlers: the page state behind the
    setters passed to the hook, the hook's own [isLoading] / [error],
    and what was shown or logged as an error. *)
Record Store : Type := mkStore {
  agentRunId : option string;
  selectedAgentId : option string;
  agentStatus : string;
  messages : list UnifiedMessage;
  isLoading : bool;
  error : option string;
  toasts : list Toast;
  console_errors : list string
}.

Definition setAgentRunId (v : option string) (s : Store) : Store :=
  mkStore v (selectedAgentId s) (agentStatus s) (messages s) (isLoading s)
          (error s) (toasts s) (console_errors s).

Definition setSelectedAgentId (v : string) (s : Store) : Store :=
  mkStore (agentRunId s) (Some v) (agentStatus s) (messages s) (isLoading s)
          (error s) (toasts s) (console_errors s).

Definition setAgentStatus (v : string) (s : Store) : Store :=
  mkStore (agentRunId s) (selectedAgentId s) v (messages s) (isLoading s)
          (error s) (toasts s) (console_errors s).

Definition setMessages (f : list UnifiedMessage -> list UnifiedMessage)
  (s : Store) : Store :=
  mkStore (agentRunId s) (selectedAgentId s) (agentStatus s) (f (messages s))
          (isLoading s) (error s) (toasts s) (console_errors s).

Definition setIsLoading (v : bool) (s : Store) : Store :=
  mkStore (agentRunId s) (selectedAgentId s) (agentStatus s) (messages s) v
          (error s) (toasts s) (console_errors s).

Definition setError (v : option string) (s : Store) : Store :=
  mkStore (agentRunId s) (selectedAgentId s) (agentStatus s) (messages s)
          (isLoading s) v (toasts s) (console_errors s).

Definition toast (t : Toast) (s : Store) : Store :=
  mkStore (agentRunId s) (selectedAgentId s) (agentStatus s) (messages s)
          (isLoading s) (error s) (toasts s ++ [t]) (console_errors s).

Definition console_error (tag : string) (s : Store) : Store :=
  mkStore (agentRunId s) (selectedAgentId s) (agentStatus s) (messages s)
          (isLoading s) (error s) (toasts s) (console_errors s ++ [tag]).

(* ================================================================== *)
(** ** Asynchronous functions as resumable computations *)
(* ================================================================== *)

(** The body of an [async] function: it returns, throws, performs a
    synchronous state update, or suspends at an [await] on a pending
    call and resumes with the way that call settled. *)
Inductive Async (A : Type) : Type :=
| Return (a : A)
| Throw (e : Js.Error)
| Sync (f : Store -> Store) (k : Async A)
| Await (c : Call) (k : Response -> Async A).

Arguments Return {A} a.
Arguments Throw {A} e.
Arguments Sync {A} f k.
Arguments Await {A} c k.

Fixpoint bind {A B : Type} (m : Async A) (f : A -> Async B) : Async B :=
  match m with
  | Return a => f a
  | Throw e => Throw e
  | Sync g k => Sync g (bind k f)
  | Await c k => Await c (fun r => bind (k r) f)
  end.

(** [try { body } catch (e) { handler e }]. *)
Fixpoint try_catch {A : Type} (body : Async A) (handler : Js.Error -> Async A)
  : Async A :=
  match body with
  | Return a => Return a
  | Throw e => handler e
  | Sync g k => Sync g (try_catch k handler)
  | Await c k => Await c (fun r => try_catch (k r) handler)
  end.

(** [try { body } finally { fin }]: [fin] runs on both exits and the
    exit of [body] is kept. *)
Fixpoint try_finally {A : Type} (body : Async A) (fin : Async unit)
  : Async A :=
  match body with
  | Return a => bind fin (fun _ => Return a)
  | Throw e => bind fin (fun _ => Throw e)
  | Sync g k => Sync g (try_finally k fin)
  | Await c k => Await c (fun r => try_finally (k r) fin)
  end.

(** A synchronous statement. *)
Definition act (f : Store -> Store) : Async unit := Sync f (Return tt).

(** [await call]: a rejected promise is rethrown at the await. *)
Definition await (c : Call) : Async string :=
  Await c (fun r =>
    match r with
    | Resolved v => Return v
    | Rejected e => Throw e
    end).

(** [e.message] on a caught value: the read throws a [TypeError] when
    the value is [null] or [undefined]. *)
Definition message_of (e : Js.Error) : Async (option string) :=
  if Js.is_nullish e then Throw (Js.cannot_read e "message")
  else Return (Js.err_message e).

Declare Scope async_scope.
Delimit Scope async_scope with async.
Notation "x <- m ;; k" := (bind m (fun x => k))
  (at level 100, m at next level, right associativity) : async_scope.
Notation "m ;; k" := (bind m (fun _ => k))
  (at level 100, right associativity) : async_scope.
Open Scope async_scope.

(** How a finished computation ended. *)
Inductive Outcome (A : Type) : Type :=
| Fulfilled (a : A)
| Failed (e : Js.Error).

Arguments Fulfilled {A} a.
Arguments Failed {A} e.

(** A computation run up to its next suspension. *)
Inductive Susp (A : Type) : Type :=
| Done (o : Outcome A)
| Pending (c : Call) (k : Response -> Async A).

Arguments Done {A} o.
Arguments Pending {A} c k.

(** Run the synchronous prefix of a computation: everything up to the
    next [await] (or to the end) happens without interruption. *)
Fixpoint settle {A : Type} (t : Async A) (s : Store) : Susp A * Store :=
  match t with
  | Return a => (Done (Fulfilled a), s)
  | Throw e => (Done (Failed e), s)
  | Sync f k => settle k (f s)
  | Await c k => (Pending c k, s)
  end.

(** The call a suspended computation is waiting for. *)
Definition waiting_for {A : Type} (p : Susp A) : option Call :=
  match p with
  | Done _ => None
  | Pending c _ => Some c
  end.

(** Deliver the settlement of the awaited call and run on to the next
    suspension; a finished computation stays finished. *)
Definition resume {A : Type} (p : Susp A) (r : Response) (s : Store)
  : Susp A * Store :=
  match p with
  | Done o => (Done o, s)
  | Pending _ k => settle (k r) s
  end.

(* ================================================================== *)
(** ** The Run Controller seen from the client *)
(* ================================================================== *)

(** Modelled from the spec: the statuses of a Run,
    [starting | running | stopped | completed | failed]. *)
Inductive RunStatus : Type :=
| st_starting | st_running | st_stopped | st_completed | st_failed.

(** Modelled from the spec: the Run of the data model,
    [{run_id, conversation_id, agent_id, status}]; the back end that
    keeps these records is not part of the sources. *)
Record Run : Type := mkRun {
  run_id : string;
  conversation_id : string;
  agent_id : string;
  status : RunStatus
}.

(** Modelled from the spec: a Run is active when its status is
    starting or running. *)
Definition is_active (r : Run) : bool :=
  match status r with
  | st_starting | st_running => true
  | _ => false
  end.

(** Modelled from the spec: a run is stopped when it is explicitly
    cancelled; a run that already ended keeps its status. *)
Definition stop_run (rid : string) (r : Run) : Run :=
  if (run_id r =? rid) && is_active r
  then mkRun (run_id r) (conversation_id r) (agent_id r) st_stopped
  else r.

(** Modelled from the spec: the effect of a settled call on the Run
    Controller's table.  A fulfilled [startRun] creates a starting run of
    the requested agent under the returned id; a fulfilled [stopRun]
    moves the named run, if active, to stopped (idempotent); a rejected
    call and [appendMessage] leave the table as it was. *)
Definition controller (c : Call) (r : Response) (runs : list Run) : list Run :=
  match c, r with
  | StartRun tid o, Resolved rid =>
      runs ++ [mkRun rid tid (Js.nullish (opt_agent_id o) "") st_starting]
  | StopRun rid, Resolved _ => map (stop_run rid) runs
  | _, _ => runs
  end.

(** Active runs of one conversation. *)
Definition active_runs (conv : string) (runs : list Run) : list Run :=
  filter (fun r => is_active r && (conversation_id r =? conv)) runs.

(** Client state, controller table, the calls issued so far (oldest
    first) and the table as it stood after each of them. *)
Record World : Type := mkWorld {
  store : Store;
  runs : list Run;
  issued : list Call;
  observed : list (list Run)
}.

(** Run a computation to its end; [env] says how each call settles, and
    the controller table follows every settled call. *)
Fixpoint exec {A : Type} (env : Call -> Response) (t : Async A) (w : World)
  : Outcome A * World :=
  match t with
  | Return a => (Fulfilled a, w)
  | Throw e => (Failed e, w)
  | Sync f k => exec env k (mkWorld (f (store w)) (runs w) (issued w) (observed w))
  | Await c k =>
      let r := env c in
      let table := controller c r (runs w) in
      exec env (k r)
           (mkWorld (store w) table (issued w ++ [c]) (observed w ++ [table]))
  end.

(* ================================================================== *)
(** ** [useAgentCall] *)
(* ================================================================== *)

Module AgentCall.

(** The values the [handleAgentCall] closure captures from
    [UseAgentCallParams] at render time. *)
Record Props : Type := mkProps {
  threadId : string;
  currentAgentRunId : option string;
  currentAgentStatus : string;
  currentModelSettings : option ModelSettings
}.

Definition handoffMessage (p : Props) (clk : Clock) (message : string)
  : UnifiedMessage :=
  mkMessage ("handoff-" ++ Js.show_N (date_now clk))
            (threadId p)
            "user"
            false
            message
            "{}"
            (iso_created clk)
            (iso_updated clk).

(** [{ agent_id: agentId, ...currentModelSettings }]. *)
Definition agentOptions (p : Props) (agentId : string) : AgentOptions :=
  spread_settings (mkOptions (Some agentId) None None None None)
                  (currentModelSettings p).

(** "Stop current agent if running". *)
Definition stop_current (p : Props) : Async unit :=
  match currentAgentRunId p with
  | Some rid =>
      if Js.truthy rid && (currentAgentStatus p =? "running")
      then (_ <- await (StopRun rid) ;; Return tt)
      else Return tt
  | None => Return tt
  end.

(** "Add the handoff message to the conversation if provided": the
    optimistic local append, then the save. *)
Definition add_handoff_message (p : Props) (clk : Clock)
  (message : option string) : Async unit :=
  match message with
  | Some m =>
      if Js.truthy m
      then
        act (setMessages (fun prev => (prev ++ [handoffMessage p clk m])%list)) ;;
        _ <- await (AppendMessage (threadId p) m) ;;
        Return tt
      else Return tt
  | None => Return tt
  end.

(** "Start the new agent with current model settings preserved" and
    "Update state". *)
Definition start_target (p : Props) (agentId : string) : Async unit :=
  agent_run_id <- await (StartRun (threadId p) (agentOptions p agentId)) ;;
  act (setAgentRunId (Some agent_run_id)) ;;
  act (setSelectedAgentId agentId) ;;
  act (toast (ToastSuccess "Successfully switched to agent")).

(** The [try] block. *)
Definition attempt (p : Props) (clk : Clock) (agentId : string)
  (message : option string) : Async unit :=
  stop_current p ;;
  add_handoff_message p clk message ;;
  start_target p agentId.

(** The [catch] block.  Its first statement reads [error.message]. *)
Definition recover (e : Js.Error) : Async unit :=
  message <- message_of e ;;
  let errorMsg := Js.or_else message "Failed to switch to agent" in
  act (console_error "[AGENT_CALL] Error in agent call:") ;;
  act (setError (Some errorMsg)) ;;
  act (toast (ToastError ("Failed to switch to agent: " ++ errorMsg))).

(** [handleAgentCall(agentId, message?)].  The [console.log] tracing
    lines, which touch no state, are left out; [console.error] lines
    are kept by their tag. *)
Definition handleAgentCall (p : Props) (clk : Clock) (agentId : string)
  (message : option string) : Async unit :=
  if negb (Js.truthy (threadId p)) then
    let errorMsg := "No thread ID available for agent call" in
    act (console_error ("[AGENT_CALL] " ++ errorMsg)) ;;
    act (setError (Some errorMsg))
  else
    act (setIsLoading true) ;;
    act (setError None) ;;
    try_finally
      (try_catch (attempt p clk agentId message) recover)
      (act (setIsLoading false)).

End AgentCall.

(* ================================================================== *)
(** ** [AgentPreview] *)
(* ================================================================== *)

Module Preview.

(** [handleStreamStatusChange(hookStatus)], the [onStatusChange]
    callback given to the stream hook. *)
Definition handleStreamStatusChange (hookStatus : string) (s : Store)
  : Store :=
  if (hookStatus =? "idle") || (hookStatus =? "completed")
     || (hookStatus =? "stopped") || (hookStatus =? "agent_not_running")
     || (hookStatus =? "error") || (hookStatus =? "failed")
  then setAgentRunId None (setAgentStatus "idle" s)
  else if hookStatus =? "connecting" then setAgentStatus "connecting" s
  else if hookStatus =? "streaming" then setAgentStatus "running" s
  else s.



(** The [options] parameter of [handleSubmitMessage]. *)
Record SubmitOptions : Type := mkSubmit {
  sub_model_name : option string;
  sub_enable_thinking : option bool;
  sub_reasoning_effort : option string;
  sub_enable_context_manager : option bool
}.

(** What the [handleSubmitMessage] closure captures. *)
Record Captured : Type := mkCaptured {
  threadId : option string;
  agent_agent_id : string;
  thinkingEnabled : bool;
  reasoningEffort : string
}.

(** [finalOptions]: [{ agent_id, ...options, enable_thinking: ...,
    reasoning_effort: ... }]. *)
Definition finalOptions (c : Captured) (options : option SubmitOptions)
  : AgentOptions :=
  mkOptions
    (Some (agent_agent_id c))
    (match options with Some o => sub_model_name o | None => None end)
    (Some (match options with
           | Some o =>
               match sub_enable_thinking o with
               | Some b => b
               | None => thinkingEnabled c
               end
           | None => thinkingEnabled c
           end))
    (Some (Js.or_else
             (match options with Some o => sub_reasoning_effort o | None => None end)
             (reasoningEffort c)))
    (match options with Some o => sub_enable_context_manager o | None => None end).

(** [message.trim()] is empty. *)
Definition blank_input (message : string) : bool := Js.blank message.

Definition optimisticUserMessage (tid : string) (clk : Clock)
  (random : string) (message : string) : UnifiedMessage :=
  mkMessage ("temp-user-" ++ Js.show_N (date_now clk) ++ "-" ++ random)
            tid "user" false message "{}"
            (iso_created clk) (iso_updated clk).

Definition drop_message (id : string) (prev : list UnifiedMessage)
  : list UnifiedMessage :=
  filter (fun m => negb (message_id m =? id)) prev.

(** [Promise.allSettled([messagePromise, agentPromise])]: both calls
    are issued, message first, and both settlements are collected;
    nothing is thrown here. *)
Definition allSettled (c1 c2 : Call) : Async (Response * Response) :=
  Await c1 (fun r1 => Await c2 (fun r2 => Return (r1, r2))).

(** [`${reason?.message || reason}`]. *)
Definition reason_text (e : Js.Error) : string :=
  Js.or_else (Js.err_message e) (Js.err_text e).

(** [handleSubmitMessage(message, options?)].  [setIsSubmitting] and
    [setInputValue] drive the input box only and are left out. *)
Definition handleSubmitMessage (c : Captured) (clk : Clock) (random : string)
  (message : string) (options : option SubmitOptions) : Async unit :=
  match threadId c with
  | None => Return tt
  | Some tid =>
      if blank_input message || negb (Js.truthy tid) then Return tt
      else
        let optimistic := optimisticUserMessage tid clk random message in
        act (setMessages (fun prev => (prev ++ [optimistic])%list)) ;;
        try_catch
          (results <- allSettled (AppendMessage tid message)
                                 (StartRun tid (finalOptions c options)) ;;
           match fst results with
           | Rejected reason =>
               Throw (Js.new_Error ("Failed to send message: " ++ reason_text reason))
           | Resolved _ =>
               match snd results with
               | Rejected e =>
                   if Js.is_BillingError e then
                     act (toast (ToastError "Billing limit reached. Please upgrade your plan.")) ;;
                     act (setMessages (drop_message (message_id optimistic)))
                   else
                     Throw (Js.new_Error ("Failed to start agent: " ++ reason_text e))
               | Resolved agent_run_id =>
                   act (setAgentRunId (Some agent_run_id))
               end
           end)
          (fun err =>
             act (toast (ToastError
                    (if Js.is_Error err
                     then Js.nullish (Js.err_message err) "undefined"
                     else "Operation failed"))) ;;
             act (setMessages (drop_message (message_id optimistic))))
  end.

End Preview.

(** Modelled from the spec: [updateSettings(partial)] merges the given
    fields into the generation settings; the page that owns the settings
    and hands them to the hook as [currentModelSettings] is not among
    the sources. *)
Definition updateSettings (partial settings : ModelSettings) : ModelSettings :=
  mkSettings (over (model_name settings) (model_name partial))
             (over (enable_thinking settings) (enable_thinking partial))
             (over (reasoning_effort settings) (reasoning_effort partial)).

(* ================================================================== *)
(** ** [AssetGenerationToolView.parseToolResult] *)
(* ================================================================== *)

Module AssetView.

Record AssetResult : Type := mkResult {
  isEachlabsWorkflow : bool;
  isGoogleImagen : bool;
  isAsyncProcessing : bool;
  hasImages : bool;
  images : list string;
  workflowDetails : option string;
  errorMessage : option string
}.

(** Drop the literal [p] from the front of [s], if it is there. *)
Fixpoint strip (p s : string) : option string :=
  match p, s with
  | EmptyString, _ => Some s
  | String a p', String b s' => if Ascii.eqb a b then strip p' s' else None
  | String _ _, EmptyString => None
  end.

(** [[^\)]*\)] at the front of [s]: the text before the first closing
    parenthesis and what follows that parenthesis. *)
Fixpoint upto_paren (s : string) : option (string * string) :=
  match s with
  | EmptyString => None
  | String c rest =>
      if Ascii.eqb c ")" then Some ("", rest)
      else match upto_paren rest with
           | Some (u, r) => Some (String c u, r)
           | None => None
           end
  end.

(** [[^\)]+\)]. *)
Definition body_paren (s : string) : option (string * string) :=
  match upto_paren s with
  | Some (u, r) => if u =? "" then None else Some (u, r)
  | None => None
  end.

(** [https?:\/\/[^\)]+\)] at the front of [s], the optional [s] tried
    first: the url matched and the text after the parenthesis. *)
Definition url_paren (s : string) : option (string * string) :=
  match strip "http" s with
  | None => None
  | Some r =>
      let plain :=
        match strip "://" r with
        | Some b =>
            match body_paren b with
            | Some (u, rest) => Some ("http://" ++ u, rest)
            | None => None
            end
        | None => None
        end in
      match strip "s" r with
      | Some r' =>
          match strip "://" r' with
          | Some b =>
              match body_paren b with
              | Some (u, rest) => Some ("https://" ++ u, rest)
              | None => plain
              end
          | None => plain
          end
      | None => plain
      end
  end.

(** [/\((https?:\/\/[^\)]+)\)/] at the front of [s]: group 1. *)
Definition group_at (s : string) : option (string * string) :=
  match strip "(" s with
  | Some r => url_paren r
  | None => None
  end.

(** [/\[View Image\]\((https?:\/\/[^\)]+)\)/] at the front of [s]:
    the whole text matched. *)
Definition view_image_at (s : string) : option string :=
  match strip "[View Image]" s with
  | Some r =>
      match group_at r with
      | Some (u, _) => Some ("[View Image](" ++ u ++ ")")
      | None => None
      end
  | None => None
  end.

(** All matches of the global pattern, left to right, the scan going
    on after the end of each match; [skip] characters are still
    covered by the match before. *)
Fixpoint scan (skip : nat) (s : string) : list string :=
  match s with
  | EmptyString => []
  | String _ rest =>
      match skip with
      | S k => scan k rest
      | O =>
          match view_image_at s with
          | Some m => m :: scan (String.length m - 1) rest
          | None => scan 0 rest
          end
      end
  end.

(** [contentStr.match(/.../g)]: [null] when nothing matches. *)
Definition match_view_images (s : string) : option (list string) :=
  match scan 0 s with
  | [] => None
  | ms => Some ms
  end.

(** [match.match(/\((https?:\/\/[^\)]+)\)/)]: group 1 of the leftmost
    match, [null] when there is none. *)
Fixpoint match_url (s : string) : option string :=
  match group_at s with
  | Some (u, _) => Some u
  | None =>
      match s with
      | EmptyString => None
      | String _ rest => match_url rest
      end
  end.

Section WithObjects.

(** Non-null objects that may arrive as tool content, and
    [JSON.stringify] on them. *)
Variable Obj : Type.
Variable JSON_stringify : Obj -> string.

(** A value of type [any], by what [!content] and [typeof content]
    tell apart. *)
Inductive Content : Type :=
| CUndefined
| CNull
| CBoolean (b : bool)
| CNumber (is_zero_or_NaN : bool)
| CString (s : string)
| CObject (o : Obj).

(** [!content] is false. *)
Definition truthy (c : Content) : bool :=
  match c with
  | CUndefined | CNull => false
  | CBoolean b => b
  | CNumber z => negb z
  | CString s => Js.truthy s
  | CObject _ => true
  end.

Definition contentStr (c : Content) : string :=
  match c with
  | CString s => s
  | CObject o => JSON_stringify o
  | _ => ""
  end.

Definition nothing : AssetResult :=
  mkResult false false false false [] None None.

Definition parseToolResult (c : Content) : AssetResult :=
  if negb (truthy c) then nothing
  else
    let str := contentStr c in
    (* Check for error messages *)
    if Js.includes "Error:" str || Js.includes "error" str then
      mkResult false false false false [] None (Some str)
    else
      (* Detect Google Imagen results (immediate images) *)
      let imageMatches := match_view_images str in
      if (match imageMatches with Some _ => true | None => false end)
         || Js.includes "Image Generated Successfully" str
         || Js.includes "Images Generated Successfully" str
      then
        let images :=
          match imageMatches with
          | Some ms =>
              filter Js.truthy
                (map (fun m => match match_url m with
                               | Some u => u
                               | None => ""
                               end) ms)
          | None => []
          end in
        mkResult false true false (0 <? List.length images)%nat images None None
      else
        (* Detect Eachlabs workflow results (async processing) *)
        if Js.includes "Asset Generation Started" str
           || Js.includes "Workflow executed successfully" str
        then mkResult true false true false [] (Some str) None
        else nothing.

End WithObjects.

Arguments CUndefined {Obj}.
Arguments CNull {Obj}.
Arguments CBoolean {Obj} b.
Arguments CNumber {Obj} is_zero_or_NaN.
Arguments CString {Obj} s.
Arguments CObject {Obj} o.
Arguments truthy {Obj} c.
Arguments contentStr {Obj} JSON_stringify c.
Arguments parseToolResult {Obj} JSON_stringify c.

End AssetView.

(* ================================================================== *)
(** ** Vocabulary of the statements *)
(* ================================================================== *)

(** The stop call [handleAgentCall] starts with, if any. *)
Definition stop_step (p : AgentCall.Props) : list Call :=
  match AgentCall.currentAgentRunId p with
  | Some rid =>
      if Js.truthy rid && (AgentCall.currentAgentStatus p =? "running")
      then [StopRun rid] else []
  | None => []
  end.

(** The persistence call for the hand-off message, if any. *)
Definition append_step (p : AgentCall.Props) (message : option string)
  : list Call :=
  match message with
  | Some m => if Js.truthy m then [AppendMessage (AgentCall.threadId p) m] else []
  | None => []
  end.

(** The start call of a hand-off to [agentId]. *)
Definition start_step (p : AgentCall.Props) (agentId : string) : Call :=
  StartRun (AgentCall.threadId p) (AgentCall.agentOptions p agentId).

(** One hand-off run to its end from the world [w]. *)
Definition handoff (env : Call -> Response) (p : AgentCall.Props)
  (clk : Clock) (agentId : string) (message : option string) (w : World)
  : Outcome unit * World :=
  exec env (AgentCall.handleAgentCall p clk agentId message) w.

(** Every call of [cs] is fulfilled under [env]. *)
Definition fulfilled (env : Call -> Response) (cs : list Call) : bool :=
  forallb (fun c => match env c with Resolved _ => true | Rejected _ => false end) cs.

Definition is_start (c : Call) : bool :=
  match c with StartRun _ _ => true | _ => false end.

Definition is_stop (c : Call) : bool :=
  match c with StopRun _ => true | _ => false end.

(** The message the [catch] block of [handleAgentCall] reports. *)
Definition reported (e : Js.Error) : string :=
  Js.or_else (Js.err_message e) "Failed to switch to agent".

(** The statuses on which [handleStreamStatusChange] returns to idle. *)
Definition terminal (st : string) : bool :=
  (st =? "idle") || (st =? "completed") || (st =? "stopped")
  || (st =? "agent_not_running") || (st =? "error") || (st =? "failed").

(** Sample data for the concrete scenarios. *)
Definition clock0 : Clock :=
  mkClock 1700000000000 "2023-11-14T22:13:20.000Z" "2023-11-14T22:13:20.001Z".

Definition empty_store : Store := mkStore None None "idle" [] false None [] [].

Definition world_with (s : Store) (table : list Run) : World :=
  mkWorld s table [] [].

Definition always (v : string) (c : Call) : Response := Resolved v.

(** The page while run [rid] is in progress. *)
Definition busy_store (rid status : string) : Store :=
  mkStore (Some rid) (Some "writer") status [] false None [] [].

(** Props of a conversation [t1] whose run [R1] has the given status. *)
Definition props_R1 (status : string) : AgentCall.Props :=
  AgentCall.mkProps "t1" (Some "R1") status None.

(** Props of a conversation [t1] without a run. *)
Definition props_idle : AgentCall.Props :=
  AgentCall.mkProps "t1" None "idle" None.

Definition run_R1 (st : RunStatus) : Run := mkRun "R1" "t1" "writer" st.

Definition network_down : Js.Error :=
  Js.mkError (Some "Network Error") "Error: Network Error" true false.

(** Environments of the concrete scenarios: one kind of call is
    rejected, every other call is fulfilled with run id [R2]. *)
Definition stop_fails (c : Call) : Response :=
  if is_stop c then Rejected network_down else Resolved "R2".

Definition start_fails (c : Call) : Response :=
  if is_start c then Rejected network_down else Resolved "R2".

(** The start call is rejected with [null]. *)
Definition start_fails_null (c : Call) : Response :=
  if is_start c then Rejected (Js.Nullish false) else Resolved "R2".

Definition append_fails (c : Call) : Response :=
  match c with
  | AppendMessage _ _ => Rejected network_down
  | _ => Resolved "R2"
  end.

Definition please_draw : string := "please draw this".

(** The calls a hand-off issues, in order: the stop, if one is due;
    after a fulfilled stop the save, if there is a message; after a
    fulfilled save the start. *)
Definition expected_calls (env : Call -> Response) (p : AgentCall.Props)
  (agentId : string) (message : option string) : list Call :=
  stop_step p ++
  (if fulfilled env (stop_step p)
   then append_step p message ++
        (if fulfilled env (append_step p message)
         then [start_step p agentId] else [])
   else []).

(** The reason of the first rejected call among [cs], if any. *)
Fixpoint first_rejection (env : Call -> Response) (cs : list Call)
  : option Js.Error :=
  match cs with
  | [] => None
  | c :: rest =>
      match env c with
      | Rejected e => Some e
      | Resolved _ => first_rejection env rest
      end
  end.

(** How the promise of a hand-off on a conversation settles.  Every
    rejected call is caught; the promise is rejected only when the
    caught reason is [null] or [undefined], by the [TypeError] of the
    [catch] block. *)
Definition ending (env : Call -> Response) (p : AgentCall.Props)
  (agentId : string) (message : option string) : Outcome unit :=
  match first_rejection env (expected_calls env p agentId message) with
  | Some e =>
      if Js.is_nullish e then Failed (Js.cannot_read e "message")
      else Fulfilled tt
  | None => Fulfilled tt
  end.

(** Every active run of the conversation is the run the hand-off stops
    first: the page reports it as "running" under its id. *)
Definition tracked (p : AgentCall.Props) (table : list Run) : Prop :=
  forall r, In r (active_runs (AgentCall.threadId p) table) ->
            stop_step p = [StopRun (run_id r)].

(** At most one run of the conversation is active in the table. *)
Definition at_most_one_active (conv : string) (table : list Run) : Prop :=
  length (active_runs conv table) <= 1.

(** What was added to a log that only grows. *)
Definition added {A : Type} (before after : list A) : list A :=
  skipn (length before) after.

(** A field of the settings the hook was given, absent when the hook
    was given none. *)
Definition setting {A : Type} (field : ModelSettings -> option A)
  (p : AgentCall.Props) : option A :=
  match AgentCall.currentModelSettings p with
  | Some s => field s
  | None => None
  end.

(** The same captured values with other settings: the next render after
    the page changed them. *)
Definition with_settings (p : AgentCall.Props) (s : option ModelSettings)
  : AgentCall.Props :=
  AgentCall.mkProps (AgentCall.threadId p) (AgentCall.currentAgentRunId p)
                    (AgentCall.currentAgentStatus p) s.

(** The update "thinking on, reasoning effort high". *)
Definition think_hard : ModelSettings := mkSettings None (Some true) (Some "high").

(** One message submission run to its end from the world [w]. *)
Definition submit (env : Call -> Response) (c : Preview.Captured)
  (clk : Clock) (random message : string)
  (options : option Preview.SubmitOptions) (w : World) : Outcome unit * World :=
  exec env (Preview.handleSubmitMessage c clk random message options) w.



(** The store after the stream reported [reports]. *)
Definition after_reports (reports : list string) (s : Store) : Store :=
  fold_left (fun s st => Preview.handleStreamStatusChange st s) reports s.

(** Run a computation, settling every call along [env], until it waits
    for a start call (or ends). *)
Fixpoint drive {A : Type} (env : Call -> Response) (t : Async A) (s : Store)
  : Susp A * Store :=
  match t with
  | Return a => (Done (Fulfilled a), s)
  | Throw e => (Done (Failed e), s)
  | Sync f k => drive env k (f s)
  | Await c k => if is_start c then (Pending c k, s) else drive env (k (env c)) s
  end.

(** The first call a hand-off waits for. *)
Definition first_call (p : AgentCall.Props) (agentId : string)
  (message : option string) : Call :=
  hd (start_step p agentId) (stop_step p ++ append_step p message).

(** [sub] occurs somewhere in [s]. *)
Definition occurs_in (sub s : string) : Prop :=
  exists before after, s = before ++ sub ++ after.

(** A tool result in which an image link, a success marker and the word
    "error" (inside the image url) meet. *)
Definition mixed_result : string :=
  "Image Generated Successfully! [View Image](https://cdn.example.com/error.png)".

(** The same result with a harmless url. *)
Definition clean_result : string :=
  "Image Generated Successfully! [View Image](https://cdn.example.com/a.png)".

(** The world after a synchronous update. *)
Definition updated (f : Store -> Store) (w : World) : World :=
  mkWorld (f (store w)) (runs w) (issued w) (observed w).

(** The world after call [c] was issued and settled. *)
Definition settled (env : Call -> Response) (c : Call) (w : World) : World :=
  mkWorld (store w) (controller c (env c) (runs w)) (issued w ++ [c])
          (observed w ++ [controller c (env c) (runs w)]).

(** The world after the calls [cs] were issued one after the other. *)
Definition issue (env : Call -> Response) (cs : list Call) (w : World) : World :=
  fold_left (fun w c => settled env c w) cs w.

(** The run table after the calls [cs], and the tables seen on the way. *)
Definition table_after (env : Call -> Response) (cs : list Call)
  (table : list Run) : list Run :=
  fold_left (fun t c => controller c (env c) t) cs table.

Fixpoint tables (env : Call -> Response) (cs : list Call) (table : list Run)
  : list (list Run) :=
  match cs with
  | [] => []
  | c :: rest =>
      controller c (env c) table :: tables env rest (controller c (env c) table)
  end.

(** Await the calls [cs] in turn, giving up at the first rejection. *)
Fixpoint await_each (env : Call -> Response) (cs : list Call) (w : World)
  : Outcome unit * World :=
  match cs with
  | [] => (Fulfilled tt, w)
  | c :: rest =>
      match env c with
      | Resolved _ => await_each env rest (settled env c w)
      | Rejected e => (Failed e, settled env c w)
      end
  end.

(** The local append of the hand-off message. *)
Definition optimistic (p : AgentCall.Props) (clk : Clock)
  (message : option string) (s : Store) : Store :=
  match message with
  | Some m =>
      if Js.truthy m
      then setMessages (fun prev => prev ++ [AgentCall.handoffMessage p clk m])%list s
      else s
  | None => s
  end.

(** The world the [catch] block leaves. *)
Definition caught (e : Js.Error) (w : World) : World :=
  updated (toast (ToastError ("Failed to switch to agent: " ++ reported e)))
    (updated (setError (Some (reported e)))
       (updated (console_error "[AGENT_CALL] Error in agent call:") w)).

(** The world the success path leaves after the start call. *)
Definition switched (rid agentId : string) (w : World) : World :=
  updated (toast (ToastSuccess "Successfully switched to agent"))
    (updated (setSelectedAgentId agentId)
       (updated (setAgentRunId (Some rid)) w)).

(** [catch] and [finally] applied to the way the [try] block ended.
    A caught [null] or [undefined] makes the [catch] block throw at its
    first statement; only [finally] runs then. *)
Definition finish (r : Outcome unit * World) : Outcome unit * World :=
  match r with
  | (Fulfilled _, w) => (Fulfilled tt, updated (setIsLoading false) w)
  | (Failed e, w) =>
      if Js.is_nullish e
      then (Failed (Js.cannot_read e "message"), updated (setIsLoading false) w)
      else (Fulfilled tt, updated (setIsLoading false) (caught e w))
  end.

(** The world in which the [try] block starts. *)
Definition entered (w : World) : World :=
  updated (setError None) (updated (setIsLoading true) w).

(* ================================================================== *)
(** ** Further vocabulary for the hand-off *)
(* ================================================================== *)

(** The message a hand-off appends to the local sequence, if any. *)
Definition handoff_messages (p : AgentCall.Props) (clk : Clock)
  (message : option string) : list UnifiedMessage :=
  match message with
  | Some m => if Js.truthy m then [AgentCall.handoffMessage p clk m] else []
  | None => []
  end.

(** The toast that goes with an error state: the success toast when it
    is empty, the error toast carrying its text otherwise. *)
Definition closing_toast (err : option string) : Toast :=
  match err with
  | None => ToastSuccess "Successfully switched to agent"
  | Some msg => ToastError ("Failed to switch to agent: " ++ msg)
  end.

(** The calls of a hand-off in which nothing is rejected. *)
Definition full_plan (p : AgentCall.Props) (agentId : string)
  (message : option string) : list Call :=
  stop_step p ++ append_step p message ++ [start_step p agentId].

(* ================================================================== *)
(** ** [AgentPreview]: the stream callbacks *)
(* ================================================================== *)

Module PreviewStream.

(** ASCII part of [String.prototype.toLowerCase]: the bytes of other
    characters are left as they are.  The two tests of
    [handleStreamError] look for phrases of ASCII letters without [k];
    the only other characters whose lower case holds an ASCII letter
    are U+212A (to [k]) and U+0130 (to [i] followed by U+0307), and
    neither can take part in a match of these phrases. *)
Definition lower_char (c : ascii) : ascii :=
  let n := nat_of_ascii c in
  if (65 <=? n)%nat && (n <=? 90)%nat then ascii_of_nat (n + 32) else c.

Fixpoint toLowerCase (s : string) : string :=
  match s with
  | EmptyString => EmptyString
  | String c rest => String (lower_char c) (toLowerCase rest)
  end.

(** [m.message_id === message.message_id]. *)
Definition same_id (message m : UnifiedMessage) : bool :=
  message_id m =? message_id message.

(** The updater [handleNewMessageFromStream] hands to [setMessages]:
    replace the entries that carry the message's id, or append the
    message when there is none. *)
Definition receive (message : UnifiedMessage) (prev : list UnifiedMessage)
  : list UnifiedMessage :=
  if existsb (same_id message) prev
  then map (fun m => if same_id message m then message else m) prev
  else prev ++ [message].

(** [handleNewMessageFromStream(message)], the [onMessage] callback. *)
Definition handleNewMessageFromStream (message : UnifiedMessage) (s : Store)
  : Store :=
  setMessages (receive message) s.

(** [handleStreamError(errorMessage)], the [onError] callback. *)
Definition handleStreamError (errorMessage : string) (s : Store) : Store :=
  let logged := console_error ("[PREVIEW] Stream error: " ++ errorMessage) s in
  if negb (Js.includes "not found" (toLowerCase errorMessage))
     && negb (Js.includes "agent run is not running" (toLowerCase errorMessage))
  then toast (ToastError ("Stream Error: " ++ errorMessage)) logged
  else logged.

End PreviewStream.

(* ================================================================== *)
(** ** [AgentPreview.handleAgentCall] *)
(* ================================================================== *)

(** The double quote. *)
Definition quote : string := String (ascii_of_nat 34) EmptyString.

Module PreviewCall.

(** An [Agent] of the agents list: the two fields the callback reads. *)
Record Agent : Type := mkAgent {
  agent_id : string;
  name : string
}.

(** [agentsResponse], the [data] of the fetched value: it may be
    missing, and so may its [agents]. *)
Definition AgentsResponse : Type := option (option (list Agent)).

(** [agentsResponse?.agents?.find(agent => agent.agent_id === agentId)]. *)
Definition targetAgent (agentId : string) (agentsResponse : AgentsResponse)
  : option Agent :=
  match agentsResponse with
  | Some (Some agents) => find (fun agent => agent_id agent =? agentId) agents
  | _ => None
  end.

Definition handoffMessage (threadId : string) (clk : Clock) (message : string)
  : UnifiedMessage :=
  mkMessage ("handoff-" ++ Js.show_N (date_now clk))
            threadId
            "user"
            false
            message
            "{}"
            (iso_created clk)
            (iso_updated clk).

(** "Add the handoff message to the conversation if provided". *)
Definition add_handoff_message (threadId : string) (clk : Clock)
  (message : option string) : Async unit :=
  match message with
  | Some m =>
      if Js.truthy m
      then
        act (setMessages (fun prev => (prev ++ [handoffMessage threadId clk m])%list)) ;;
        _ <- await (AppendMessage threadId m) ;;
        Return tt
      else Return tt
  | None => Return tt
  end.

(** [{ agent_id: targetAgent.agent_id }]. *)
Definition agentOptions (target : Agent) : AgentOptions :=
  mkOptions (Some (agent_id target)) None None None None.

(** "Start the new agent". *)
Definition start_target (threadId : string) (target : Agent) : Async unit :=
  agent_run_id <- await (StartRun threadId (agentOptions target)) ;;
  act (setAgentRunId (Some agent_run_id)) ;;
  act (toast (ToastSuccess ("Switched to " ++ name target))).

(** The [catch] block: the error is logged, then [error.message] is
    read for the toast. *)
Definition recover (error : Js.Error) : Async unit :=
  act (console_error "[AGENT_CALL] Error in agent call:") ;;
  message <- message_of error ;;
  act (toast (ToastError ("Failed to switch to agent: "
                          ++ Js.nullish message "undefined"))).

(** [handleAgentCall(agentId, message?)] of the preview, the
    [onAgentCall] callback given to the stream hook.  The agents query
    reads the list of agents and touches nothing of the state kept
    here, so the way its [await] ends, destructuring included, is the
    argument [fetched].  The [console.log] lines and the [alert] are
    left out. *)
Definition handleAgentCall (threadId : option string)
  (fetched : Outcome AgentsResponse) (clk : Clock) (agentId : string)
  (message : option string) : Async unit :=
  let no_thread :=
    act (console_error "[AGENT_CALL] No thread ID available for agent call") in
  match threadId with
  | None => no_thread
  | Some tid =>
      if negb (Js.truthy tid) then no_thread
      else
        try_catch
          ((* Find the agent by ID *)
           agentsResponse <- match fetched with
                             | Fulfilled v => Return v
                             | Failed e => Throw e
                             end ;;
           match targetAgent agentId agentsResponse with
           | None =>
               act (console_error "[AGENT_CALL] Agent not found with ID:") ;;
               act (toast (ToastError ("Agent with ID " ++ quote ++ agentId
                                       ++ quote ++ " not found")))
           | Some target =>
               add_handoff_message tid clk message ;;
               start_target tid target
           end)
          recover
  end.

End PreviewCall.

(** The stream error speaks, in whatever letter case, of something
    "not found" or of an "agent run is not running". *)
Definition about_missing_run (errorMessage : string) : Prop :=
  exists phrase,
    occurs_in phrase errorMessage /\
    (PreviewStream.toLowerCase phrase = "not found" \/
     PreviewStream.toLowerCase phrase = "agent run is not running").

(** A no-break space (U+00A0). *)
Definition nbsp : string :=
  String (ascii_of_nat 194) (String (ascii_of_nat 160) EmptyString).

(** No message of the sequence carries the id [id]. *)
Definition fresh_id (id : string) (prev : list UnifiedMessage) : bool :=
  negb (existsb (fun m => message_id m =? id) prev).

(* ================================================================== *)
(** ** [AssetGenerationToolView]: parameters, progress and panels *)
(* ================================================================== *)

Module AssetPanel.

(** The flags the view derives from the tool name. *)
Definition is3D (name : string) : bool := Js.includes "3d" name.

Definition is2D (name : string) : bool := Js.includes "2d" name.

Definition isImageGeneration (name : string) : bool :=
  Js.includes "ai_image" name || Js.includes "generate_asset" name.

Definition isEachlabsWorkflow (name : string) : bool := is2D name || is3D name.

(** The updater the interval timer hands to [setProgress]: the next
    progress, and whether [clearInterval] was called.  Progress starts
    at 0 and only ever moves by whole steps, so it is a natural
    number. *)
Definition tick (name : string) (prevProgress : nat) : nat * bool :=
  if isImageGeneration name then
    if (95 <=? prevProgress)%nat then (prevProgress, true)
    else (prevProgress + 8, false)
  else if isEachlabsWorkflow name then
    if (30 <=? prevProgress)%nat then (30, true)
    else (prevProgress + 2, false)
  else (prevProgress + 3, false).

(** The progress after the timer fired [n] times, or fewer if it was
    cleared on the way. *)
Fixpoint streaming (name : string) (n : nat) (progress : nat) : nat :=
  match n with
  | O => progress
  | S k =>
      let (next, cleared) := tick name progress in
      if cleared then next else streaming name k next
  end.

(** What [renderResult] shows. *)
Inductive Panel : Type :=
| Nothing
| GenerationFailed (message : string)
| ImagesGenerated (title : string) (urls : list string)
| WorkflowStarted (details : option string)
| Fallback (text : string).

(** The line at the foot of the view. *)
Definition footer (isSuccess : bool) (toolResult : AssetView.AssetResult)
  : string :=
  if negb isSuccess then "Generation failed"
  else if AssetView.isAsyncProcessing toolResult
       then "Workflow started - processing in background"
  else if AssetView.hasImages toolResult then "Images generated successfully"
  else "Generation completed".

(** [s] when it is a truthy string. *)
Definition truthy_text (o : option string) : option string :=
  match o with
  | Some s => if Js.truthy s then Some s else None
  | None => None
  end.

Section WithJson.

Variable Obj : Type.
Variable JSON_stringify : Obj -> string.

(** [JSON.stringify(toolContent, null, 2)]. *)
Variable JSON_pretty : AssetView.Content Obj -> string.

(** [renderResult()]. *)
Definition renderResult (toolContent : AssetView.Content Obj)
  (isStreaming : bool) : Panel :=
  let toolResult := AssetView.parseToolResult JSON_stringify toolContent in
  if negb (AssetView.truthy toolContent) || isStreaming then Nothing
  else
    (* Handle error cases *)
    match truthy_text (AssetView.errorMessage toolResult) with
    | Some message => GenerationFailed message
    | None =>
        (* Handle Google Imagen immediate results (with images) *)
        if AssetView.isGoogleImagen toolResult && AssetView.hasImages toolResult
        then
          ImagesGenerated
            (if (length (AssetView.images toolResult) =? 1)%nat
             then "Image Generated"
             else Js.show_N (N.of_nat (length (AssetView.images toolResult)))
                  ++ " Images Generated")
            (AssetView.images toolResult)
        (* Handle Eachlabs workflow results (async processing) *)
        else if AssetView.isEachlabsWorkflow toolResult
                && AssetView.isAsyncProcessing toolResult
        then WorkflowStarted (truthy_text (AssetView.workflowDetails toolResult))
        (* Fallback for other content *)
        else Fallback (match toolContent with
                       | AssetView.CString s => s
                       | _ => JSON_pretty toolContent
                       end)
    end.

End WithJson.

Arguments renderResult {Obj} JSON_stringify JSON_pretty toolContent isStreaming.

(** [<parameter name="NAME">]. *)
Definition open_tag (name : string) : string :=
  "<parameter name=" ++ quote ++ name ++ quote ++ ">".

Definition close_tag : string := "</parameter>".

(** [[\s\S]*?<\/parameter>] at the front of [s]: the shortest text that
    is followed by the closing tag. *)
Fixpoint before_close (s : string) : option string :=
  match AssetView.strip close_tag s with
  | Some _ => Some EmptyString
  | None =>
      match s with
      | EmptyString => None
      | String c rest =>
          match before_close rest with
          | Some g => Some (String c g)
          | None => None
          end
      end
  end.

(** [contentStr.match(/<parameter name="NAME">([\s\S]*?)<\/parameter>/)]:
    group 1 of the leftmost match. *)
Fixpoint parameter (name : string) (s : string) : option string :=
  match
    match AssetView.strip (open_tag name) s with
    | Some r => before_close r
    | None => None
    end
  with
  | Some g => Some g
  | None =>
      match s with
      | EmptyString => None
      | String _ rest => parameter name rest
      end
  end.

Section WithBuiltins.

Variable Obj : Type.
Variable JSON_stringify : Obj -> string.

(** [String.prototype.trim] and [parseInt], with the numbers of the
    host. *)
Variable trim : string -> string.
Variable Num : Type.
Variable parseInt : string -> Num.

Record AssetData : Type := mkData {
  prompt : option string;
  output_file : option string;
  game_style : option string;
  asset_type : option string;
  width : option Num;
  height : option Num;
  format : option string;
  aspect_ratio : option string;
  number_of_images : option Num
}.

Definition no_data : AssetData :=
  mkData None None None None None None None None None.

(** [extractAssetData(content)]. *)
Definition extractAssetData (content : AssetView.Content Obj) : AssetData :=
  if negb (AssetView.truthy content) then no_data
  else
    let contentStr := AssetView.contentStr JSON_stringify content in
    (* Extract from XML parameters *)
    mkData
      (option_map trim (parameter "prompt" contentStr))
      (option_map trim (parameter "output_file" contentStr))
      (option_map trim (parameter "game_style" contentStr))
      None
      (option_map (fun g => parseInt (trim g)) (parameter "width" contentStr))
      (option_map (fun g => parseInt (trim g)) (parameter "height" contentStr))
      (option_map trim (parameter "format" contentStr))
      None
      None.

End WithBuiltins.

Arguments extractAssetData {Obj} JSON_stringify trim {Num} parseInt content.
Arguments prompt {Num} a.
Arguments output_file {Num} a.
Arguments game_style {Num} a.
Arguments asset_type {Num} a.
Arguments width {Num} a.
Arguments height {Num} a.
Arguments format {Num} a.
Arguments aspect_ratio {Num} a.
Arguments number_of_images {Num} a.

End AssetPanel.

(* ================================================================== *)
(** ** Vocabulary for the asset-generation view *)
(* ================================================================== *)

(** The character [c] occurs in [s]. *)
Fixpoint has_char (c : ascii) (s : string) : bool :=
  match s with
  | EmptyString => false
  | String a rest => Ascii.eqb a c || has_char c rest
  end.

(** A url as the image pattern accepts it: [http://] or [https://],
    then at least one character, none of them a closing parenthesis. *)
Definition web_url (u : string) : Prop :=
  exists body,
    (u = "http://" ++ body \/ u = "https://" ++ body) /\
    body <> "" /\ has_char ")" body = false.

(** The markdown link the tool writes for an image. *)
Definition link (u : string) : string := "[View Image](" ++ u ++ ")".

(** A tool result that lists images: some text, then one link per url,
    each followed by some text. *)
Definition gallery (intro sep : string) (urls : list string) : string :=
  intro ++ fold_right (fun u rest => link u ++ sep ++ rest) "" urls.

(** The text [t] is what stands, trimmed, between an opening tag of
    parameter [name] and the first closing tag after it in [text]. *)
Definition captured (trim : string -> string) (name text t : string) : Prop :=
  exists before body after,
    text = before ++ AssetPanel.open_tag name ++ body
                  ++ AssetPanel.close_tag ++ after /\
    t = trim body /\
    ~ occurs_in AssetPanel.close_tag body.

(* ================================================================== *)
(** ** Vocabulary for the hand-off of the preview *)
(* ================================================================== *)

(** How the promise of a hand-off of the preview settles. *)
Definition preview_result (env : Call -> Response) (threadId : option string)
  (fetched : Outcome PreviewCall.AgentsResponse) (clk : Clock)
  (agentId : string) (message : option string) (w : World) : Outcome unit :=
  fst (exec env (PreviewCall.handleAgentCall threadId fetched clk agentId message) w).

(** A hand-off of the preview, run to its end. *)
Definition preview_handoff (env : Call -> Response) (threadId : option string)
  (fetched : Outcome PreviewCall.AgentsResponse) (clk : Clock)
  (agentId : string) (message : option string) (w : World) : World :=
  snd (exec env (PreviewCall.handleAgentCall threadId fetched clk agentId message) w).

(** The agent [agentId] is on the fetched list. *)
Definition listed (agentId : string) (fetched : Outcome PreviewCall.AgentsResponse)
  : bool :=
  match fetched with
  | Fulfilled (Some (Some agents)) =>
      existsb (fun a => PreviewCall.agent_id a =? agentId) agents
  | _ => false
  end.

(** The message the preview appends to the local sequence, if any. *)
Definition preview_messages (tid : string) (clk : Clock)
  (message : option string) : list UnifiedMessage :=
  match message with
  | Some m => if Js.truthy m then [PreviewCall.handoffMessage tid clk m] else []
  | None => []
  end.

(** Two agents as the agents query lists them. *)
Definition two_agents : Outcome PreviewCall.AgentsResponse :=
  Fulfilled (Some (Some [PreviewCall.mkAgent "writer" "Writer";
                         PreviewCall.mkAgent "artist" "Artist"])).

(* ================================================================== *)
(** ** How computations run *)
(* ================================================================== *)

Section Semantics.

Variable env : Call -> Response.

Lemma exec_bind {A B : Type} (m : Async A) (f : A -> Async B) (w : World) :
  exec env (bind m f) w =
  match exec env m w with
  | (Fulfilled a, w1) => exec env (f a) w1
  | (Failed e, w1) => (Failed e, w1)
  end.
Proof.
  revert w. induction m as [a | e | g k IH | c k IH]; intros w; cbn.
  - reflexivity.
  - reflexivity.
  - apply IH.
  - apply IH.
Qed.

Lemma exec_try_catch {A : Type} (m : Async A) (h : Js.Error -> Async A)
  (w : World) :
  exec env (try_catch m h) w =
  match exec env m w with
  | (Fulfilled a, w1) => (Fulfilled a, w1)
  | (Failed e, w1) => exec env (h e) w1
  end.
Proof.
  revert w. induction m as [a | e | g k IH | c k IH]; intros w; cbn;
    solve [reflexivity | apply IH].
Qed.

Lemma exec_act (f : Store -> Store) (w : World) :
  exec env (act f) w = (Fulfilled tt, updated f w).
Proof. reflexivity. Qed.

Lemma exec_try_finally_act {A : Type} (m : Async A) (f : Store -> Store)
  (w : World) :
  exec env (try_finally m (act f)) w =
  (fst (exec env m w), updated f (snd (exec env m w))).
Proof.
  revert w. induction m as [a | e | g k IH | c k IH]; intros w; cbn;
    solve [reflexivity | apply IH].
Qed.

Lemma exec_await (c : Call) (w : World) :
  exec env (await c) w =
  (match env c with Resolved v => Fulfilled v | Rejected e => Failed e end,
   settled env c w).
Proof.
  unfold await. cbn. unfold settled. destruct (env c); reflexivity.
Qed.

Lemma updated_same (w : World) : updated (fun s => s) w = w.
Proof. destruct w; reflexivity. Qed.

(** The stop block awaits exactly [stop_step]. *)
Lemma exec_stop_current (p : AgentCall.Props) (w : World) :
  exec env (AgentCall.stop_current p) w = await_each env (stop_step p) w.
Proof.
  unfold AgentCall.stop_current, stop_step.
  destruct (AgentCall.currentAgentRunId p) as [rid |]; [| reflexivity].
  destruct (Js.truthy rid && (AgentCall.currentAgentStatus p =? "running"));
    [| reflexivity].
  rewrite exec_bind, exec_await. cbn. destruct (env (StopRun rid)); reflexivity.
Qed.

(** The message block appends locally, then awaits [append_step]. *)
Lemma exec_add_handoff_message (p : AgentCall.Props) clk message (w : World) :
  exec env (AgentCall.add_handoff_message p clk message) w =
  await_each env (append_step p message) (updated (optimistic p clk message) w).
Proof.
  unfold AgentCall.add_handoff_message, append_step, optimistic.
  destruct message as [m |]; cbn -[await].
  - destruct (Js.truthy m); cbn -[await].
    + change (exec env (_ <- await (AppendMessage (AgentCall.threadId p) m);; Return tt)
                (updated (setMessages (fun prev => prev ++ [AgentCall.handoffMessage p clk m])%list) w)
              = await_each env [AppendMessage (AgentCall.threadId p) m]
                  (updated (setMessages (fun prev => prev ++ [AgentCall.handoffMessage p clk m])%list) w)).
      rewrite exec_bind, exec_await. cbn.
      destruct (env (AppendMessage (AgentCall.threadId p) m)); reflexivity.
    + now rewrite updated_same.
  - now rewrite updated_same.
Qed.

(** The start block. *)
Lemma exec_start_target (p : AgentCall.Props) agentId (w : World) :
  exec env (AgentCall.start_target p agentId) w =
  match env (start_step p agentId) with
  | Resolved rid =>
      (Fulfilled tt, switched rid agentId (settled env (start_step p agentId) w))
  | Rejected e => (Failed e, settled env (start_step p agentId) w)
  end.
Proof.
  unfold AgentCall.start_target. rewrite exec_bind, exec_await.
  fold (start_step p agentId).
  destruct (env (start_step p agentId)); reflexivity.
Qed.

(** The whole [try] block. *)
Lemma exec_attempt (p : AgentCall.Props) clk agentId message (w : World) :
  exec env (AgentCall.attempt p clk agentId message) w =
  match await_each env (stop_step p) w with
  | (Failed e, w1) => (Failed e, w1)
  | (Fulfilled _, w1) =>
      match await_each env (append_step p message)
              (updated (optimistic p clk message) w1) with
      | (Failed e, w2) => (Failed e, w2)
      | (Fulfilled _, w2) =>
          match env (start_step p agentId) with
          | Resolved rid =>
              (Fulfilled tt,
               switched rid agentId (settled env (start_step p agentId) w2))
          | Rejected e => (Failed e, settled env (start_step p agentId) w2)
          end
      end
  end.
Proof.
  unfold AgentCall.attempt.
  rewrite exec_bind, exec_stop_current.
  destruct (await_each env (stop_step p) w) as [[[] | e] w1]; [| reflexivity].
  rewrite exec_bind, exec_add_handoff_message.
  destruct (await_each env (append_step p message) _) as [[[] | e] w2];
    [| reflexivity].
  apply exec_start_target.
Qed.

(** The [catch] block: a caught [null] or [undefined] is answered by a
    [TypeError] before anything is logged, set or shown. *)
Lemma exec_recover (e : Js.Error) (w : World) :
  exec env (AgentCall.recover e) w =
  if Js.is_nullish e then (Failed (Js.cannot_read e "message"), w)
  else (Fulfilled tt, caught e w).
Proof. destruct e; reflexivity. Qed.

(** A hand-off on a conversation: enter, try, catch, finally. *)
Lemma handoff_runs (p : AgentCall.Props) clk agentId message (w : World) :
  Js.truthy (AgentCall.threadId p) = true ->
  handoff env p clk agentId message w =
  finish (exec env (AgentCall.attempt p clk agentId message) (entered w)).
Proof.
  intros Ht. unfold handoff, AgentCall.handleAgentCall. rewrite Ht.
  cbn [negb].
  rewrite exec_bind, exec_act, exec_bind, exec_act.
  rewrite exec_try_finally_act, exec_try_catch.
  fold (entered w).
  destruct (exec env (AgentCall.attempt p clk agentId message) (entered w))
    as [[[] | e] w1]; [reflexivity |].
  rewrite exec_recover. cbn [finish]. destruct (Js.is_nullish e); reflexivity.
Qed.

(** Without a conversation the hand-off only records the error. *)
Lemma handoff_no_thread (p : AgentCall.Props) clk agentId message (w : World) :
  Js.truthy (AgentCall.threadId p) = false ->
  handoff env p clk agentId message w =
  (Fulfilled tt,
   updated (setError (Some "No thread ID available for agent call"))
     (updated (console_error "[AGENT_CALL] No thread ID available for agent call") w)).
Proof.
  intros Ht. unfold handoff, AgentCall.handleAgentCall. rewrite Ht. reflexivity.
Qed.

(** Calls that are all fulfilled are all issued. *)
Lemma await_each_fulfilled (cs : list Call) (w : World) :
  fulfilled env cs = true ->
  await_each env cs w = (Fulfilled tt, issue env cs w).
Proof.
  revert w. induction cs as [| c cs IH]; intros w H; cbn in *.
  - reflexivity.
  - destruct (env c); [| discriminate]. apply IH. exact H.
Qed.

(** Issuing calls touches the table and the two logs, never the store. *)
Lemma issue_world (cs : list Call) (w : World) :
  issue env cs w =
  mkWorld (store w) (table_after env cs (runs w)) (issued w ++ cs)
          (observed w ++ tables env cs (runs w)).
Proof.
  revert w. induction cs as [| c cs IH]; intros w.
  - cbn. rewrite !app_nil_r. destruct w; reflexivity.
  - change (issue env (c :: cs) w) with (issue env cs (settled env c w)).
    rewrite IH. cbn. rewrite <- !app_assoc. reflexivity.
Qed.

End Semantics.

(* ================================================================== *)
(** ** The steps of a hand-off *)
(* ================================================================== *)

Lemma stop_step_running (p : AgentCall.Props) (rid : string) :
  AgentCall.currentAgentRunId p = Some rid ->
  Js.truthy rid = true ->
  AgentCall.currentAgentStatus p = "running" ->
  stop_step p = [StopRun rid].
Proof.
  intros Hr Hrid Hs. unfold stop_step. now rewrite Hr, Hrid, Hs.
Qed.

Lemma stop_step_not_running (p : AgentCall.Props) :
  AgentCall.currentAgentStatus p <> "running" -> stop_step p = [].
Proof.
  intros Hs. unfold stop_step.
  destruct (AgentCall.currentAgentRunId p) as [rid |]; [| reflexivity].
  apply String.eqb_neq in Hs. rewrite Hs. now rewrite andb_false_r.
Qed.

Lemma stop_step_cases (p : AgentCall.Props) :
  stop_step p = [] \/
  exists rid, stop_step p = [StopRun rid] /\
              AgentCall.currentAgentRunId p = Some rid /\
              Js.truthy rid = true /\
              AgentCall.currentAgentStatus p = "running".
Proof.
  unfold stop_step.
  destruct (AgentCall.currentAgentRunId p) as [rid |]; [| now left].
  destruct (Js.truthy rid) eqn:Hrid; [| now left].
  destruct (AgentCall.currentAgentStatus p =? "running") eqn:Hs; [| now left].
  right. exists rid. apply String.eqb_eq in Hs. auto.
Qed.

Lemma append_step_cases (p : AgentCall.Props) (message : option string) :
  append_step p message = [] \/
  exists m, message = Some m /\ Js.truthy m = true /\
            append_step p message = [AppendMessage (AgentCall.threadId p) m].
Proof.
  unfold append_step. destruct message as [m |]; [| now left].
  destruct (Js.truthy m) eqn:Hm; [| now left].
  right. exists m. auto.
Qed.

Lemma append_step_no_stop (p : AgentCall.Props) (message : option string) :
  existsb is_stop (append_step p message) = false.
Proof.
  destruct (append_step_cases p message) as [-> | (m & _ & _ & ->)]; reflexivity.
Qed.

Lemma stop_step_no_start (p : AgentCall.Props) :
  filter is_start (stop_step p) = [].
Proof.
  destruct (stop_step_cases p) as [-> | (rid & -> & _)]; reflexivity.
Qed.

Lemma append_step_no_start (p : AgentCall.Props) (message : option string) :
  filter is_start (append_step p message) = [].
Proof.
  destruct (append_step_cases p message) as [-> | (m & _ & _ & ->)]; reflexivity.
Qed.

(** One call awaited: it is issued, the store is untouched, and the
    await goes through exactly when the call is fulfilled. *)
Lemma await_one (env : Call -> Response) (c : Call) (w : World) :
  await_each env [c] w =
  (match env c with Resolved _ => Fulfilled tt | Rejected e => Failed e end,
   settled env c w).
Proof. cbn. destruct (env c); reflexivity. Qed.

Lemma added_app {A : Type} (l more : list A) : added l (l ++ more) = more.
Proof.
  unfold added. induction l as [| a l IH]; [reflexivity | exact IH].
Qed.

Lemma over_absent {A : Type} (source : option A) : over None source = source.
Proof. destruct source; reflexivity. Qed.

Lemma agentOptions_agent_id (p : AgentCall.Props) (agentId : string) :
  opt_agent_id (AgentCall.agentOptions p agentId) = Some agentId.
Proof.
  unfold AgentCall.agentOptions, spread_settings.
  destruct (AgentCall.currentModelSettings p); reflexivity.
Qed.

(** The options of the start call are the target and the settings. *)
Lemma agentOptions_settings (p : AgentCall.Props) (agentId : string) :
  AgentCall.agentOptions p agentId =
  mkOptions (Some agentId) (setting model_name p) (setting enable_thinking p)
            (setting reasoning_effort p) None.
Proof.
  unfold AgentCall.agentOptions, spread_settings, setting.
  destruct (AgentCall.currentModelSettings p) as [s |]; [| reflexivity].
  cbn. now rewrite !over_absent.
Qed.

(** Compare stores and worlds field by field.  The setters copy their
    argument once per field, so they are evaluated innermost first. *)
Ltac fields :=
  cbv [caught switched entered updated settled setAgentRunId
       setSelectedAgentId setAgentStatus setMessages setIsLoading setError
       toast console_error
       store runs issued observed agentRunId selectedAgentId agentStatus
       messages isLoading error toasts console_errors fst snd].

(* ================================================================== *)
(** ** The hand-off as a whole *)
(* ================================================================== *)

(** Splits on the reasons of the rejections in the goal. *)
Ltac reasons :=
  repeat match goal with
         | |- context [Js.is_nullish ?e] =>
             let N := fresh "Hnull" in destruct (Js.is_nullish e) eqn:N
         end.

(** The promise of a hand-off on a conversation settles as [ending]
    says. *)
Lemma handoff_ending (env : Call -> Response) p clk agentId message w :
  Js.truthy (AgentCall.threadId p) = true ->
  fst (handoff env p clk agentId message w) = ending env p agentId message.
Proof.
  intros Ht. rewrite (handoff_runs env p clk agentId message w Ht), exec_attempt.
  unfold ending, expected_calls.
  destruct (stop_step_cases p) as [-> | (rid & -> & _)];
    destruct (append_step_cases p message) as [-> | (m & _ & _ & ->)];
    rewrite ?await_one;
    repeat (cbn [await_each fulfilled forallb finish fst snd andb app
                 first_rejection];
            match goal with
            | |- context [env ?c] => destruct (env c)
            end);
    cbn [await_each fulfilled forallb finish fst snd andb app first_rejection];
    reasons; reflexivity.
Qed.

(** The calls issued by a hand-off on a conversation. *)
Lemma handoff_issued (env : Call -> Response) p clk agentId message w :
  Js.truthy (AgentCall.threadId p) = true ->
  issued (snd (handoff env p clk agentId message w))
  = (issued w ++ expected_calls env p agentId message)%list.
Proof.
  intros Ht. rewrite (handoff_runs env p clk agentId message w Ht), exec_attempt.
  unfold expected_calls.
  destruct (stop_step_cases p) as [-> | (rid & -> & _)];
    destruct (append_step_cases p message) as [-> | (m & _ & _ & ->)];
    rewrite ?await_one; cbn [await_each fulfilled forallb];
    repeat match goal with
           | |- context [env ?c] => destruct (env c)
           end;
    cbn [finish fst snd andb app]; reasons; cbn [fst snd]; fields;
    rewrite <- ?app_assoc; reflexivity.
Qed.

(** Unless the run is reported as running, a hand-off stops nothing. *)
Lemma no_stop_unless_running (env : Call -> Response) p agentId message :
  AgentCall.currentAgentStatus p <> "running" ->
  existsb is_stop (expected_calls env p agentId message) = false.
Proof.
  intros Hs. unfold expected_calls. rewrite (stop_step_not_running p Hs).
  cbn [app fulfilled forallb]. rewrite existsb_app, append_step_no_stop.
  destruct (fulfilled env (append_step p message)); reflexivity.
Qed.

(** A hand-off that ends fulfilled and without an error went through
    every call. *)
Lemma success_inv (env : Call -> Response) p clk agentId message w :
  fst (handoff env p clk agentId message w) = Fulfilled tt ->
  error (store (snd (handoff env p clk agentId message w))) = None ->
  Js.truthy (AgentCall.threadId p) = true /\
  fulfilled env (stop_step p) = true /\
  fulfilled env (append_step p message) = true /\
  exists rid, env (start_step p agentId) = Resolved rid.
Proof.
  destruct (Js.truthy (AgentCall.threadId p)) eqn:Ht.
  - rewrite (handoff_runs env p clk agentId message w Ht), exec_attempt.
    destruct (stop_step_cases p) as [-> | (rid & -> & _)];
      destruct (append_step_cases p message) as [-> | (m & _ & _ & ->)];
      rewrite ?await_one; cbn [await_each fulfilled forallb];
      repeat match goal with
             | |- context [match env ?c with _ => _ end] =>
                 let E := fresh "E" in destruct (env c) eqn:E
             end;
      cbn [finish fst snd andb]; reasons; cbn [fst snd]; fields;
      intros Ho H; try discriminate Ho; try discriminate H;
      repeat split; eauto.
  - rewrite (handoff_no_thread env p clk agentId message w Ht). fields.
    discriminate.
Qed.

(** The world after a hand-off in which every call is fulfilled. *)
Lemma handoff_succeeds (env : Call -> Response) p clk agentId message w rid :
  Js.truthy (AgentCall.threadId p) = true ->
  fulfilled env (stop_step p) = true ->
  fulfilled env (append_step p message) = true ->
  env (start_step p agentId) = Resolved rid ->
  handoff env p clk agentId message w =
  (Fulfilled tt,
   updated (setIsLoading false)
     (switched rid agentId
        (settled env (start_step p agentId)
           (issue env (append_step p message)
              (updated (optimistic p clk message)
                 (issue env (stop_step p) (entered w))))))).
Proof.
  intros Ht Hstop Happ Hstart.
  rewrite (handoff_runs env p clk agentId message w Ht), exec_attempt.
  rewrite (await_each_fulfilled env (stop_step p) (entered w) Hstop).
  rewrite (await_each_fulfilled env (append_step p message) _ Happ).
  rewrite Hstart. reflexivity.
Qed.

(** When stop and save go through, exactly one start call is issued,
    and it carries the settings the hook was given. *)
Lemma handoff_start_call (env : Call -> Response) p clk agentId message w :
  Js.truthy (AgentCall.threadId p) = true ->
  fulfilled env (stop_step p) = true ->
  fulfilled env (append_step p message) = true ->
  filter is_start (added (issued w) (issued (snd (handoff env p clk agentId message w))))
  = [StartRun (AgentCall.threadId p)
       (mkOptions (Some agentId) (setting model_name p)
          (setting enable_thinking p) (setting reasoning_effort p) None)].
Proof.
  intros Ht Hstop Happ.
  rewrite (handoff_issued env p clk agentId message w Ht), added_app.
  unfold expected_calls. rewrite Hstop, Happ.
  rewrite !filter_app, stop_step_no_start, append_step_no_start.
  unfold start_step. now rewrite agentOptions_settings.
Qed.

(* ================================================================== *)
(** ** The run table *)
(* ================================================================== *)

(** Saving a message leaves the run table alone. *)
Lemma table_after_append (env : Call -> Response) p message table :
  table_after env (append_step p message) table = table /\
  Forall (fun t => t = table) (tables env (append_step p message) table).
Proof.
  destruct (append_step_cases p message) as [-> | (m & _ & _ & ->)]; cbn.
  - split; [reflexivity | constructor].
  - destruct (env (AppendMessage (AgentCall.threadId p) m)); split;
      try reflexivity; repeat constructor.
Qed.

Lemma active_runs_app (conv : string) (t1 t2 : list Run) :
  active_runs conv (t1 ++ t2) = (active_runs conv t1 ++ active_runs conv t2)%list.
Proof. apply filter_app. Qed.

(** Stopping the run that every active run of the conversation is
    leaves no run of the conversation active. *)
Lemma active_runs_stopped (conv rid : string) (table : list Run) :
  (forall r, In r (active_runs conv table) -> run_id r = rid) ->
  active_runs conv (map (stop_run rid) table) = [].
Proof.
  induction table as [| r table IH]; intros Hall; [reflexivity |].
  cbn [map active_runs filter]. fold (active_runs conv (map (stop_run rid) table)).
  rewrite IH.
  - unfold stop_run.
    destruct (is_active r) eqn:Hact.
    + destruct (conversation_id r =? conv) eqn:Hconv.
      * assert (Hid : run_id r = rid).
        { apply Hall. unfold active_runs. cbn [filter]. rewrite Hact, Hconv.
          now left. }
        rewrite Hid, String.eqb_refl. reflexivity.
      * destruct (run_id r =? rid); cbn; rewrite ?Hact, ?Hconv; reflexivity.
    + rewrite andb_false_r, Hact. reflexivity.
  - intros r' Hr'. apply Hall. unfold active_runs in *. cbn [filter].
    destruct (is_active r && (conversation_id r =? conv)); [now right | exact Hr'].
Qed.

(** The table once the stop step is through. *)
Lemma table_after_stop (env : Call -> Response) p table :
  tracked p table ->
  fulfilled env (stop_step p) = true ->
  active_runs (AgentCall.threadId p) (table_after env (stop_step p) table) = [] /\
  Forall (fun t => active_runs (AgentCall.threadId p) t = [])
         (tables env (stop_step p) table).
Proof.
  intros Htr Hstop.
  destruct (stop_step_cases p) as [Hnone | (rid & Hsome & _)].
  - assert (Hidle : active_runs (AgentCall.threadId p) table = []).
    { destruct (active_runs (AgentCall.threadId p) table) as [| r rest] eqn:Hact;
        [reflexivity |].
      specialize (Htr r). rewrite Hact, Hnone in Htr.
      discriminate Htr. now left. }
    rewrite Hnone. split; [exact Hidle | constructor].
  - assert (Hids : forall r, In r (active_runs (AgentCall.threadId p) table) ->
                             run_id r = rid).
    { intros r Hr. specialize (Htr r Hr). rewrite Hsome in Htr. congruence. }
    rewrite Hsome in *. cbn [fulfilled forallb] in Hstop.
    destruct (env (StopRun rid)) eqn:E; [| discriminate].
    unfold table_after. cbn [fold_left tables]. rewrite E. cbn [controller].
    split.
    + apply active_runs_stopped. exact Hids.
    + constructor; [apply active_runs_stopped; exact Hids | constructor].
Qed.

(* ================================================================== *)
(** ** Properties of the hand-off *)
(* ================================================================== *)

(* ------------------------------------------------------------------ *)
(** *** Successful hand-off *)

(** C1 (as amended).  After a hand-off that completed successfully (its
    promise is fulfilled and no error is set) the run id is the id
    returned by the start call and the selected agent is the requested
    target.  If, in addition, every run of the conversation that was
    active beforehand is the run the page reports as "running" (the one
    the hand-off stops first), then after each call of the hand-off at
    most one run of the conversation is active, and at the end it is
    the new run of the target agent. *)
Theorem C1_handoff_success (env : Call -> Response) p clk agentId message w :
  fst (handoff env p clk agentId message w) = Fulfilled tt ->
  error (store (snd (handoff env p clk agentId message w))) = None ->
  exists rid,
    env (start_step p agentId) = Resolved rid /\
    agentRunId (store (snd (handoff env p clk agentId message w))) = Some rid /\
    selectedAgentId (store (snd (handoff env p clk agentId message w)))
      = Some agentId /\
    (tracked p (runs w) ->
     active_runs (AgentCall.threadId p)
       (runs (snd (handoff env p clk agentId message w)))
       = [mkRun rid (AgentCall.threadId p) agentId st_starting] /\
     Forall (at_most_one_active (AgentCall.threadId p))
       (added (observed w) (observed (snd (handoff env p clk agentId message w))))).
Proof.
  intros Hfulfilled Hok.
  destruct (success_inv env p clk agentId message w Hfulfilled Hok)
    as (Ht & Hstop & Happ & rid & Hstart).
  exists rid.
  rewrite (handoff_succeeds env p clk agentId message w rid Ht Hstop Happ Hstart).
  rewrite !issue_world. destruct w as [st table calls seen].
  fields. rewrite Hstart.
  split; [reflexivity |]. split; [reflexivity |]. split; [reflexivity |].
  intros Htr.
  destruct (table_after_append env p message
              (table_after env (stop_step p) table)) as [-> Hsame].
  destruct (table_after_stop env p table Htr Hstop) as [Hidle Hidles].
  unfold start_step. cbn [controller].
  rewrite agentOptions_agent_id. cbn [Js.nullish].
  assert (Hnew : active_runs (AgentCall.threadId p)
                   (table_after env (stop_step p) table
                    ++ [mkRun rid (AgentCall.threadId p) agentId st_starting])
                 = [mkRun rid (AgentCall.threadId p) agentId st_starting]).
  { rewrite active_runs_app, Hidle. cbn. now rewrite String.eqb_refl. }
  split; [exact Hnew |].
  rewrite <- !app_assoc, added_app.
  apply Forall_app; split; [| apply Forall_app; split].
  - eapply Forall_impl; [| exact Hidles].
    intros t Ht0. unfold at_most_one_active. rewrite Ht0. cbn. lia.
  - eapply Forall_impl; [| exact Hsame].
    intros t ->. unfold at_most_one_active. rewrite Hidle. cbn. lia.
  - constructor; [| constructor].
    unfold at_most_one_active. rewrite Hnew. cbn. lia.
Qed.

(** The end-to-end scenario: [R1] of the writer is running, the artist is called with a message. *)
Lemma C1_handoff_success_witness :
  exists rid,
    always "R2" (start_step (props_R1 "running") "artist") = Resolved rid /\
    agentRunId (store (snd (handoff (always "R2") (props_R1 "running") clock0
                              "artist" (Some please_draw)
                              (world_with (busy_store "R1" "running")
                                 [run_R1 st_running])))) = Some rid /\
    selectedAgentId (store (snd (handoff (always "R2") (props_R1 "running") clock0
                              "artist" (Some please_draw)
                              (world_with (busy_store "R1" "running")
                                 [run_R1 st_running])))) = Some "artist" /\
    active_runs "t1"
      (runs (snd (handoff (always "R2") (props_R1 "running") clock0
                    "artist" (Some please_draw)
                    (world_with (busy_store "R1" "running") [run_R1 st_running]))))
      = [mkRun rid "t1" "artist" st_starting] /\
    Forall (at_most_one_active "t1")
      (added []
         (observed (snd (handoff (always "R2") (props_R1 "running") clock0
                    "artist" (Some please_draw)
                    (world_with (busy_store "R1" "running") [run_R1 st_running]))))).
Proof.
  destruct (C1_handoff_success (always "R2") (props_R1 "running") clock0 "artist"
              (Some please_draw)
              (world_with (busy_store "R1" "running") [run_R1 st_running])
              eq_refl eq_refl) as (rid & Hstart & Hrun & Hagent & Hinv).
  exists rid.
  split; [exact Hstart |]. split; [exact Hrun |]. split; [exact Hagent |].
  apply Hinv.
  intros r Hr. cbn in Hr. destruct Hr as [<- | []]. reflexivity.
Defined.

(** C1 fails as stated: run [R1] is still starting (the page shows
    "connecting"), so it is not stopped; the hand-off succeeds and leaves
    two active runs on the conversation. *)
Lemma C1_counterexample :
  fst (handoff (always "R2") (props_R1 "connecting") clock0 "artist" None
         (world_with (busy_store "R1" "connecting") [run_R1 st_starting]))
  = Fulfilled tt /\
  error (store (snd (handoff (always "R2") (props_R1 "connecting") clock0 "artist"
                       None
                       (world_with (busy_store "R1" "connecting")
                          [run_R1 st_starting])))) = None /\
  agentRunId (store (snd (handoff (always "R2") (props_R1 "connecting") clock0
                            "artist" None
                            (world_with (busy_store "R1" "connecting")
                               [run_R1 st_starting])))) = Some "R2" /\
  length (active_runs "t1" [run_R1 st_starting]) = 1 /\
  active_runs "t1"
    (runs (snd (handoff (always "R2") (props_R1 "connecting") clock0 "artist" None
                  (world_with (busy_store "R1" "connecting")
                     [run_R1 st_starting]))))
  = [run_R1 st_starting; mkRun "R2" "t1" "artist" st_starting].
Proof. repeat split. Qed.

(* ------------------------------------------------------------------ *)
(** *** The precondition that is checked *)

(** C2 (as amended).  The hook checks the conversation, not the target.
    With an empty thread id the hand-off records the error "No thread ID
    available for agent call", issues no call and changes nothing else
    (run id, selected agent, messages, loading flag, run table); its
    promise is fulfilled, not rejected.  With a thread id it goes ahead
    whatever the target id is, blank or not, and hands that id
    unchanged to the start call; its promise then settles as the
    [catch] block leaves it. *)
Theorem C2_only_the_thread_is_checked (env : Call -> Response)
  p clk agentId message w :
  if Js.truthy (AgentCall.threadId p)
  then
    fst (handoff env p clk agentId message w) = ending env p agentId message /\
    issued (snd (handoff env p clk agentId message w))
      = (issued w ++ expected_calls env p agentId message)%list /\
    opt_agent_id (AgentCall.agentOptions p agentId) = Some agentId
  else
    fst (handoff env p clk agentId message w) = Fulfilled tt /\
    issued (snd (handoff env p clk agentId message w)) = issued w /\
    runs (snd (handoff env p clk agentId message w)) = runs w /\
    store (snd (handoff env p clk agentId message w)) =
      mkStore (agentRunId (store w)) (selectedAgentId (store w))
              (agentStatus (store w)) (messages (store w)) (isLoading (store w))
              (Some "No thread ID available for agent call")
              (toasts (store w))
              (console_errors (store w)
                 ++ ["[AGENT_CALL] No thread ID available for agent call"]).
Proof.
  destruct (Js.truthy (AgentCall.threadId p)) eqn:Ht.
  - split; [now apply handoff_ending |].
    split; [now apply handoff_issued | apply agentOptions_agent_id].
  - rewrite (handoff_no_thread env p clk agentId message w Ht).
    fields. repeat split.
Qed.

(** C2 fails as stated: a target id of three spaces is not rejected; it
    is sent to the Run Controller as it is and becomes the selected
    agent. *)
Lemma C2_counterexample :
  Js.blank "   " = true /\
  issued (snd (handoff (always "R2") props_idle clock0 "   " None
                 (world_with empty_store [])))
  = [StartRun "t1" (mkOptions (Some "   ") None None None None)] /\
  agentRunId (store (snd (handoff (always "R2") props_idle clock0 "   " None
                 (world_with empty_store [])))) = Some "R2" /\
  selectedAgentId (store (snd (handoff (always "R2") props_idle clock0 "   " None
                 (world_with empty_store [])))) = Some "   " /\
  error (store (snd (handoff (always "R2") props_idle clock0 "   " None
                 (world_with empty_store [])))) = None /\
  issued (snd (handoff (always "R2") props_idle clock0 "" None
                 (world_with empty_store [])))
  = [StartRun "t1" (mkOptions (Some "") None None None None)].
Proof. repeat split. Qed.

(* ------------------------------------------------------------------ *)
(** *** Stop failure *)

(** C3 (as amended).  When the stop call for the running agent is
    rejected, the hand-off ends there: no start call is issued, loading
    ends, and run id, selected agent, status and messages are as
    before.  A reason other than [null] and [undefined] is logged and
    shown (error state, error toast) and the promise is fulfilled.  A
    [null] or [undefined] reason makes the [catch] block throw when it
    reads the message: nothing is logged or shown, the error state
    is left empty and the promise is rejected with that [TypeError]. *)
Theorem C3_stop_failure_aborts (env : Call -> Response) p clk agentId message w rid e :
  Js.truthy (AgentCall.threadId p) = true ->
  AgentCall.currentAgentRunId p = Some rid ->
  Js.truthy rid = true ->
  AgentCall.currentAgentStatus p = "running" ->
  env (StopRun rid) = Rejected e ->
  issued (snd (handoff env p clk agentId message w)) = (issued w ++ [StopRun rid])%list /\
  fst (handoff env p clk agentId message w)
    = (if Js.is_nullish e then Failed (Js.cannot_read e "message")
       else Fulfilled tt) /\
  store (snd (handoff env p clk agentId message w)) =
    if Js.is_nullish e
    then mkStore (agentRunId (store w)) (selectedAgentId (store w))
                 (agentStatus (store w)) (messages (store w)) false
                 None (toasts (store w)) (console_errors (store w))
    else mkStore (agentRunId (store w)) (selectedAgentId (store w))
                 (agentStatus (store w)) (messages (store w)) false
                 (Some (reported e))
                 (toasts (store w)
                  ++ [ToastError ("Failed to switch to agent: " ++ reported e)])
                 (console_errors (store w) ++ ["[AGENT_CALL] Error in agent call:"]).
Proof.
  intros Ht Hr Hrid Hs He.
  rewrite (handoff_runs env p clk agentId message w Ht), exec_attempt.
  rewrite (stop_step_running p rid Hr Hrid Hs). cbn [await_each]. rewrite He.
  cbn [finish]. destruct (Js.is_nullish e); cbn [fst snd]; fields; repeat split.
Qed.

(** Run [R1] is running and its stop call is rejected. *)
Lemma C3_stop_failure_aborts_witness :
  issued (snd (handoff stop_fails (props_R1 "running") clock0 "artist" None
                 (world_with (busy_store "R1" "running") [run_R1 st_running])))
  = [StopRun "R1"].
Proof.
  apply (@C3_stop_failure_aborts stop_fails (props_R1 "running") clock0 "artist"
           None (world_with (busy_store "R1" "running") [run_R1 st_running])
           "R1" network_down); reflexivity.
Defined.

(** C3 fails as stated: with run [R1] running and its stop call
    rejected, no start call follows. *)
Lemma C3_counterexample :
  stop_step (props_R1 "running") = [StopRun "R1"] /\
  stop_fails (StopRun "R1") = Rejected network_down /\
  existsb is_start
    (issued (snd (handoff stop_fails (props_R1 "running") clock0 "artist" None
                    (world_with (busy_store "R1" "running") [run_R1 st_running]))))
  = false /\
  error (store (snd (handoff stop_fails (props_R1 "running") clock0 "artist" None
                    (world_with (busy_store "R1" "running") [run_R1 st_running]))))
  = Some "Network Error".
Proof. repeat split. Qed.

(* ------------------------------------------------------------------ *)
(** *** Settings carried into the start call *)

Lemma exec_allSettled (env : Call -> Response) (c1 c2 : Call) (w : World) :
  exec env (Preview.allSettled c1 c2) w =
  (Fulfilled (env c1, env c2), settled env c2 (settled env c1 w)).
Proof. reflexivity. Qed.

(** A submission issues the save and the start with [finalOptions],
    however the two calls settle. *)
Lemma submit_issued (env : Call -> Response) c clk random text options w tid :
  Preview.threadId c = Some tid ->
  Js.truthy tid = true ->
  Js.blank text = false ->
  added (issued w) (issued (snd (submit env c clk random text options w)))
  = [AppendMessage tid text; StartRun tid (Preview.finalOptions c options)].
Proof.
  intros Hc Htid Hblank. unfold submit, Preview.handleSubmitMessage.
  rewrite Hc. unfold Preview.blank_input. rewrite Hblank, Htid. cbn [negb orb].
  rewrite exec_bind, exec_act, exec_try_catch, exec_bind, exec_allSettled.
  cbn [fst snd].
  destruct (env (AppendMessage tid text)) as [v1 | e1];
    [destruct (env (StartRun tid (Preview.finalOptions c options))) as [v2 | e2];
     [| destruct (Js.is_BillingError e2)] |];
    rewrite ?exec_bind, ?exec_act; cbn [exec]; rewrite ?exec_bind, ?exec_act;
    fields; rewrite <- app_assoc; apply added_app.
Qed.

(** C4.  A hand-off in which stop and save go through issues exactly
    one start call, and that call carries the target agent together
    with the model name, thinking flag and reasoning effort the hook was
    given; after the settings were updated to "thinking on, effort
    high" the start call carries exactly these.  Where a per-call
    override exists (a message submission), the override is what the
    start call carries: the thinking flag, the model name and a
    non-empty reasoning effort given with the call replace the page's;
    a thinking flag or reasoning effort the call leaves out (or an
    empty reasoning effort) is taken from the page. *)
Theorem C4_settings_carried (env : Call -> Response) p clk agentId message w
  (s0 : ModelSettings)
  (c : Preview.Captured) (random text tid : string)
  (mn re : option string) (et cm : option bool) (m r : string) (b : bool) :
  Js.truthy (AgentCall.threadId p) = true ->
  fulfilled env (stop_step p) = true ->
  fulfilled env (append_step p message) = true ->
  Preview.threadId c = Some tid ->
  Js.truthy tid = true ->
  Js.blank text = false ->
  Js.truthy r = true ->
  filter is_start (added (issued w) (issued (snd (handoff env p clk agentId message w))))
  = [StartRun (AgentCall.threadId p)
       (mkOptions (Some agentId) (setting model_name p)
          (setting enable_thinking p) (setting reasoning_effort p) None)] /\
  filter is_start
    (added (issued w)
       (issued (snd (handoff env (with_settings p (Some (updateSettings think_hard s0)))
                       clk agentId message w))))
  = [StartRun (AgentCall.threadId p)
       (mkOptions (Some agentId) (model_name s0) (Some true) (Some "high") None)] /\
  filter is_start
    (added (issued w)
       (issued (snd (submit env c clk random text
                       (Some (Preview.mkSubmit (Some m) (Some b) (Some r) cm)) w))))
  = [StartRun tid (mkOptions (Some (Preview.agent_agent_id c)) (Some m) (Some b)
                     (Some r) cm)] /\
  opt_enable_thinking
    (Preview.finalOptions c (Some (Preview.mkSubmit mn (Some b) re cm))) = Some b /\
  opt_reasoning_effort
    (Preview.finalOptions c (Some (Preview.mkSubmit mn et (Some r) cm))) = Some r /\
  opt_model_name
    (Preview.finalOptions c (Some (Preview.mkSubmit (Some m) et re cm))) = Some m /\
  opt_enable_thinking
    (Preview.finalOptions c (Some (Preview.mkSubmit mn None re cm)))
    = Some (Preview.thinkingEnabled c) /\
  opt_reasoning_effort
    (Preview.finalOptions c (Some (Preview.mkSubmit mn et None cm)))
    = Some (Preview.reasoningEffort c) /\
  opt_reasoning_effort
    (Preview.finalOptions c (Some (Preview.mkSubmit mn et (Some "") cm)))
    = Some (Preview.reasoningEffort c) /\
  Preview.finalOptions c None
  = mkOptions (Some (Preview.agent_agent_id c)) None
      (Some (Preview.thinkingEnabled c)) (Some (Preview.reasoningEffort c)) None.
Proof.
  intros Ht Hstop Happ Hc Htid Hblank Hr.
  split; [now apply handoff_start_call |].
  split.
  { rewrite (handoff_start_call env
               (with_settings p (Some (updateSettings think_hard s0)))
               clk agentId message w Ht Hstop Happ).
    unfold setting, with_settings, updateSettings, think_hard. reflexivity. }
  split.
  { rewrite (submit_issued env c clk random text _ w tid Hc Htid Hblank).
    cbn [filter is_start]. unfold Preview.finalOptions, Js.or_else.
    cbn [Preview.sub_model_name Preview.sub_enable_thinking
           Preview.sub_reasoning_effort Preview.sub_enable_context_manager].
    now rewrite Hr. }
  unfold Preview.finalOptions, Js.or_else. cbn. rewrite Hr.
  destruct (Js.truthy (Preview.reasoningEffort c)); repeat split.
Qed.

(** Settings updated to thinking on and effort high, then a hand-off to agent-B. *)
Lemma C4_settings_carried_witness :
  filter is_start
    (added []
       (issued (snd (handoff (always "R2")
                       (with_settings (props_R1 "running")
                          (Some (updateSettings think_hard
                                   (mkSettings (Some "gemini") None (Some "low")))))
                       clock0 "agent-B" None
                       (world_with (busy_store "R1" "running") [run_R1 st_running])))))
  = [StartRun "t1" (mkOptions (Some "agent-B") (Some "gemini") (Some true)
                      (Some "high") None)].
Proof.
  apply (C4_settings_carried (always "R2") (props_R1 "running") clock0 "agent-B"
           None (world_with (busy_store "R1" "running") [run_R1 st_running])
           (mkSettings (Some "gemini") None (Some "low"))
           (Preview.mkCaptured (Some "t1") "writer" false "low")
           "0.5" "hello" "t1" None None None None "gemini" "medium" true);
    reflexivity.
Defined.

(* ------------------------------------------------------------------ *)
(** *** Persistence failure *)

(** C5 (as amended).  When saving the hand-off message is rejected, the
    message appended optimistically stays in the local sequence and the
    hand-off ends there: no start call is issued, loading ends, and run
    id and selected agent are as before.  A reason other than [null]
    and [undefined] is logged and shown (error state, error toast) and
    the promise is fulfilled.  A [null] or [undefined] reason makes the
    [catch] block throw when it reads the message: nothing is logged or
    shown, the error state is left empty and the promise is rejected with
    that [TypeError]. *)
Theorem C5_append_failure_aborts (env : Call -> Response) p clk agentId m w e :
  Js.truthy (AgentCall.threadId p) = true ->
  Js.truthy m = true ->
  fulfilled env (stop_step p) = true ->
  env (AppendMessage (AgentCall.threadId p) m) = Rejected e ->
  issued (snd (handoff env p clk agentId (Some m) w))
    = (issued w ++ stop_step p ++ [AppendMessage (AgentCall.threadId p) m])%list /\
  fst (handoff env p clk agentId (Some m) w)
    = (if Js.is_nullish e then Failed (Js.cannot_read e "message")
       else Fulfilled tt) /\
  store (snd (handoff env p clk agentId (Some m) w)) =
    if Js.is_nullish e
    then mkStore (agentRunId (store w)) (selectedAgentId (store w))
                 (agentStatus (store w))
                 (messages (store w) ++ [AgentCall.handoffMessage p clk m]) false
                 None (toasts (store w)) (console_errors (store w))
    else mkStore (agentRunId (store w)) (selectedAgentId (store w))
                 (agentStatus (store w))
                 (messages (store w) ++ [AgentCall.handoffMessage p clk m]) false
                 (Some (reported e))
                 (toasts (store w)
                  ++ [ToastError ("Failed to switch to agent: " ++ reported e)])
                 (console_errors (store w) ++ ["[AGENT_CALL] Error in agent call:"]).
Proof.
  intros Ht Hm Hstop He.
  rewrite (handoff_runs env p clk agentId (Some m) w Ht), exec_attempt.
  rewrite (await_each_fulfilled env (stop_step p) (entered w) Hstop).
  unfold append_step, optimistic. rewrite Hm. cbn [await_each]. rewrite He.
  cbn [finish]. destruct (Js.is_nullish e); cbn [fst snd];
    rewrite issue_world; fields; rewrite <- app_assoc; repeat split.
Qed.

(** The save of the hand-off message is rejected after a fulfilled stop. *)
Lemma C5_append_failure_aborts_witness :
  messages (store (snd (handoff append_fails (props_R1 "running") clock0 "artist"
                          (Some please_draw)
                          (world_with (busy_store "R1" "running") [run_R1 st_running]))))
  = [AgentCall.handoffMessage (props_R1 "running") clock0 please_draw].
Proof.
  pose proof (@C5_append_failure_aborts append_fails (props_R1 "running") clock0
                "artist" please_draw
                (world_with (busy_store "R1" "running") [run_R1 st_running])
                network_down eq_refl eq_refl eq_refl eq_refl) as H.
  destruct H as (_ & _ & H). rewrite H. reflexivity.
Defined.

(** C5 fails as stated: the optimistic message stays, but after the
    rejected save no start call is issued. *)
Lemma C5_counterexample :
  append_fails (AppendMessage "t1" please_draw) = Rejected network_down /\
  issued (snd (handoff append_fails (props_R1 "running") clock0 "artist"
                 (Some please_draw)
                 (world_with (busy_store "R1" "running") [run_R1 st_running])))
  = [StopRun "R1"; AppendMessage "t1" please_draw] /\
  existsb is_start
    (issued (snd (handoff append_fails (props_R1 "running") clock0 "artist"
                    (Some please_draw)
                    (world_with (busy_store "R1" "running") [run_R1 st_running]))))
  = false /\
  agentRunId (store (snd (handoff append_fails (props_R1 "running") clock0 "artist"
                    (Some please_draw)
                    (world_with (busy_store "R1" "running") [run_R1 st_running]))))
  = Some "R1".
Proof. repeat split. Qed.

(* ------------------------------------------------------------------ *)
(** *** Start failure *)

(** C6 (as amended).  When the start call is rejected, exactly one
    start call was issued (no retry), loading ends, and run id and
    selected agent are left as they were before the hand-off.  A reason
    other than [null] and [undefined] is logged and shown (error state,
    error toast "Failed to switch to agent: ...") and the promise is
    fulfilled.  A [null] or [undefined] reason makes the [catch] block
    throw when it reads the message: no toast is shown, the error state
    is left empty and the promise is rejected with that [TypeError]. *)
Theorem C6_start_failure (env : Call -> Response) p clk agentId message w e :
  Js.truthy (AgentCall.threadId p) = true ->
  fulfilled env (stop_step p) = true ->
  fulfilled env (append_step p message) = true ->
  env (start_step p agentId) = Rejected e ->
  issued (snd (handoff env p clk agentId message w))
    = (issued w ++ stop_step p ++ append_step p message ++ [start_step p agentId])%list /\
  agentRunId (store (snd (handoff env p clk agentId message w))) = agentRunId (store w) /\
  selectedAgentId (store (snd (handoff env p clk agentId message w)))
    = selectedAgentId (store w) /\
  isLoading (store (snd (handoff env p clk agentId message w))) = false /\
  fst (handoff env p clk agentId message w)
    = (if Js.is_nullish e then Failed (Js.cannot_read e "message")
       else Fulfilled tt) /\
  error (store (snd (handoff env p clk agentId message w)))
    = (if Js.is_nullish e then None else Some (reported e)) /\
  toasts (store (snd (handoff env p clk agentId message w)))
    = (if Js.is_nullish e then toasts (store w)
       else toasts (store w)
            ++ [ToastError ("Failed to switch to agent: " ++ reported e)])%list.
Proof.
  intros Ht Hstop Happ He.
  rewrite (handoff_runs env p clk agentId message w Ht), exec_attempt.
  rewrite (await_each_fulfilled env (stop_step p) (entered w) Hstop).
  rewrite (await_each_fulfilled env (append_step p message) _ Happ).
  rewrite He. cbn [finish].
  destruct (Js.is_nullish e); cbn [fst snd]; rewrite !issue_world; fields;
    rewrite <- !app_assoc;
    unfold optimistic; (destruct message as [m |]; [destruct (Js.truthy m) |]);
    repeat split.
Qed.

(** The start call is rejected after a fulfilled stop. *)
Lemma C6_start_failure_witness :
  agentRunId (store (snd (handoff start_fails (props_R1 "running") clock0 "artist" None
                            (world_with (busy_store "R1" "running") [run_R1 st_running]))))
  = Some "R1".
Proof.
  apply (@C6_start_failure start_fails (props_R1 "running") clock0 "artist" None
           (world_with (busy_store "R1" "running") [run_R1 st_running])
           network_down); reflexivity.
Defined.

(** C6 fails as stated: the run id is not unset by a failed start; it
    still names the run that was stopped. *)
Lemma C6_counterexample :
  start_fails (start_step (props_R1 "running") "artist") = Rejected network_down /\
  issued (snd (handoff start_fails (props_R1 "running") clock0 "artist" None
                 (world_with (busy_store "R1" "running") [run_R1 st_running])))
  = [StopRun "R1"; start_step (props_R1 "running") "artist"] /\
  agentRunId (store (snd (handoff start_fails (props_R1 "running") clock0 "artist" None
                 (world_with (busy_store "R1" "running") [run_R1 st_running]))))
  <> None.
Proof. repeat split. discriminate. Qed.

(** A start call rejected with [null]: the [catch] block throws, so the
    promise is rejected, nothing is shown and no error is set, while
    loading ends and the run id stays. *)
Lemma start_rejected_with_null :
  handoff start_fails_null (props_R1 "running") clock0 "artist" None
    (world_with (busy_store "R1" "running") [run_R1 st_running])
  = (Failed (Js.cannot_read (Js.Nullish false) "message"),
     mkWorld (mkStore (Some "R1") (Some "writer") "running" [] false None [] [])
             [run_R1 st_stopped]
             [StopRun "R1"; start_step (props_R1 "running") "artist"]
             [[run_R1 st_stopped]; [run_R1 st_stopped]]).
Proof. reflexivity. Qed.

(* ------------------------------------------------------------------ *)
(** *** Stop before start *)

(** C7 (as amended).  When the hand-off is requested while the active
    run is reported as "running", the stop call for that run is the
    first call issued, ahead of the start call, and it is issued once. *)
Theorem C7_stop_before_start (env : Call -> Response) p clk agentId message w rid :
  Js.truthy (AgentCall.threadId p) = true ->
  AgentCall.currentAgentRunId p = Some rid ->
  Js.truthy rid = true ->
  AgentCall.currentAgentStatus p = "running" ->
  exists rest,
    issued (snd (handoff env p clk agentId message w))
    = (issued w ++ StopRun rid :: rest)%list /\
    existsb is_stop rest = false.
Proof.
  intros Ht Hr Hrid Hs.
  rewrite (handoff_issued env p clk agentId message w Ht).
  unfold expected_calls. rewrite (stop_step_running p rid Hr Hrid Hs).
  eexists. split; [reflexivity |].
  destruct (fulfilled env [StopRun rid]); [| reflexivity].
  rewrite existsb_app, append_step_no_stop.
  destruct (fulfilled env (append_step p message)); reflexivity.
Qed.

(** Run [R1] is running and every call is fulfilled. *)
Lemma C7_stop_before_start_witness :
  exists rest,
    issued (snd (handoff (always "R2") (props_R1 "running") clock0 "artist"
                   (Some please_draw)
                   (world_with (busy_store "R1" "running") [run_R1 st_running])))
    = ([] ++ StopRun "R1" :: rest)%list /\
    existsb is_stop rest = false.
Proof.
  apply (@C7_stop_before_start (always "R2") (props_R1 "running") clock0 "artist"
           (Some please_draw)
           (world_with (busy_store "R1" "running") [run_R1 st_running]) "R1");
    reflexivity.
Defined.

(** C7 fails as stated: an active run whose status is "starting" (or
    the page's "connecting") is not stopped; the start call is the only
    call. *)
Lemma C7_counterexample :
  issued (snd (handoff (always "R2") (props_R1 "starting") clock0 "artist" None
                 (world_with (busy_store "R1" "starting") [run_R1 st_starting])))
  = [start_step (props_R1 "starting") "artist"] /\
  issued (snd (handoff (always "R2") (props_R1 "connecting") clock0 "artist" None
                 (world_with (busy_store "R1" "connecting") [run_R1 st_starting])))
  = [start_step (props_R1 "connecting") "artist"] /\
  existsb is_stop
    (issued (snd (handoff (always "R2") (props_R1 "starting") clock0 "artist" None
                    (world_with (busy_store "R1" "starting") [run_R1 st_starting]))))
  = false.
Proof. repeat split. Qed.

(* ------------------------------------------------------------------ *)
(** *** Stop requested by the user *)

Lemma status_change_run_id (st : string) (s : Store) :
  agentRunId (Preview.handleStreamStatusChange st s)
  = if terminal st then None else agentRunId s.
Proof.
  unfold Preview.handleStreamStatusChange, terminal.
  destruct ((st =? "idle") || (st =? "completed") || (st =? "stopped")
            || (st =? "agent_not_running") || (st =? "error") || (st =? "failed"));
    [reflexivity |].
  destruct (st =? "connecting"); [reflexivity |].
  destruct (st =? "streaming"); reflexivity.
Qed.






(* ------------------------------------------------------------------ *)
(** *** Two hand-offs in flight *)

(** The continuation of a hand-off at its start call. *)
Ltac run_async :=
  cbv [AgentCall.handleAgentCall AgentCall.attempt AgentCall.stop_current
       AgentCall.add_handoff_message AgentCall.start_target AgentCall.recover
       message_of Js.is_nullish
       settle drive resume bind try_catch try_finally act await negb is_start
       waiting_for fst snd].

(** A hand-off on a conversation begins whatever the loading flag says:
    it raises the flag, clears the error and waits for its first call. *)
Lemma handoff_begins (p : AgentCall.Props) clk agentId message (s : Store) :
  Js.truthy (AgentCall.threadId p) = true ->
  waiting_for (fst (settle (AgentCall.handleAgentCall p clk agentId message) s))
    = Some (first_call p agentId message) /\
  isLoading (snd (settle (AgentCall.handleAgentCall p clk agentId message) s)) = true /\
  error (snd (settle (AgentCall.handleAgentCall p clk agentId message) s)) = None.
Proof.
  intros Ht. unfold first_call, stop_step, append_step, start_step.
  unfold AgentCall.handleAgentCall. rewrite Ht. cbn [negb].
  unfold AgentCall.attempt, AgentCall.stop_current, AgentCall.add_handoff_message.
  destruct (AgentCall.currentAgentRunId p) as [rid |];
    [destruct (Js.truthy rid && (AgentCall.currentAgentStatus p =? "running")) |];
    (destruct message as [m |]; [destruct (Js.truthy m) |]);
    run_async; fields; repeat split.
Qed.

(** Once a hand-off waits for its start call, the fulfilment of that
    call completes it, in whatever store it arrives. *)
Lemma handoff_completes (env : Call -> Response) p clk agentId message s rid s' :
  waiting_for (fst (drive env (AgentCall.handleAgentCall p clk agentId message) s))
    = Some (start_step p agentId) ->
  resume (fst (drive env (AgentCall.handleAgentCall p clk agentId message) s))
         (Resolved rid) s'
  = (Done (Fulfilled tt),
     setIsLoading false
       (toast (ToastSuccess "Successfully switched to agent")
          (setSelectedAgentId agentId (setAgentRunId (Some rid) s')))).
Proof.
  unfold AgentCall.handleAgentCall.
  destruct (Js.truthy (AgentCall.threadId p)); cbn [negb];
    [| run_async; discriminate].
  unfold AgentCall.attempt, AgentCall.stop_current, AgentCall.add_handoff_message.
  destruct (AgentCall.currentAgentRunId p) as [r0 |];
    [destruct (Js.truthy r0 && (AgentCall.currentAgentStatus p =? "running"));
     [destruct (env (StopRun r0)) as [v0 | [u0 | m0 t0 i0 b0]] eqn:E0 |] |];
    (destruct message as [m |];
     [destruct (Js.truthy m);
      [destruct (env (AppendMessage (AgentCall.threadId p) m))
         as [v1 | [u1 | m1 t1 i1 b1]] eqn:E1 |] |]);
    run_async; rewrite ?E0; run_async; rewrite ?E1; run_async;
    try discriminate; reflexivity.
Qed.

(** While a hand-off waits for its start call its loading flag is up. *)
Lemma handoff_waits (env : Call -> Response) p clk agentId message s :
  waiting_for (fst (drive env (AgentCall.handleAgentCall p clk agentId message) s))
    = Some (start_step p agentId) ->
  isLoading (snd (drive env (AgentCall.handleAgentCall p clk agentId message) s))
    = true.
Proof.
  unfold AgentCall.handleAgentCall.
  destruct (Js.truthy (AgentCall.threadId p)); cbn [negb];
    [| run_async; discriminate].
  unfold AgentCall.attempt, AgentCall.stop_current, AgentCall.add_handoff_message.
  destruct (AgentCall.currentAgentRunId p) as [r0 |];
    [destruct (Js.truthy r0 && (AgentCall.currentAgentStatus p =? "running"));
     [destruct (env (StopRun r0)) as [v0 | [u0 | m0 t0 i0 b0]] eqn:E0 |] |];
    (destruct message as [m |];
     [destruct (Js.truthy m);
      [destruct (env (AppendMessage (AgentCall.threadId p) m))
         as [v1 | [u1 | m1 t1 i1 b1]] eqn:E1 |] |]);
    run_async; rewrite ?E0; run_async; rewrite ?E1; run_async;
    try discriminate; intros _; fields; reflexivity.
Qed.

(** C9 (as amended).  A second hand-off issued while the first one
    waits for its start call is not rejected: the hook has no
    hand-off-in-progress condition and never reads its loading flag.
    The second hand-off begins like any other, raises the loading flag
    (which the first had raised already), clears the error and waits
    for its own first call; the first still completes normally when its
    start call is fulfilled. *)
Theorem C9_second_handoff_not_rejected (env : Call -> Response)
  p1 clk1 a1 m1 p2 clk2 a2 m2 s rid1 :
  waiting_for (fst (drive env (AgentCall.handleAgentCall p1 clk1 a1 m1) s))
    = Some (start_step p1 a1) ->
  Js.truthy (AgentCall.threadId p2) = true ->
  waiting_for
    (fst (settle (AgentCall.handleAgentCall p2 clk2 a2 m2)
            (snd (drive env (AgentCall.handleAgentCall p1 clk1 a1 m1) s))))
    = Some (first_call p2 a2 m2) /\
  isLoading (snd (drive env (AgentCall.handleAgentCall p1 clk1 a1 m1) s)) = true /\
  isLoading
    (snd (settle (AgentCall.handleAgentCall p2 clk2 a2 m2)
            (snd (drive env (AgentCall.handleAgentCall p1 clk1 a1 m1) s))))
    = true /\
  error
    (snd (settle (AgentCall.handleAgentCall p2 clk2 a2 m2)
            (snd (drive env (AgentCall.handleAgentCall p1 clk1 a1 m1) s))))
    = None /\
  fst (resume (fst (drive env (AgentCall.handleAgentCall p1 clk1 a1 m1) s))
         (Resolved rid1)
         (snd (settle (AgentCall.handleAgentCall p2 clk2 a2 m2)
                 (snd (drive env (AgentCall.handleAgentCall p1 clk1 a1 m1) s)))))
    = Done (Fulfilled tt) /\
  agentRunId
    (snd (resume (fst (drive env (AgentCall.handleAgentCall p1 clk1 a1 m1) s))
            (Resolved rid1)
            (snd (settle (AgentCall.handleAgentCall p2 clk2 a2 m2)
                    (snd (drive env (AgentCall.handleAgentCall p1 clk1 a1 m1) s))))))
    = Some rid1 /\
  selectedAgentId
    (snd (resume (fst (drive env (AgentCall.handleAgentCall p1 clk1 a1 m1) s))
            (Resolved rid1)
            (snd (settle (AgentCall.handleAgentCall p2 clk2 a2 m2)
                    (snd (drive env (AgentCall.handleAgentCall p1 clk1 a1 m1) s))))))
    = Some a1 /\
  error
    (snd (resume (fst (drive env (AgentCall.handleAgentCall p1 clk1 a1 m1) s))
            (Resolved rid1)
            (snd (settle (AgentCall.handleAgentCall p2 clk2 a2 m2)
                    (snd (drive env (AgentCall.handleAgentCall p1 clk1 a1 m1) s))))))
    = None.
Proof.
  intros Hfirst Ht2.
  destruct (handoff_begins p2 clk2 a2 m2
              (snd (drive env (AgentCall.handleAgentCall p1 clk1 a1 m1) s)) Ht2)
    as (Hwait & Hload & Herr).
  rewrite (handoff_completes env p1 clk1 a1 m1 s rid1 _ Hfirst).
  pose proof (handoff_waits env p1 clk1 a1 m1 s Hfirst) as Hload1.
  revert Hwait Hload Herr.
  generalize (settle (AgentCall.handleAgentCall p2 clk2 a2 m2)
                (snd (drive env (AgentCall.handleAgentCall p1 clk1 a1 m1) s))).
  intros [second s2] Hwait Hload Herr. cbn [fst snd] in *.
  split; [exact Hwait |]. split; [exact Hload1 |]. split; [exact Hload |].
  split; [exact Herr |]. fields. repeat split; assumption.
Qed.

(** A hand-off to agent-C is issued while the one to agent-B waits for its start call. *)
Lemma C9_second_handoff_not_rejected_witness :
  waiting_for
    (fst (settle (AgentCall.handleAgentCall props_idle clock0 "agent-C" None)
            (snd (drive (always "R2")
                    (AgentCall.handleAgentCall props_idle clock0 "agent-B" None)
                    empty_store))))
  = Some (first_call props_idle "agent-C" None).
Proof.
  apply (C9_second_handoff_not_rejected (always "R2")
           props_idle clock0 "agent-B" None
           props_idle clock0 "agent-C" None empty_store "R2");
    reflexivity.
Defined.

(** C9 fails as stated: while the first hand-off (to agent-B) waits for
    its start call with the loading flag up, a second hand-off (to
    agent-C) is not turned away; it sends its own start call.  Both
    complete, and the run id is the one that settled last. *)
Lemma C9_counterexample :
  waiting_for
    (fst (settle (AgentCall.handleAgentCall props_idle clock0 "agent-B" None)
            empty_store))
  = Some (start_step props_idle "agent-B") /\
  isLoading
    (snd (settle (AgentCall.handleAgentCall props_idle clock0 "agent-B" None)
            empty_store)) = true /\
  waiting_for
    (fst (settle (AgentCall.handleAgentCall props_idle clock0 "agent-C" None)
            (snd (settle (AgentCall.handleAgentCall props_idle clock0 "agent-B" None)
                    empty_store))))
  = Some (start_step props_idle "agent-C") /\
  error
    (snd (settle (AgentCall.handleAgentCall props_idle clock0 "agent-C" None)
            (snd (settle (AgentCall.handleAgentCall props_idle clock0 "agent-B" None)
                    empty_store))))
  = None /\
  agentRunId
    (snd (resume
            (fst (settle (AgentCall.handleAgentCall props_idle clock0 "agent-C" None)
                    empty_store))
            (Resolved "R3")
            (snd (resume
                    (fst (settle (AgentCall.handleAgentCall props_idle clock0
                                    "agent-B" None) empty_store))
                    (Resolved "R2")
                    (snd (settle (AgentCall.handleAgentCall props_idle clock0
                                    "agent-C" None)
                            (snd (settle (AgentCall.handleAgentCall props_idle clock0
                                            "agent-B" None) empty_store))))))))
  = Some "R3".
Proof. repeat split. Qed.

(* ================================================================== *)
(** ** The asset-generation result view *)
(* ================================================================== *)

Lemma prefix_occurs (sub s : string) :
  String.prefix sub s = true <-> exists after, s = sub ++ after.
Proof.
  revert s. induction sub as [| a sub IH]; intros s.
  - split; [intros _; now exists s | intros _; destruct s; reflexivity].
  - destruct s as [| b s]; cbn.
    + split; [discriminate | intros [after H]; discriminate].
    + destruct (Ascii.ascii_dec a b) as [-> | Hne].
      * rewrite IH. split; intros [after H]; exists after; congruence.
      * split; [discriminate | intros [after H]; congruence].
Qed.

(** [includes] finds exactly the substrings. *)
Lemma includes_occurs (sub s : string) :
  Js.includes sub s = true <-> occurs_in sub s.
Proof.
  unfold occurs_in. split.
  - induction s as [| c s IH]; cbn [Js.includes]; rewrite orb_true_iff;
      intros [H | H].
    + apply prefix_occurs in H as [after ->]. now exists "", after.
    + discriminate.
    + apply prefix_occurs in H as [after H]. exists "", after. exact H.
    + destruct (IH H) as (before & after & ->).
      now exists (String c before), after.
  - intros (before & after & ->).
    induction before as [| c before IH].
    + cbn [append]. destruct (sub ++ after) eqn:E; cbn [Js.includes];
        rewrite orb_true_iff; left; apply prefix_occurs; exists after;
        now rewrite E.
    + cbn [append Js.includes]. rewrite IH. apply orb_true_r.
Qed.

(** C10.  In [parseToolResult] the error test comes first: whenever the
    content is truthy and its text contains "Error:" or "error"
    anywhere, the result is the failure result (the text as error
    message, no images, no other flag), whatever else the text holds. *)
Theorem C10_error_first (Obj : Type) (JSON_stringify : Obj -> string)
  (c : AssetView.Content Obj) :
  AssetView.truthy c = true ->
  occurs_in "Error:" (AssetView.contentStr JSON_stringify c) \/
  occurs_in "error" (AssetView.contentStr JSON_stringify c) ->
  AssetView.parseToolResult JSON_stringify c
  = AssetView.mkResult false false false false [] None
      (Some (AssetView.contentStr JSON_stringify c)).
Proof.
  intros Htruthy Herr. unfold AssetView.parseToolResult. rewrite Htruthy.
  cbn [negb].
  assert (H : Js.includes "Error:" (AssetView.contentStr JSON_stringify c)
              || Js.includes "error" (AssetView.contentStr JSON_stringify c) = true).
  { apply orb_true_iff. destruct Herr as [H | H]; [left | right];
      now apply includes_occurs. }
  cbv zeta. now rewrite H.
Qed.

(** An image result whose url contains the word "error". *)
Lemma C10_error_first_witness :
  AssetView.parseToolResult (fun _ : unit => "{}") (AssetView.CString mixed_result)
  = AssetView.mkResult false false false false [] None (Some mixed_result).
Proof.
  apply (C10_error_first unit (fun _ => "{}") (AssetView.CString mixed_result)).
  - reflexivity.
  - right.
    exists "Image Generated Successfully! [View Image](https://cdn.example.com/",
           ".png)".
    reflexivity.
Defined.

(** Without the word "error" the same text is an image result. *)
Example parse_clean_result :
  AssetView.parseToolResult (fun _ : unit => "{}") (AssetView.CString clean_result)
  = AssetView.mkResult false true false true ["https://cdn.example.com/a.png"]
      None None.
Proof. reflexivity. Qed.

(* ================================================================== *)
(** ** Further properties of the hand-off hook *)
(* ================================================================== *)

(** Every case a hand-off on a conversation can end in. *)
Ltac handoff_cases env p message :=
  rewrite exec_attempt; unfold append_step, optimistic;
  destruct (stop_step_cases p) as [-> | (?rid & -> & _)];
  (let m := fresh "m" in
   destruct message as [m |]; [destruct (Js.truthy m) eqn:?Hm |]);
  rewrite ?await_one; cbn [await_each fulfilled forallb];
  repeat match goal with
         | |- context [match env ?c with _ => _ end] =>
             let E := fresh "E" in destruct (env c) eqn:E
         end;
  cbn [finish fst snd andb app first_rejection]; reasons;
  cbn [fst snd andb app].

(** X1.  However its calls settle, a hand-off on a conversation ends
    with the loading flag down.  Its promise is rejected only when a
    call was rejected with [null] or [undefined] (the [catch] block
    then throws); nothing is shown and no error is set in that case.
    Otherwise the promise is fulfilled and there is exactly one new
    toast, which agrees with the error state: the success toast when no
    error is set, otherwise the error toast with the text of the error
    state. *)
Theorem handoff_closes (env : Call -> Response) p clk agentId message w :
  Js.truthy (AgentCall.threadId p) = true ->
  isLoading (store (snd (handoff env p clk agentId message w))) = false /\
  fst (handoff env p clk agentId message w) = ending env p agentId message /\
  match fst (handoff env p clk agentId message w) with
  | Fulfilled _ =>
      toasts (store (snd (handoff env p clk agentId message w)))
      = (toasts (store w)
         ++ [closing_toast
               (error (store (snd (handoff env p clk agentId message w))))])%list
  | Failed _ =>
      toasts (store (snd (handoff env p clk agentId message w))) = toasts (store w) /\
      error (store (snd (handoff env p clk agentId message w))) = None
  end.
Proof.
  intros Ht. rewrite <- (handoff_ending env p clk agentId message w Ht).
  rewrite (handoff_runs env p clk agentId message w Ht).
  handoff_cases env p message; fields; repeat split.
Qed.

(** A hand-off whose start call is rejected after a fulfilled stop. *)
Lemma handoff_closes_witness :
  toasts (store (snd (handoff start_fails (props_R1 "running") clock0 "artist" None
                        (world_with (busy_store "R1" "running") [run_R1 st_running]))))
  = [ToastError "Failed to switch to agent: Network Error"].
Proof.
  apply (handoff_closes start_fails (props_R1 "running") clock0 "artist" None
           (world_with (busy_store "R1" "running") [run_R1 st_running])).
  reflexivity.
Defined.

(** X2.  A hand-off on a conversation succeeds (its promise is
    fulfilled and the error state is empty at the end) exactly when
    every call it issued was fulfilled. *)
Theorem handoff_success_iff_all_fulfilled (env : Call -> Response) p clk agentId message w :
  Js.truthy (AgentCall.threadId p) = true ->
  fst (handoff env p clk agentId message w) = Fulfilled tt /\
  error (store (snd (handoff env p clk agentId message w))) = None <->
  fulfilled env (added (issued w) (issued (snd (handoff env p clk agentId message w))))
  = true.
Proof.
  intros Ht. rewrite (handoff_issued env p clk agentId message w Ht), added_app.
  rewrite (handoff_runs env p clk agentId message w Ht).
  unfold expected_calls.
  handoff_cases env p message; fields;
    cbn [fulfilled forallb app]; rewrite ?E, ?E0, ?E1; cbn [andb];
    (split; [intros [Ho H] | intros H; split]);
    try reflexivity; try discriminate Ho; discriminate H.
Qed.

(** A hand-off in which every call is fulfilled. *)
Lemma handoff_success_iff_all_fulfilled_witness :
  fst (handoff (always "R2") (props_R1 "running") clock0 "artist"
         (Some please_draw)
         (world_with (busy_store "R1" "running") [run_R1 st_running]))
  = Fulfilled tt /\
  error (store (snd (handoff (always "R2") (props_R1 "running") clock0 "artist"
                       (Some please_draw)
                       (world_with (busy_store "R1" "running") [run_R1 st_running]))))
  = None.
Proof.
  apply (handoff_success_iff_all_fulfilled (always "R2") (props_R1 "running") clock0
           "artist" (Some please_draw)
           (world_with (busy_store "R1" "running") [run_R1 st_running]));
    reflexivity.
Defined.

(** X3.  A hand-off that ends with an error set, for whatever reason
    (no conversation, or a rejected stop, save or start), leaves run id,
    selected agent and page status exactly as they were. *)
Theorem failed_handoff_keeps_the_run (env : Call -> Response) p clk agentId message w :
  error (store (snd (handoff env p clk agentId message w))) <> None ->
  agentRunId (store (snd (handoff env p clk agentId message w))) = agentRunId (store w) /\
  selectedAgentId (store (snd (handoff env p clk agentId message w)))
    = selectedAgentId (store w) /\
  agentStatus (store (snd (handoff env p clk agentId message w)))
    = agentStatus (store w).
Proof.
  destruct (Js.truthy (AgentCall.threadId p)) eqn:Ht.
  - rewrite (handoff_runs env p clk agentId message w Ht).
    handoff_cases env p message; fields; intros H; repeat split;
      exfalso; apply H; reflexivity.
  - rewrite (handoff_no_thread env p clk agentId message w Ht). fields.
    intros _. repeat split.
Qed.

(** The save of the hand-off message is rejected. *)
Lemma failed_handoff_keeps_the_run_witness :
  agentRunId (store (snd (handoff append_fails (props_R1 "running") clock0 "artist"
                            (Some please_draw)
                            (world_with (busy_store "R1" "running")
                               [run_R1 st_running]))))
  = Some "R1".
Proof.
  apply (failed_handoff_keeps_the_run append_fails (props_R1 "running") clock0
           "artist" (Some please_draw)
           (world_with (busy_store "R1" "running") [run_R1 st_running])).
  discriminate.
Defined.

(** X4.  A hand-off never alters or removes a message.  The local
    sequence grows by the hand-off message alone, put at the end as a
    user message, and only when there is a conversation, the message is
    not empty and the stop (if one was due) went through; whether the
    save or the start then fail makes no difference. *)
Theorem handoff_message_order (env : Call -> Response) p clk agentId message w :
  messages (store (snd (handoff env p clk agentId message w)))
  = (messages (store w)
     ++ (if Js.truthy (AgentCall.threadId p) && fulfilled env (stop_step p)
         then handoff_messages p clk message else []))%list /\
  Forall (fun m => type m = "user" /\ is_llm_message m = false /\
                   Some (content m) = message /\
                   thread_id m = AgentCall.threadId p)
         (handoff_messages p clk message).
Proof.
  split.
  - destruct (Js.truthy (AgentCall.threadId p)) eqn:Ht.
    + rewrite (handoff_runs env p clk agentId message w Ht).
      unfold handoff_messages.
      handoff_cases env p message; fields;
        cbn [fulfilled forallb]; rewrite ?E, ?E0, ?E1; cbn [andb];
        rewrite ?app_nil_r; reflexivity.
    + rewrite (handoff_no_thread env p clk agentId message w Ht). fields.
      cbn [andb]. now rewrite app_nil_r.
  - unfold handoff_messages. destruct message as [m |]; [| constructor].
    destruct (Js.truthy m); repeat constructor.
Qed.

(** X5.  The calls of a hand-off are always an initial part of the plan
    stop, save, start, and at least one call is issued.  A call is
    issued only after the calls before it in the plan were issued and
    fulfilled, and the hand-off stops short of the plan only at a
    rejected call; so there are never more than three calls and never a
    second start. *)
Theorem handoff_calls_follow_the_plan (env : Call -> Response) p clk agentId message w :
  Js.truthy (AgentCall.threadId p) = true ->
  exists n,
    added (issued w) (issued (snd (handoff env p clk agentId message w)))
    = firstn n (full_plan p agentId message) /\
    1 <= n <= 3 /\
    fulfilled env (firstn (n - 1) (full_plan p agentId message)) = true /\
    (n < length (full_plan p agentId message) ->
     fulfilled env (firstn n (full_plan p agentId message)) = false).
Proof.
  intros Ht. rewrite (handoff_issued env p clk agentId message w Ht), added_app.
  unfold expected_calls, full_plan.
  destruct (stop_step_cases p) as [-> | (rid & -> & _)];
    destruct (append_step_cases p message) as [-> | (m & _ & _ & ->)];
    cbn [fulfilled forallb app];
    repeat match goal with
           | |- context [match env ?c with _ => _ end] =>
               let E := fresh "E" in destruct (env c) eqn:E
           end;
    cbn [andb app].
  all: first [ exists 1; split; [reflexivity |]
             | exists 2; split; [reflexivity |]
             | exists 3; split; [reflexivity |] ].
  all: split; [lia |].
  all: cbn [Nat.sub firstn length fulfilled forallb].
  all: repeat match goal with
              | H : _ = Resolved _ |- _ => rewrite H
              | H : _ = Rejected _ |- _ => rewrite H
              end.
  all: cbn [andb]; split; [reflexivity | intros Hn; first [reflexivity | lia]].
Qed.

(** Stop and save are fulfilled, the start is rejected. *)
Lemma handoff_calls_follow_the_plan_witness :
  exists n,
    added [] (issued (snd (handoff start_fails (props_R1 "running") clock0 "artist"
                             (Some please_draw)
                             (world_with (busy_store "R1" "running")
                                [run_R1 st_running]))))
    = firstn n (full_plan (props_R1 "running") "artist" (Some please_draw)) /\
    1 <= n <= 3 /\
    fulfilled start_fails
      (firstn (n - 1) (full_plan (props_R1 "running") "artist" (Some please_draw)))
    = true /\
    (n < length (full_plan (props_R1 "running") "artist" (Some please_draw)) ->
     fulfilled start_fails
       (firstn n (full_plan (props_R1 "running") "artist" (Some please_draw)))
     = false).
Proof.
  apply (handoff_calls_follow_the_plan start_fails (props_R1 "running") clock0
           "artist" (Some please_draw)
           (world_with (busy_store "R1" "running") [run_R1 st_running])).
  reflexivity.
Defined.

(* ================================================================== *)
(** ** The stream callbacks of the preview *)
(* ================================================================== *)

Section Receive.

Variable message : UnifiedMessage.

Lemma receive_known (prev : list UnifiedMessage) :
  existsb (PreviewStream.same_id message) prev = true ->
  PreviewStream.receive message prev
  = map (fun m => if PreviewStream.same_id message m then message else m) prev.
Proof. intros H. unfold PreviewStream.receive. now rewrite H. Qed.

Lemma receive_new (prev : list UnifiedMessage) :
  existsb (PreviewStream.same_id message) prev = false ->
  PreviewStream.receive message prev = (prev ++ [message])%list.
Proof. intros H. unfold PreviewStream.receive. now rewrite H. Qed.

Lemma same_message : PreviewStream.same_id message message = true.
Proof. apply String.eqb_refl. Qed.

(** Replacing keeps every id where it was. *)
Lemma replace_ids (prev : list UnifiedMessage) :
  map message_id (map (fun m => if PreviewStream.same_id message m then message else m) prev)
  = map message_id prev.
Proof.
  induction prev as [| m prev IH]; cbn; [reflexivity |].
  rewrite IH. f_equal. unfold PreviewStream.same_id. destruct (message_id m =? message_id message) eqn:E.
  - symmetry. now apply String.eqb_eq.
  - reflexivity.
Qed.

(** An arriving message keeps the ids of the sequence in place. *)
Lemma receive_ids (prev : list UnifiedMessage) :
  map message_id (PreviewStream.receive message prev)
  = (if existsb (PreviewStream.same_id message) prev
     then map message_id prev
     else map message_id prev ++ [message_id message])%list.
Proof.
  destruct (existsb (PreviewStream.same_id message) prev) eqn:Hknown.
  - rewrite (receive_known prev Hknown). apply replace_ids.
  - rewrite (receive_new prev Hknown). now rewrite map_app.
Qed.

(** X6.  After a message arrives from the stream it is in the local
    sequence, and every entry under its id is that message.  The ids of
    the sequence stay in place: a known id keeps its position and the
    sequence its length, a new id is put at the end. *)
Theorem received_message_is_stored (prev : list UnifiedMessage) :
  In message (PreviewStream.receive message prev) /\
  (forall m, In m (PreviewStream.receive message prev) ->
             message_id m = message_id message -> m = message) /\
  map message_id (PreviewStream.receive message prev)
  = (if existsb (PreviewStream.same_id message) prev
     then map message_id prev
     else map message_id prev ++ [message_id message])%list.
Proof.
  split; [| split; [| apply receive_ids]].
  all: destruct (existsb (PreviewStream.same_id message) prev) eqn:Hknown.
  all: rewrite ?(receive_known prev Hknown), ?(receive_new prev Hknown).
  - apply existsb_exists in Hknown as (m & Hin & Hm).
    apply in_map_iff. exists m. now rewrite Hm.
  - apply in_or_app. right. now left.
  - intros m Hin Hid. apply in_map_iff in Hin as (m0 & <- & _).
    destruct (PreviewStream.same_id message m0) eqn:E; [reflexivity |].
    unfold PreviewStream.same_id in E. apply String.eqb_neq in E. contradiction.
  - intros m Hin Hid. apply in_app_or in Hin as [Hin | [<- | []]]; [| reflexivity].
    assert (Habs : existsb (PreviewStream.same_id message) prev = true).
    { apply existsb_exists. exists m. split; [exact Hin |].
      unfold PreviewStream.same_id. now apply String.eqb_eq. }
    rewrite Habs in Hknown. discriminate.
Qed.

(** X7.  Entries under other ids are left alone by an arriving message,
    and ids that were distinct stay distinct. *)
Theorem received_message_spares_the_rest (prev : list UnifiedMessage) :
  filter (fun m => negb (PreviewStream.same_id message m)) (PreviewStream.receive message prev)
  = filter (fun m => negb (PreviewStream.same_id message m)) prev /\
  (NoDup (map message_id prev) ->
   NoDup (map message_id (PreviewStream.receive message prev))).
Proof.
  split.
  - destruct (existsb (PreviewStream.same_id message) prev) eqn:Hknown.
    + rewrite (receive_known prev Hknown). clear Hknown.
      induction prev as [| m prev IH]; cbn; [reflexivity |].
      destruct (PreviewStream.same_id message m) eqn:E; cbn.
      * rewrite same_message. cbn. exact IH.
      * rewrite E. cbn. now rewrite IH.
    + rewrite (receive_new prev Hknown), filter_app. cbn.
      rewrite same_message. cbn. apply app_nil_r.
  - intros Hnd.
    rewrite receive_ids.
    destruct (existsb (PreviewStream.same_id message) prev) eqn:Hknown; [exact Hnd |].
    apply NoDup_app; [exact Hnd | repeat constructor; intros [] |].
    intros id Hin [<- | []].
    apply in_map_iff in Hin as (m & Hid & Hin).
    assert (Habs : existsb (PreviewStream.same_id message) prev = true).
    { apply existsb_exists. exists m. split; [exact Hin |].
      unfold PreviewStream.same_id. now apply String.eqb_eq. }
    rewrite Habs in Hknown. discriminate.
Qed.

(** X8.  When two versions of one message arrive in turn, as they do
    while a reply is streamed, the sequence is the same as if only the
    later version had arrived. *)
Theorem later_version_wins (earlier : UnifiedMessage) (prev : list UnifiedMessage) :
  message_id earlier = message_id message ->
  PreviewStream.receive message (PreviewStream.receive earlier prev)
  = PreviewStream.receive message prev.
Proof.
  intros Hid.
  assert (Hsame : forall m, PreviewStream.same_id earlier m
                            = PreviewStream.same_id message m).
  { intros m. unfold PreviewStream.same_id. now rewrite Hid. }
  assert (Hearlier : PreviewStream.same_id message earlier = true).
  { unfold PreviewStream.same_id. rewrite Hid. apply String.eqb_refl. }
  assert (Hexists : existsb (PreviewStream.same_id earlier) prev
                    = existsb (PreviewStream.same_id message) prev).
  { induction prev as [| m l IH]; cbn; [reflexivity | now rewrite Hsame, IH]. }
  unfold PreviewStream.receive at 2. rewrite Hexists.
  destruct (existsb (PreviewStream.same_id message) prev) eqn:Hknown.
  - rewrite (receive_known prev Hknown).
    assert (Hstill : existsb (PreviewStream.same_id message)
                       (map (fun m => if PreviewStream.same_id earlier m
                                      then earlier else m) prev) = true).
    { apply existsb_exists in Hknown as (m & Hin & Hm).
      apply existsb_exists. exists earlier. split; [| exact Hearlier].
      apply in_map_iff. exists m. now rewrite Hsame, Hm. }
    rewrite (receive_known _ Hstill), map_map. apply map_ext. intros m.
    rewrite Hsame. destruct (PreviewStream.same_id message m) eqn:E.
    + now rewrite Hearlier.
    + now rewrite E.
  - rewrite (receive_new prev Hknown).
    assert (Hstill : existsb (PreviewStream.same_id message) (prev ++ [earlier])
                     = true).
    { rewrite existsb_app. cbn. rewrite Hearlier. now rewrite orb_true_r. }
    rewrite (receive_known _ Hstill), map_app. cbn. rewrite Hearlier. f_equal.
    rewrite <- (map_id prev) at 2. apply map_ext_in. intros m Hin.
    destruct (PreviewStream.same_id message m) eqn:E; [| reflexivity].
    assert (Habs : existsb (PreviewStream.same_id message) prev = true).
    { apply existsb_exists. now exists m. }
    rewrite Habs in Hknown. discriminate.
Qed.

End Receive.

(** The first chunk of a reply under id [a1], then a longer one. *)
Lemma later_version_wins_witness :
  PreviewStream.receive (mkMessage "a1" "t1" "assistant" true "Hello, wor" "{}" "" "")
    (PreviewStream.receive (mkMessage "a1" "t1" "assistant" true "Hel" "{}" "" "") [])
  = [mkMessage "a1" "t1" "assistant" true "Hello, wor" "{}" "" ""].
Proof.
  apply (later_version_wins
           (mkMessage "a1" "t1" "assistant" true "Hello, wor" "{}" "" "")
           (mkMessage "a1" "t1" "assistant" true "Hel" "{}" "" "") []).
  reflexivity.
Defined.

(** X9.  Status reports of the stream never install a run id: after
    any sequence of reports the run id is unset if one of them was a
    terminal status and is the one from before otherwise.  Messages,
    selected agent, toasts and error state are not touched. *)
Theorem stream_reports_never_set_a_run (reports : list string) (s : Store) :
  agentRunId (after_reports reports s)
  = (if existsb terminal reports then None else agentRunId s) /\
  messages (after_reports reports s) = messages s /\
  selectedAgentId (after_reports reports s) = selectedAgentId s /\
  toasts (after_reports reports s) = toasts s /\
  error (after_reports reports s) = error s.
Proof.
  revert s. induction reports as [| st more IH]; intros s.
  - repeat split.
  - cbn [after_reports fold_left existsb].
    destruct (IH (Preview.handleStreamStatusChange st s)) as (Hrun & Hm & Hs & Ht & He).
    unfold after_reports in *. rewrite Hrun, Hm, Hs, Ht, He.
    rewrite status_change_run_id.
    assert (Hrest : messages (Preview.handleStreamStatusChange st s) = messages s /\
                    selectedAgentId (Preview.handleStreamStatusChange st s)
                    = selectedAgentId s /\
                    toasts (Preview.handleStreamStatusChange st s) = toasts s /\
                    error (Preview.handleStreamStatusChange st s) = error s).
    { unfold Preview.handleStreamStatusChange.
      destruct ((st =? "idle") || (st =? "completed") || (st =? "stopped")
                || (st =? "agent_not_running") || (st =? "error")
                || (st =? "failed"));
        [repeat split |].
      destruct (st =? "connecting"); [repeat split |].
      destruct (st =? "streaming"); repeat split. }
    destruct Hrest as (-> & -> & -> & ->).
    destruct (terminal st); cbn [orb];
      [destruct (existsb terminal more) |]; repeat split.
Qed.

Lemma toLowerCase_app (a b : string) :
  PreviewStream.toLowerCase (a ++ b)
  = PreviewStream.toLowerCase a ++ PreviewStream.toLowerCase b.
Proof.
  induction a as [| c a IH]; cbn; [reflexivity | now rewrite IH].
Qed.

(** Lower-casing works letter by letter: a split of the lowered text
    comes from a split of the text. *)
Lemma toLowerCase_split (s x y : string) :
  PreviewStream.toLowerCase s = x ++ y ->
  exists s1 s2,
    s = s1 ++ s2 /\
    PreviewStream.toLowerCase s1 = x /\ PreviewStream.toLowerCase s2 = y.
Proof.
  revert s. induction x as [| c x IH]; intros s H.
  - exists "", s. repeat split. exact H.
  - destruct s as [| a s]; [discriminate H |].
    cbn in H. injection H as Hc H.
    destruct (IH s H) as (s1 & s2 & -> & Hx & Hy).
    exists (String a s1), s2. cbn. rewrite Hc, Hx. repeat split. exact Hy.
Qed.

(** The test of [handleStreamError], read on the message itself. *)
Lemma includes_lowered (phrase errorMessage : string) :
  Js.includes phrase (PreviewStream.toLowerCase errorMessage) = true <->
  exists p, occurs_in p errorMessage /\ PreviewStream.toLowerCase p = phrase.
Proof.
  rewrite includes_occurs. split.
  - intros (x & y & H).
    apply toLowerCase_split in H as (s1 & s23 & -> & Hx & H).
    apply toLowerCase_split in H as (s2 & s3 & -> & Hp & Hy).
    exists s2. split; [now exists s1, s3 | exact Hp].
  - intros (p & (before & after & ->) & <-).
    rewrite !toLowerCase_app. now eexists _, _.
Qed.

(** X10.  Every stream error is logged to the console, and nothing but
    the console log and the toasts is touched.  The error is shown as a
    toast exactly when it does not speak, in whatever letter case, of
    something "not found" or of an "agent run is not running". *)
Theorem stream_error_about_missing_run_is_silent (errorMessage : string) (s : Store) :
  console_errors (PreviewStream.handleStreamError errorMessage s)
  = (console_errors s ++ [("[PREVIEW] Stream error: " ++ errorMessage)%string])%list /\
  messages (PreviewStream.handleStreamError errorMessage s) = messages s /\
  agentRunId (PreviewStream.handleStreamError errorMessage s) = agentRunId s /\
  agentStatus (PreviewStream.handleStreamError errorMessage s) = agentStatus s /\
  (about_missing_run errorMessage ->
   toasts (PreviewStream.handleStreamError errorMessage s) = toasts s) /\
  (~ about_missing_run errorMessage ->
   toasts (PreviewStream.handleStreamError errorMessage s)
   = (toasts s ++ [ToastError ("Stream Error: " ++ errorMessage)])%list).
Proof.
  unfold PreviewStream.handleStreamError, about_missing_run.
  destruct (Js.includes "not found" (PreviewStream.toLowerCase errorMessage))
    eqn:Hfound;
    [| destruct (Js.includes "agent run is not running"
                   (PreviewStream.toLowerCase errorMessage)) eqn:Hrun].
  - cbn [negb andb]. repeat split. intros Hnot. elim Hnot.
    apply includes_lowered in Hfound as (p & Hocc & Hp).
    exists p. split; [exact Hocc | now left].
  - cbn [negb andb]. repeat split. intros Hnot. elim Hnot.
    apply includes_lowered in Hrun as (p & Hocc & Hp).
    exists p. split; [exact Hocc | now right].
  - cbn [negb andb]. repeat split.
    intros (p & Hocc & [Hp | Hp]).
    + assert (H : Js.includes "not found" (PreviewStream.toLowerCase errorMessage)
                  = true) by (apply includes_lowered; now exists p).
      rewrite H in Hfound. discriminate.
    + assert (H : Js.includes "agent run is not running"
                    (PreviewStream.toLowerCase errorMessage) = true)
        by (apply includes_lowered; now exists p).
      rewrite H in Hrun. discriminate.
Qed.

(** The back end answers that the run is gone, in capitals. *)
Lemma stream_error_about_missing_run_is_silent_witness :
  toasts (PreviewStream.handleStreamError "Agent run R1 NOT FOUND" empty_store) = []
  /\ console_errors (PreviewStream.handleStreamError "Agent run R1 NOT FOUND"
                       empty_store)
     = ["[PREVIEW] Stream error: Agent run R1 NOT FOUND"].
Proof.
  destruct (stream_error_about_missing_run_is_silent
              "Agent run R1 NOT FOUND" empty_store)
    as (Hlog & _ & _ & _ & Hsilent & _).
  split; [| exact Hlog].
  apply Hsilent. exists "NOT FOUND". split.
  - now exists "Agent run R1 ", "".
  - left. reflexivity.
Defined.

(* ================================================================== *)
(** ** Submitting a message in the preview *)
(* ================================================================== *)

(** Dropping a fresh id undoes the append of the message that carries it. *)
Lemma drop_appended (m : UnifiedMessage) (prev : list UnifiedMessage) :
  fresh_id (message_id m) prev = true ->
  Preview.drop_message (message_id m) (prev ++ [m]) = prev.
Proof.
  unfold fresh_id, Preview.drop_message. intros Hfresh.
  apply negb_true_iff in Hfresh.
  rewrite filter_app. cbn. rewrite String.eqb_refl. cbn. rewrite app_nil_r.
  induction prev as [| a prev IH]; [reflexivity |].
  cbn in *. apply orb_false_iff in Hfresh as [Ha Hrest].
  rewrite Ha. cbn. now rewrite IH.
Qed.

(** X11.  A submission either commits or rolls back.  When the save and
    the start are both fulfilled the optimistic message stays at the
    end of the sequence, the returned run id is taken and nothing is
    shown.  In every other case the sequence is as it was before, the
    run id is left alone (also when the start itself was fulfilled and
    only the save failed) and exactly one error toast is shown.  Both
    calls are issued in every case, the save first, and the handler
    itself never fails. *)
Theorem submission_commits_or_rolls_back (env : Call -> Response)
  c clk random text options w tid :
  Preview.threadId c = Some tid ->
  Js.truthy tid = true ->
  Js.blank text = false ->
  fresh_id (message_id (Preview.optimisticUserMessage tid clk random text))
           (messages (store w)) = true ->
  fst (submit env c clk random text options w) = Fulfilled tt /\
  added (issued w) (issued (snd (submit env c clk random text options w)))
  = [AppendMessage tid text; StartRun tid (Preview.finalOptions c options)] /\
  match env (AppendMessage tid text),
        env (StartRun tid (Preview.finalOptions c options)) with
  | Resolved _, Resolved rid =>
      messages (store (snd (submit env c clk random text options w)))
      = (messages (store w)
         ++ [Preview.optimisticUserMessage tid clk random text])%list /\
      agentRunId (store (snd (submit env c clk random text options w))) = Some rid /\
      toasts (store (snd (submit env c clk random text options w)))
      = toasts (store w)
  | _, _ =>
      messages (store (snd (submit env c clk random text options w)))
      = messages (store w) /\
      agentRunId (store (snd (submit env c clk random text options w)))
      = agentRunId (store w) /\
      exists shown,
        toasts (store (snd (submit env c clk random text options w)))
        = (toasts (store w) ++ [ToastError shown])%list
  end.
Proof.
  intros Hc Htid Hblank Hfresh.
  pose proof (submit_issued env c clk random text options w tid Hc Htid Hblank)
    as Hcalls.
  rewrite Hcalls. clear Hcalls.
  destruct w as [[run sel status msgs loading err shown logged] table calls seen].
  cbn [store messages] in Hfresh.
  pose proof (drop_appended _ _ Hfresh) as Hdrop.
  unfold submit, Preview.handleSubmitMessage.
  rewrite Hc. unfold Preview.blank_input. rewrite Hblank, Htid. cbn [negb orb].
  rewrite exec_bind, exec_act, exec_try_catch, exec_bind, exec_allSettled.
  cbn [fst snd].
  destruct (env (AppendMessage tid text)) as [v1 | e1];
    [destruct (env (StartRun tid (Preview.finalOptions c options))) as [v2 | e2];
     [| destruct (Js.is_BillingError e2)] |];
    rewrite ?exec_bind, ?exec_act; cbn [exec]; rewrite ?exec_bind, ?exec_act;
    fields; rewrite ?Hdrop; repeat split; eexists; reflexivity.
Qed.

(** The save is rejected while the start is fulfilled. *)
Lemma submission_commits_or_rolls_back_witness :
  fst (submit append_fails (Preview.mkCaptured (Some "t1") "writer" false "low")
         clock0 "0.5" "hello" None (world_with empty_store []))
  = Fulfilled tt.
Proof.
  apply (submission_commits_or_rolls_back append_fails
           (Preview.mkCaptured (Some "t1") "writer" false "low")
           clock0 "0.5" "hello" None (world_with empty_store []) "t1");
    reflexivity.
Defined.

(** X12.  A submission with nothing to send (a message that is empty
    once trimmed, be it of plain or of no-break and other Unicode
    spaces) or nowhere to send it (no thread) does nothing at all: no
    call, no change of state. *)
Theorem blank_submission_does_nothing (env : Call -> Response)
  c clk random text options w :
  match Preview.threadId c with
  | Some tid => Js.blank text || negb (Js.truthy tid)
  | None => true
  end = true ->
  submit env c clk random text options w = (Fulfilled tt, w).
Proof.
  intros H. unfold submit, Preview.handleSubmitMessage, Preview.blank_input.
  destruct (Preview.threadId c) as [tid |]; [| reflexivity].
  now rewrite H.
Qed.

(** A message of a space, a line break and a no-break space. *)
Lemma blank_submission_does_nothing_witness :
  submit (always "R2") (Preview.mkCaptured (Some "t1") "writer" false "low")
    clock0 "0.5" (String " " (String (ascii_of_nat 10) nbsp)) None
    (world_with empty_store [])
  = (Fulfilled tt, world_with empty_store []).
Proof.
  apply (blank_submission_does_nothing (always "R2")
           (Preview.mkCaptured (Some "t1") "writer" false "low")
           clock0 "0.5" (String " " (String (ascii_of_nat 10) nbsp)) None
           (world_with empty_store [])).
  reflexivity.
Defined.

(* ================================================================== *)
(** ** More on the asset-generation result view *)
(* ================================================================== *)

Lemma string_app_assoc (a b c : string) : (a ++ b) ++ c = a ++ b ++ c.
Proof. induction a as [| x a IH]; cbn; [reflexivity | now rewrite IH]. Qed.

Lemma string_app_nil (a : string) : a ++ "" = a.
Proof. induction a as [| x a IH]; cbn; [reflexivity | now rewrite IH]. Qed.

Lemma strip_sound (p s r : string) :
  AssetView.strip p s = Some r -> s = p ++ r.
Proof.
  revert s. induction p as [| a p IH]; intros s H.
  - destruct s; cbn in H; now inversion H.
  - destruct s as [| b s]; cbn in H; [discriminate |].
    destruct (Ascii.eqb a b) eqn:E; [| discriminate].
    apply Ascii.eqb_eq in E. subst b. cbn. f_equal. now apply IH.
Qed.

Lemma strip_complete (p r : string) : AssetView.strip p (p ++ r) = Some r.
Proof.
  induction p as [| a p IH]; cbn.
  - destruct r; reflexivity.
  - now rewrite Ascii.eqb_refl.
Qed.

Lemma upto_paren_sound (s u r : string) :
  AssetView.upto_paren s = Some (u, r) ->
  s = u ++ ")" ++ r /\ has_char ")" u = false.
Proof.
  revert u r. induction s as [| c s IH]; intros u r H; cbn in H; [discriminate |].
  destruct (Ascii.eqb c ")") eqn:E.
  - apply Ascii.eqb_eq in E. inversion H; subst. now split.
  - destruct (AssetView.upto_paren s) as [[u0 r0] |]; [| discriminate].
    inversion H; subst. destruct (IH u0 r eq_refl) as [-> Hno].
    split; [reflexivity |]. cbn. now rewrite E.
Qed.

Lemma upto_paren_complete (u r : string) :
  has_char ")" u = false -> AssetView.upto_paren (u ++ ")" ++ r) = Some (u, r).
Proof.
  induction u as [| c u IH]; intros H; cbn in *; [reflexivity |].
  apply orb_false_iff in H as [Hc Hu]. rewrite Hc, (IH Hu). reflexivity.
Qed.

Lemma body_paren_sound (s u r : string) :
  AssetView.body_paren s = Some (u, r) ->
  s = u ++ ")" ++ r /\ has_char ")" u = false /\ u <> "".
Proof.
  unfold AssetView.body_paren. intros H.
  destruct (AssetView.upto_paren s) as [[u0 r0] |] eqn:E; [| discriminate].
  destruct (u0 =? "") eqn:Eu; [discriminate |].
  inversion H; subst. apply upto_paren_sound in E as [-> Hno].
  apply String.eqb_neq in Eu. auto.
Qed.

Lemma body_paren_complete (u r : string) :
  has_char ")" u = false -> u <> "" ->
  AssetView.body_paren (u ++ ")" ++ r) = Some (u, r).
Proof.
  intros Hno Hne. unfold AssetView.body_paren.
  rewrite (upto_paren_complete u r Hno).
  apply String.eqb_neq in Hne. now rewrite Hne.
Qed.

(** What the url pattern matches is a url, followed by the parenthesis. *)
Lemma url_paren_sound (s u r : string) :
  AssetView.url_paren s = Some (u, r) -> web_url u /\ s = u ++ ")" ++ r.
Proof.
  unfold AssetView.url_paren. intros H.
  destruct (AssetView.strip "http" s) as [r0 |] eqn:E0; [| discriminate].
  apply strip_sound in E0. subst s.
  assert (Hplain :
    match AssetView.strip "://" r0 with
    | Some b => match AssetView.body_paren b with
                | Some (u1, rest) => Some ("http://" ++ u1, rest)
                | None => None
                end
    | None => None
    end = Some (u, r) ->
    web_url u /\ "http" ++ r0 = u ++ ")" ++ r).
  { intros Hp. destruct (AssetView.strip "://" r0) as [b |] eqn:E1; [| discriminate].
    destruct (AssetView.body_paren b) as [[u1 rest] |] eqn:E2; [| discriminate].
    inversion Hp; subst. apply strip_sound in E1. subst r0.
    apply body_paren_sound in E2 as (-> & Hno & Hne).
    split; [exists u1; auto | reflexivity]. }
  destruct (AssetView.strip "s" r0) as [r1 |] eqn:Es; [| exact (Hplain H)].
  destruct (AssetView.strip "://" r1) as [b |] eqn:E1; [| exact (Hplain H)].
  destruct (AssetView.body_paren b) as [[u1 rest] |] eqn:E2; [| exact (Hplain H)].
  inversion H; subst. apply strip_sound in Es, E1. subst r0 r1.
  apply body_paren_sound in E2 as (-> & Hno & Hne).
  split; [exists u1; auto | reflexivity].
Qed.

(** A url followed by a parenthesis is matched whole. *)
Lemma url_paren_complete (u r : string) :
  web_url u -> AssetView.url_paren (u ++ ")" ++ r) = Some (u, r).
Proof.
  intros (body & [-> | ->] & Hne & Hno); unfold AssetView.url_paren.
  - change (("http://" ++ body) ++ ")" ++ r) with ("http" ++ "://" ++ body ++ ")" ++ r).
    rewrite strip_complete.
    change ("://" ++ body ++ ")" ++ r) with ("://" ++ (body ++ ")" ++ r)).
    rewrite strip_complete, (body_paren_complete body r Hno Hne).
    reflexivity.
  - change (("https://" ++ body) ++ ")" ++ r)
      with ("http" ++ "s" ++ "://" ++ body ++ ")" ++ r).
    rewrite strip_complete.
    change ("s" ++ "://" ++ body ++ ")" ++ r) with ("s" ++ ("://" ++ body ++ ")" ++ r)).
    rewrite (strip_complete "s").
    change ("://" ++ body ++ ")" ++ r) with ("://" ++ (body ++ ")" ++ r)).
    rewrite strip_complete, (body_paren_complete body r Hno Hne).
    reflexivity.
Qed.

Lemma view_image_at_sound (s m : string) :
  AssetView.view_image_at s = Some m ->
  exists u rest, m = link u /\ web_url u /\ s = m ++ rest.
Proof.
  unfold AssetView.view_image_at, AssetView.group_at. intros H.
  destruct (AssetView.strip "[View Image]" s) as [r |] eqn:E0; [| discriminate].
  destruct (AssetView.strip "(" r) as [r1 |] eqn:E1; [| discriminate].
  destruct (AssetView.url_paren r1) as [[u rest] |] eqn:E2; [| discriminate].
  inversion H; subst. apply strip_sound in E0, E1. subst s r.
  apply url_paren_sound in E2 as [Hu ->].
  exists u, rest. repeat split; [exact Hu |].
  unfold link. cbn. now rewrite string_app_assoc.
Qed.

Lemma view_image_at_complete (u rest : string) :
  web_url u -> AssetView.view_image_at (link u ++ rest) = Some (link u).
Proof.
  intros Hu. unfold AssetView.view_image_at, AssetView.group_at, link.
  change (("[View Image](" ++ u ++ ")") ++ rest)
    with ("[View Image]" ++ "(" ++ ((u ++ ")") ++ rest)).
  rewrite strip_complete, (strip_complete "(").
  rewrite string_app_assoc. now rewrite (url_paren_complete u rest Hu).
Qed.

Lemma occurs_in_tail (sub s : string) (c : ascii) :
  occurs_in sub s -> occurs_in sub (String c s).
Proof. intros (a & b & ->). now exists (String c a), b. Qed.

(** Every match of the image pattern is a link to a url and lies in the
    text. *)
Lemma scan_sound (s : string) :
  forall k m, In m (AssetView.scan k s) ->
              exists u, m = link u /\ web_url u /\ occurs_in m s.
Proof.
  induction s as [| c s IH]; intros k m Hin; cbn [AssetView.scan] in Hin;
    [destruct Hin |].
  destruct k as [| k].
  - destruct (AssetView.view_image_at (String c s)) as [m0 |] eqn:E.
    + destruct Hin as [<- | Hin].
      * apply view_image_at_sound in E as (u & rest & Hm & Hu & Hs).
        exists u. repeat split; try assumption. rewrite Hs. now exists "", rest.
      * destruct (IH _ _ Hin) as (u & Hm & Hu & Hocc).
        exists u. repeat split; try assumption. now apply occurs_in_tail.
    + destruct (IH _ _ Hin) as (u & Hm & Hu & Hocc).
      exists u. repeat split; try assumption. now apply occurs_in_tail.
  - destruct (IH _ _ Hin) as (u & Hm & Hu & Hocc).
    exists u. repeat split; try assumption. now apply occurs_in_tail.
Qed.

(** The url pattern, searched in a link, finds the url of the link. *)
Lemma match_url_link (u : string) :
  web_url u -> AssetView.match_url (link u) = Some u.
Proof.
  intros Hu. unfold link.
  cbn -[AssetView.url_paren].
  change (u ++ ")") with (u ++ ")" ++ "").
  now rewrite (url_paren_complete u "" Hu).
Qed.

Lemma web_url_truthy (u : string) : web_url u -> Js.truthy u = true.
Proof. intros (body & [-> | ->] & _); reflexivity. Qed.

(** The images of a parsed result are urls of links in the text. *)
Lemma image_of_link (Obj : Type) (JSON_stringify : Obj -> string)
  (c : AssetView.Content Obj) (u : string) :
  In u (AssetView.images (AssetView.parseToolResult JSON_stringify c)) ->
  exists m, In m (AssetView.scan 0 (AssetView.contentStr JSON_stringify c)) /\
            m = link u /\ web_url u.
Proof.
  unfold AssetView.parseToolResult.
  destruct (negb (AssetView.truthy c)); [intros [] |].
  cbv zeta.
  destruct (Js.includes "Error:" _ || Js.includes "error" _); [intros [] |].
  unfold AssetView.match_view_images.
  destruct (AssetView.scan 0 (AssetView.contentStr JSON_stringify c))
    as [| m0 ms] eqn:Hscan.
  - cbn [orb].
    destruct (Js.includes "Image Generated Successfully" _
              || Js.includes "Images Generated Successfully" _); [intros [] |].
    destruct (Js.includes "Asset Generation Started" _
              || Js.includes "Workflow executed successfully" _); intros [].
  - cbn [orb AssetView.images]. intros Hin.
    apply filter_In in Hin as [Hin _].
    apply in_map_iff in Hin as (m & Hu & Hm).
    exists m. split; [exact Hm |].
    rewrite <- Hscan in Hm.
    apply scan_sound in Hm as (u0 & -> & Hweb & _).
    rewrite (match_url_link u0 Hweb) in Hu. subst u0. now split.
Qed.

(** X13.  Every image the view is given by [parseToolResult] is a url
    that starts with [http://] or [https://], has at least one more
    character and no closing parenthesis, and is the target of a
    "[View Image](url)" link that stands in the text of the result. *)
Theorem images_come_from_links (Obj : Type) (JSON_stringify : Obj -> string)
  (c : AssetView.Content Obj) (u : string) :
  In u (AssetView.images (AssetView.parseToolResult JSON_stringify c)) ->
  web_url u /\ occurs_in (link u) (AssetView.contentStr JSON_stringify c).
Proof.
  intros Hin.
  destruct (image_of_link Obj JSON_stringify c u Hin) as (m & Hm & -> & Hweb).
  split; [exact Hweb |].
  apply scan_sound in Hm as (u0 & _ & _ & Hocc). exact Hocc.
Qed.

(** A result with one link. *)
Lemma images_come_from_links_witness :
  web_url "https://cdn.example.com/a.png" /\
  occurs_in (link "https://cdn.example.com/a.png") clean_result.
Proof.
  apply (images_come_from_links unit (fun _ => "{}") (AssetView.CString clean_result)).
  left. reflexivity.
Defined.

(** The scan resumes right after a match. *)
Lemma scan_skip (a rest : string) :
  AssetView.scan (String.length a) (a ++ rest) = AssetView.scan 0 rest.
Proof. induction a as [| c a IH]; [reflexivity | exact IH]. Qed.

(** Text without an opening bracket holds no match. *)
Lemma scan_plain_text (text rest : string) :
  has_char "[" text = false ->
  AssetView.scan 0 (text ++ rest) = AssetView.scan 0 rest.
Proof.
  induction text as [| c text IH]; intros H; [reflexivity |].
  cbn in H. apply orb_false_iff in H as [Hc Htext].
  cbn [append AssetView.scan].
  assert (Hnone : AssetView.view_image_at (String c (text ++ rest)) = None).
  { unfold AssetView.view_image_at. cbn [AssetView.strip].
    rewrite Ascii.eqb_sym, Hc. reflexivity. }
  rewrite Hnone. now apply IH.
Qed.

Lemma scan_match (c : ascii) (a rest : string) :
  AssetView.view_image_at (String c (a ++ rest)) = Some (String c a) ->
  AssetView.scan 0 (String c (a ++ rest)) = String c a :: AssetView.scan 0 rest.
Proof.
  intros Hat. cbn [AssetView.scan]. rewrite Hat. f_equal.
  change (String.length (String c a) - 1) with (String.length a - 0).
  rewrite Nat.sub_0_r. apply scan_skip.
Qed.

Lemma scan_link (u rest : string) :
  web_url u ->
  AssetView.scan 0 (link u ++ rest) = link u :: AssetView.scan 0 rest.
Proof.
  intros Hu. pose proof (view_image_at_complete u rest Hu) as Hat.
  exact (scan_match "[" ("View Image](" ++ u ++ ")") rest Hat).
Qed.

Lemma scan_links (sep : string) (urls : list string) :
  has_char "[" sep = false ->
  Forall web_url urls ->
  AssetView.scan 0 (fold_right (fun u rest => link u ++ sep ++ rest) "" urls)
  = map link urls.
Proof.
  intros Hsep Hall. induction Hall as [| u urls Hu Hall IH]; [reflexivity |].
  cbn [fold_right map]. rewrite (scan_link u _ Hu). f_equal.
  rewrite (scan_plain_text sep _ Hsep). exact IH.
Qed.

Lemma urls_of_links (urls : list string) :
  Forall web_url urls ->
  filter Js.truthy
    (map (fun m => match AssetView.match_url m with
                   | Some u => u
                   | None => ""
                   end) (map link urls))
  = urls.
Proof.
  intros Hall. induction Hall as [| u urls Hu Hall IH]; [reflexivity |].
  cbn [map filter]. rewrite (match_url_link u Hu), (web_url_truthy u Hu).
  now rewrite IH.
Qed.

Lemma truthy_app (a b : string) : Js.truthy b = true -> Js.truthy (a ++ b) = true.
Proof.
  destruct a; [trivial | reflexivity].
Qed.

(** X14.  Writing links and reading them back gives the urls: a text
    result that lists one "[View Image](url)" link per url, with any
    text without "[" before and between them and without the word
    "error", is read as an image result with exactly those urls, in
    order. *)
Theorem gallery_round_trip (Obj : Type) (JSON_stringify : Obj -> string)
  (intro sep : string) (urls : list string) :
  urls <> [] ->
  Forall web_url urls ->
  has_char "[" intro = false ->
  has_char "[" sep = false ->
  Js.includes "Error:" (gallery intro sep urls) = false ->
  Js.includes "error" (gallery intro sep urls) = false ->
  AssetView.parseToolResult JSON_stringify (AssetView.CString (gallery intro sep urls))
  = AssetView.mkResult false true false true urls None None.
Proof.
  intros Hne Hall Hintro Hsep He1 He2.
  assert (Hscan : AssetView.scan 0 (gallery intro sep urls) = map link urls).
  { unfold gallery. rewrite (scan_plain_text intro _ Hintro).
    now apply scan_links. }
  assert (Htruthy : Js.truthy (gallery intro sep urls) = true).
  { unfold gallery. apply truthy_app.
    destruct urls as [| u urls]; [contradiction | reflexivity]. }
  unfold AssetView.parseToolResult.
  cbn [AssetView.truthy AssetView.contentStr]. rewrite Htruthy. cbn [negb].
  cbv zeta. rewrite He1, He2. cbn [orb].
  unfold AssetView.match_view_images. rewrite Hscan.
  destruct urls as [| u urls]; [contradiction |].
  inversion Hall as [| ? ? Hu Htail]; subst.
  cbn [map orb]. rewrite (match_url_link u Hu).
  cbn [filter]. rewrite (web_url_truthy u Hu), (urls_of_links urls Htail).
  reflexivity.
Qed.

(** Two images announced on two lines. *)
Lemma gallery_round_trip_witness :
  AssetView.parseToolResult (fun _ : unit => "{}")
    (AssetView.CString
       (gallery "Images Generated Successfully! " " "
          ["https://cdn.example.com/a.png"; "http://cdn.example.com/b.png"]))
  = AssetView.mkResult false true false true
      ["https://cdn.example.com/a.png"; "http://cdn.example.com/b.png"] None None.
Proof.
  apply (gallery_round_trip unit (fun _ => "{}")
           "Images Generated Successfully! " " "
           ["https://cdn.example.com/a.png"; "http://cdn.example.com/b.png"]).
  - discriminate.
  - repeat constructor.
    + exists "cdn.example.com/a.png". repeat split; [now right | discriminate].
    + exists "cdn.example.com/b.png". repeat split; [now left | discriminate].
  - reflexivity.
  - reflexivity.
  - reflexivity.
  - reflexivity.
Defined.

(** X15.  The result of [parseToolResult] is always of one kind.  At
    most one of "failed", "images" and "workflow" is set; the processing
    flag and the workflow details go with the workflow flag; images are
    reported exactly when the list of images is not empty and only for
    an image result; an error message, when there is one, is the whole
    text and is not empty. *)
Theorem parsed_result_is_of_one_kind (Obj : Type)
  (JSON_stringify : Obj -> string) (c : AssetView.Content Obj) :
  let r := AssetView.parseToolResult JSON_stringify c in
  AssetView.isAsyncProcessing r = AssetView.isEachlabsWorkflow r /\
  AssetView.hasImages r = negb (Nat.eqb (length (AssetView.images r)) 0) /\
  (AssetView.hasImages r = true -> AssetView.isGoogleImagen r = true) /\
  AssetView.isGoogleImagen r && AssetView.isEachlabsWorkflow r = false /\
  (AssetView.errorMessage r <> None ->
   AssetView.isGoogleImagen r = false /\ AssetView.isEachlabsWorkflow r = false /\
   AssetView.images r = [] /\
   AssetView.errorMessage r = Some (AssetView.contentStr JSON_stringify c) /\
   Js.truthy (AssetView.contentStr JSON_stringify c) = true) /\
  (AssetView.workflowDetails r <> None <-> AssetView.isEachlabsWorkflow r = true).
Proof.
  unfold AssetView.parseToolResult.
  destruct (negb (AssetView.truthy c)).
  { cbn. repeat split; intros; congruence. }
  cbv zeta.
  destruct (Js.includes "Error:" _ || Js.includes "error" _) eqn:Herr.
  { assert (Htr : Js.truthy (AssetView.contentStr JSON_stringify c) = true).
    { revert Herr. destruct (AssetView.contentStr JSON_stringify c);
        [cbn; discriminate | reflexivity]. }
    cbn. repeat split; intros; solve [congruence | exact Htr]. }
  destruct ((match AssetView.match_view_images _ with
             | Some _ => true
             | None => false
             end) || _ || _).
  { cbn [AssetView.isAsyncProcessing AssetView.isEachlabsWorkflow
           AssetView.hasImages AssetView.images AssetView.isGoogleImagen
           AssetView.errorMessage AssetView.workflowDetails andb].
    repeat split; intros; try congruence.
    destruct (length _); reflexivity. }
  destruct (Js.includes "Asset Generation Started" _ || _);
    cbn; repeat split; intros; congruence.
Qed.

(** X16.  Content that is neither text nor an object never yields a
    result: for [undefined], [null], a number or a boolean every flag is
    off and there is no image, no error message and no detail, whatever
    the value. *)
Theorem non_text_content_is_ignored (Obj : Type)
  (JSON_stringify : Obj -> string) (c : AssetView.Content Obj) :
  (forall s, c <> AssetView.CString s) ->
  (forall o, c <> AssetView.CObject o) ->
  AssetView.parseToolResult JSON_stringify c = AssetView.nothing.
Proof.
  intros Hs Ho. destruct c as [| | b | z | s | o]; try reflexivity.
  - destruct b; reflexivity.
  - destruct z; reflexivity.
  - now elim (Hs s).
  - now elim (Ho o).
Qed.

(** The number 42 as tool content. *)
Lemma non_text_content_is_ignored_witness :
  AssetView.parseToolResult (fun _ : unit => "{}") (AssetView.CNumber false)
  = AssetView.nothing.
Proof.
  apply (non_text_content_is_ignored unit (fun _ => "{}") (AssetView.CNumber false));
    discriminate.
Defined.

(* ------------------------------------------------------------------ *)
(** *** Progress while streaming *)

Lemma image_progress (name : string) (n k : nat) :
  AssetPanel.isImageGeneration name = true ->
  k <= 12 ->
  AssetPanel.streaming name n (8 * k) = Nat.min (8 * (k + n)) 96.
Proof.
  intros Himg. revert k. induction n as [| n IH]; intros k Hk.
  - cbn [AssetPanel.streaming]. lia.
  - cbn [AssetPanel.streaming]. unfold AssetPanel.tick. rewrite Himg.
    destruct (95 <=? 8 * k)%nat eqn:E.
    + apply Nat.leb_le in E. lia.
    + apply Nat.leb_gt in E.
      replace (8 * k + 8) with (8 * (k + 1)) by lia.
      rewrite IH by lia. lia.
Qed.

Lemma workflow_progress (name : string) (n k : nat) :
  AssetPanel.isImageGeneration name = false ->
  AssetPanel.isEachlabsWorkflow name = true ->
  k <= 15 ->
  AssetPanel.streaming name n (2 * k) = Nat.min (2 * (k + n)) 30.
Proof.
  intros Himg Hwf. revert k. induction n as [| n IH]; intros k Hk.
  - cbn [AssetPanel.streaming]. lia.
  - cbn [AssetPanel.streaming]. unfold AssetPanel.tick. rewrite Himg, Hwf.
    destruct (30 <=? 2 * k)%nat eqn:E.
    + apply Nat.leb_le in E. lia.
    + apply Nat.leb_gt in E.
      replace (2 * k + 2) with (2 * (k + 1)) by lia.
      rewrite IH by lia. lia.
Qed.

Lemma default_progress (name : string) (n p : nat) :
  AssetPanel.isImageGeneration name = false ->
  AssetPanel.isEachlabsWorkflow name = false ->
  AssetPanel.streaming name n p = p + 3 * n.
Proof.
  intros Himg Hwf. revert p. induction n as [| n IH]; intros p.
  - cbn [AssetPanel.streaming]. lia.
  - cbn [AssetPanel.streaming]. unfold AssetPanel.tick. rewrite Himg, Hwf.
    rewrite IH. lia.
Qed.

(** X17.  Progress shown while a tool streams, counted from the start:
    after [n] ticks an image tool stands at 8n, capped at 96, so it
    never shows 100 while streaming; a workflow tool that is not an
    image tool stands at 2n, capped at 30; any other tool stands at 3n
    and has no cap at all. *)
Theorem progress_from_the_start (name : string) (n : nat) :
  AssetPanel.streaming name n 0
  = if AssetPanel.isImageGeneration name then Nat.min (8 * n) 96
    else if AssetPanel.isEachlabsWorkflow name then Nat.min (2 * n) 30
    else 3 * n.
Proof.
  destruct (AssetPanel.isImageGeneration name) eqn:Himg.
  - exact (image_progress name n 0 Himg (Nat.le_0_l 12)).
  - destruct (AssetPanel.isEachlabsWorkflow name) eqn:Hwf.
    + exact (workflow_progress name n 0 Himg Hwf (Nat.le_0_l 15)).
    + exact (default_progress name n 0 Himg Hwf).
Qed.

(** X18.  Progress of an image tool never goes back and, started at 100
    or below, never passes 102, however many ticks follow: the cap of
    95 is tested before a step of 8 is added. *)
Theorem image_progress_is_bounded (name : string) (n p : nat) :
  AssetPanel.isImageGeneration name = true ->
  p <= 100 ->
  p <= AssetPanel.streaming name n p /\ AssetPanel.streaming name n p <= 102.
Proof.
  intros Himg.
  assert (H : forall m q, q <= 102 ->
                          q <= AssetPanel.streaming name m q /\
                          AssetPanel.streaming name m q <= 102).
  { induction m as [| m IH]; intros q Hq; cbn [AssetPanel.streaming]; [lia |].
    unfold AssetPanel.tick. rewrite Himg.
    destruct (95 <=? q)%nat eqn:E; [lia |].
    apply Nat.leb_gt in E. destruct (IH (q + 8)); lia. }
  intros Hp. apply H. lia.
Qed.

(** An image tool that resumes streaming from 30. *)
Lemma image_progress_is_bounded_witness :
  30 <= AssetPanel.streaming "generate_asset" 9 30 /\
  AssetPanel.streaming "generate_asset" 9 30 <= 102.
Proof.
  apply (image_progress_is_bounded "generate_asset" 9 30); [reflexivity | lia].
Defined.

(* ------------------------------------------------------------------ *)
(** *** What the view shows *)

(** X19.  A result whose text contains "Error:" or "error" is shown as
    "Generation Failed" with the whole text, once streaming is over;
    while streaming nothing is shown.  The foot line does not follow
    this: with [isSuccess] left at its default it reads "Generation
    completed" for the same result, and it reads "Generation failed"
    only when [isSuccess] is false. *)
Theorem failure_panel_and_foot_line (Obj : Type) (JSON_stringify : Obj -> string)
  (JSON_pretty : AssetView.Content Obj -> string) (c : AssetView.Content Obj) :
  AssetView.truthy c = true ->
  occurs_in "Error:" (AssetView.contentStr JSON_stringify c) \/
  occurs_in "error" (AssetView.contentStr JSON_stringify c) ->
  AssetPanel.renderResult JSON_stringify JSON_pretty c false
  = AssetPanel.GenerationFailed (AssetView.contentStr JSON_stringify c) /\
  AssetPanel.renderResult JSON_stringify JSON_pretty c true = AssetPanel.Nothing /\
  AssetPanel.footer true (AssetView.parseToolResult JSON_stringify c)
  = "Generation completed" /\
  AssetPanel.footer false (AssetView.parseToolResult JSON_stringify c)
  = "Generation failed".
Proof.
  intros Htruthy Herr.
  assert (Hinc : Js.includes "Error:" (AssetView.contentStr JSON_stringify c)
                 || Js.includes "error" (AssetView.contentStr JSON_stringify c) = true).
  { apply orb_true_iff. destruct Herr as [H | H]; [left | right];
      now apply includes_occurs. }
  assert (Hparse : AssetView.parseToolResult JSON_stringify c
                   = AssetView.mkResult false false false false [] None
                       (Some (AssetView.contentStr JSON_stringify c))).
  { unfold AssetView.parseToolResult. rewrite Htruthy. cbn [negb]. cbv zeta.
    now rewrite Hinc. }
  assert (Hne : Js.truthy (AssetView.contentStr JSON_stringify c) = true).
  { revert Hinc. destruct (AssetView.contentStr JSON_stringify c);
      [cbn; discriminate | reflexivity]. }
  unfold AssetPanel.renderResult. rewrite Hparse, Htruthy.
  cbn [negb orb AssetView.errorMessage AssetPanel.truthy_text]. rewrite Hne.
  repeat split.
Qed.

(** An image result whose url contains the word "error". *)
Lemma failure_panel_and_foot_line_witness :
  AssetPanel.renderResult (fun _ : unit => "{}") (fun _ => "{}")
    (AssetView.CString mixed_result) false
  = AssetPanel.GenerationFailed mixed_result.
Proof.
  apply (failure_panel_and_foot_line unit (fun _ => "{}") (fun _ => "{}")
           (AssetView.CString mixed_result)).
  - reflexivity.
  - right.
    exists "Image Generated Successfully! [View Image](https://cdn.example.com/",
           ".png)".
    reflexivity.
Defined.

(** X20.  The image panel is shown only with something to show: its
    urls are the images of the parsed result, there is at least one,
    each is a url taken from a link in the text, and the title counts
    them ("Image Generated" for one, "n Images Generated" otherwise). *)
Theorem image_panel_has_images (Obj : Type) (JSON_stringify : Obj -> string)
  (JSON_pretty : AssetView.Content Obj -> string) (c : AssetView.Content Obj)
  (isStreaming : bool) (title : string) (urls : list string) :
  AssetPanel.renderResult JSON_stringify JSON_pretty c isStreaming
  = AssetPanel.ImagesGenerated title urls ->
  isStreaming = false /\
  urls = AssetView.images (AssetView.parseToolResult JSON_stringify c) /\
  urls <> [] /\
  Forall (fun u => web_url u /\
                   occurs_in (link u) (AssetView.contentStr JSON_stringify c)) urls /\
  title = (if (length urls =? 1)%nat then "Image Generated"
           else Js.show_N (N.of_nat (length urls)) ++ " Images Generated").
Proof.
  unfold AssetPanel.renderResult. cbv zeta.
  destruct (negb (AssetView.truthy c)); [discriminate |].
  destruct isStreaming; [discriminate |]. cbn [orb].
  destruct (AssetPanel.truthy_text _); [discriminate |].
  destruct (AssetView.isGoogleImagen _ && AssetView.hasImages _) eqn:Himg.
  - intros H. inversion H; subst. clear H.
    apply andb_true_iff in Himg as [_ Hhas].
    repeat split.
    + intros Hnil. revert Hhas. unfold AssetView.parseToolResult in *.
      destruct (negb (AssetView.truthy c)); [discriminate |]. cbv zeta in *.
      destruct (Js.includes "Error:" _ || Js.includes "error" _); [discriminate |].
      destruct ((match AssetView.match_view_images _ with
                 | Some _ => true
                 | None => false
                 end) || _ || _).
      * cbn [AssetView.images AssetView.hasImages] in *. now rewrite Hnil.
      * destruct (Js.includes "Asset Generation Started" _ || _); discriminate.
    + apply Forall_forall. intros u Hu.
      destruct (image_of_link Obj JSON_stringify c u Hu) as (m & Hm & -> & Hweb).
      split; [exact Hweb |].
      apply scan_sound in Hm as (u0 & _ & _ & Hocc). exact Hocc.
  - destruct (AssetView.isEachlabsWorkflow _ && AssetView.isAsyncProcessing _);
      discriminate.
Qed.

(** One link in a clean result. *)
Lemma image_panel_has_images_witness :
  AssetPanel.renderResult (fun _ : unit => "{}") (fun _ => "{}")
    (AssetView.CString clean_result) false
  = AssetPanel.ImagesGenerated "Image Generated" ["https://cdn.example.com/a.png"] /\
  Forall (fun u => web_url u /\ occurs_in (link u) clean_result)
         ["https://cdn.example.com/a.png"].
Proof.
  split; [reflexivity |].
  apply (image_panel_has_images unit (fun _ => "{}") (fun _ => "{}")
           (AssetView.CString clean_result) false "Image Generated"
           ["https://cdn.example.com/a.png"]).
  reflexivity.
Defined.

(** X21.  A text that only announces success, "Image Generated
    Successfully" without any link, is classed as an image result
    without images; the view then shows neither images nor a failure
    but the raw text, and the foot line reads "Generation completed". *)
Theorem success_marker_without_link (Obj : Type) (JSON_stringify : Obj -> string)
  (JSON_pretty : AssetView.Content Obj -> string) (text : string) :
  occurs_in "Image Generated Successfully" text ->
  Js.includes "Error:" text = false ->
  Js.includes "error" text = false ->
  has_char "[" text = false ->
  AssetView.parseToolResult JSON_stringify (AssetView.CString text)
  = AssetView.mkResult false true false false [] None None /\
  AssetPanel.renderResult JSON_stringify JSON_pretty (AssetView.CString text) false
  = AssetPanel.Fallback text /\
  AssetPanel.footer true
    (AssetView.parseToolResult JSON_stringify (AssetView.CString text))
  = "Generation completed".
Proof.
  intros Hmark He1 He2 Hplain.
  assert (Htruthy : Js.truthy text = true).
  { destruct Hmark as (a & b & ->). now apply truthy_app. }
  assert (Hscan : AssetView.scan 0 text = []).
  { rewrite <- (string_app_nil text). rewrite (scan_plain_text text "" Hplain).
    reflexivity. }
  apply includes_occurs in Hmark.
  assert (Hparse : AssetView.parseToolResult JSON_stringify (AssetView.CString text)
                   = AssetView.mkResult false true false false [] None None).
  { unfold AssetView.parseToolResult.
    cbn [AssetView.truthy AssetView.contentStr]. rewrite Htruthy. cbn [negb].
    cbv zeta. rewrite He1, He2. cbn [orb].
    unfold AssetView.match_view_images. rewrite Hscan, Hmark. reflexivity. }
  split; [exact Hparse |].
  unfold AssetPanel.renderResult. rewrite Hparse.
  cbn [AssetView.truthy]. rewrite Htruthy. split; reflexivity.
Qed.

(** The announcement alone. *)
Lemma success_marker_without_link_witness :
  AssetPanel.renderResult (fun _ : unit => "{}") (fun _ => "{}")
    (AssetView.CString "Image Generated Successfully!") false
  = AssetPanel.Fallback "Image Generated Successfully!".
Proof.
  apply (success_marker_without_link unit (fun _ => "{}") (fun _ => "{}")
           "Image Generated Successfully!").
  - now exists "", "!".
  - reflexivity.
  - reflexivity.
  - reflexivity.
Defined.

(* ================================================================== *)
(** ** The parameters the view reads from the assistant's text *)
(* ================================================================== *)

Lemma before_close_eq (s : string) :
  AssetPanel.before_close s
  = match AssetView.strip AssetPanel.close_tag s with
    | Some _ => Some ""
    | None =>
        match s with
        | "" => None
        | String c rest =>
            match AssetPanel.before_close rest with
            | Some g => Some (String c g)
            | None => None
            end
        end
    end.
Proof. destruct s; reflexivity. Qed.

Lemma parameter_eq (name s : string) :
  AssetPanel.parameter name s
  = match
      match AssetView.strip (AssetPanel.open_tag name) s with
      | Some r => AssetPanel.before_close r
      | None => None
      end
    with
    | Some g => Some g
    | None =>
        match s with
        | "" => None
        | String _ rest => AssetPanel.parameter name rest
        end
    end.
Proof. destruct s; reflexivity. Qed.

(** The lazy group ends at the first closing tag. *)
Lemma before_close_sound (s g : string) :
  AssetPanel.before_close s = Some g ->
  (exists after, s = g ++ AssetPanel.close_tag ++ after) /\
  ~ occurs_in AssetPanel.close_tag g.
Proof.
  revert g. induction s as [| c s IH]; intros g; rewrite before_close_eq.
  - cbn. discriminate.
  - destruct (AssetView.strip AssetPanel.close_tag (String c s)) as [r |] eqn:Hs.
    + intros [= <-]. apply strip_sound in Hs. split.
      * exists r. exact Hs.
      * intros (a & b & Hab). destruct a; discriminate.
    + destruct (AssetPanel.before_close s) as [g' |] eqn:Hg; [| discriminate].
      intros [= <-]. destruct (IH g' eq_refl) as ((after & Hafter) & Hfree).
      split.
      * exists after. cbn [append]. f_equal. exact Hafter.
      * intros (a & b & Hab). destruct a as [| x a].
        -- cbn [append] in Hab. rewrite Hafter in Hs.
           change (String c (g' ++ AssetPanel.close_tag ++ after))
             with (String c g' ++ AssetPanel.close_tag ++ after) in Hs.
           rewrite Hab, string_app_assoc, strip_complete in Hs. discriminate.
        -- injection Hab as _ Hab. apply Hfree. now exists a, b.
Qed.

(** A text with a closing tag has a lazy group. *)
Lemma before_close_total (body after : string) :
  AssetPanel.before_close (body ++ AssetPanel.close_tag ++ after) <> None.
Proof.
  induction body as [| c body IH]; rewrite before_close_eq.
  - cbn [append]. now rewrite strip_complete.
  - destruct (AssetView.strip _ _); [discriminate |].
    cbn [append].
    destruct (AssetPanel.before_close (body ++ AssetPanel.close_tag ++ after));
      [discriminate | contradiction].
Qed.

(** The closing tag cannot begin inside a text and end in the closing
    tag that follows it. *)
Lemma close_tag_does_not_straddle (c : ascii) (body after r : string) :
  String c body ++ AssetPanel.close_tag ++ after = AssetPanel.close_tag ++ r ->
  occurs_in AssetPanel.close_tag (String c body).
Proof.
  intros H. cbn in H. injection H as -> H.
  do 11 (destruct body as [| ? body];
         [cbn in H; discriminate | cbn in H; injection H as -> H]).
  now exists "", body.
Qed.

(** A text without closing tag is the lazy group of what it starts. *)
Lemma before_close_complete (body after : string) :
  ~ occurs_in AssetPanel.close_tag body ->
  AssetPanel.before_close (body ++ AssetPanel.close_tag ++ after) = Some body.
Proof.
  induction body as [| c body IH]; intros Hfree; rewrite before_close_eq.
  - cbn [append]. now rewrite strip_complete.
  - destruct (AssetView.strip _ _) as [r |] eqn:Hs.
    + apply strip_sound in Hs.
      elim Hfree. exact (close_tag_does_not_straddle c body after r Hs).
    + cbn [append]. rewrite IH; [reflexivity |].
      intros Hocc. apply Hfree. now apply occurs_in_tail.
Qed.

(** Group 1 of the parameter pattern stands between an opening tag and
    the first closing tag after it. *)
Lemma parameter_sound (name s g : string) :
  AssetPanel.parameter name s = Some g ->
  exists before after,
    s = before ++ AssetPanel.open_tag name ++ g ++ AssetPanel.close_tag ++ after /\
    ~ occurs_in AssetPanel.close_tag g.
Proof.
  induction s as [| c s IH]; rewrite parameter_eq.
  - destruct (AssetView.strip (AssetPanel.open_tag name) "") as [r |] eqn:Hs;
      [| discriminate].
    apply strip_sound in Hs.
    destruct (AssetPanel.before_close r) as [g' |] eqn:Hg; [| discriminate].
    intros [= <-]. destruct (before_close_sound r g' Hg) as ((after & ->) & Hfree).
    exists "", after. now split.
  - destruct (AssetView.strip (AssetPanel.open_tag name) (String c s))
      as [r |] eqn:Hs.
    + destruct (AssetPanel.before_close r) as [g' |] eqn:Hg.
      * intros [= <-]. apply strip_sound in Hs.
        destruct (before_close_sound r g' Hg) as ((after & ->) & Hfree).
        exists "", after. now split.
      * intros H. destruct (IH H) as (before & after & -> & Hfree).
        exists (String c before), after. now split.
    + intros H. destruct (IH H) as (before & after & -> & Hfree).
      exists (String c before), after. now split.
Qed.

(** A text with an opening tag and a closing tag after it matches. *)
Lemma parameter_total (name before body after : string) :
  AssetPanel.parameter name
    (before ++ AssetPanel.open_tag name ++ body ++ AssetPanel.close_tag ++ after)
  <> None.
Proof.
  induction before as [| c before IH]; rewrite parameter_eq.
  - cbn [append]. rewrite strip_complete.
    destruct (AssetPanel.before_close _) eqn:Hg; [discriminate |].
    now apply before_close_total in Hg.
  - destruct (match AssetView.strip _ _ with Some _ => _ | None => _ end);
      [discriminate |].
    cbn [append]. exact IH.
Qed.

(** When nothing before the opening tag can start a tag, group 1 is the
    text up to the first closing tag. *)
Lemma parameter_complete (name before body after : string) :
  has_char "<" before = false ->
  ~ occurs_in AssetPanel.close_tag body ->
  AssetPanel.parameter name
    (before ++ AssetPanel.open_tag name ++ body ++ AssetPanel.close_tag ++ after)
  = Some body.
Proof.
  intros Hbefore Hfree.
  induction before as [| c before IH]; rewrite parameter_eq.
  - cbn [append]. rewrite strip_complete.
    now rewrite (before_close_complete body after Hfree).
  - cbn [has_char] in Hbefore. apply orb_false_iff in Hbefore as [Hc Hbefore].
    cbn [append].
    replace (AssetView.strip (AssetPanel.open_tag name) (String c _))
      with (@None string).
    + now apply IH.
    + unfold AssetPanel.open_tag. cbn [append AssetView.strip].
      rewrite Ascii.eqb_sym in Hc. now rewrite Hc.
Qed.

(** A content whose text is not empty is truthy. *)
Lemma text_is_truthy (Obj : Type) (JSON_stringify : Obj -> string)
  (c : AssetView.Content Obj) :
  AssetView.contentStr JSON_stringify c <> "" -> AssetView.truthy c = true.
Proof.
  destruct c as [| | b | z | s |]; cbn; try congruence.
  intros Hs. unfold Js.truthy. destruct (String.eqb_spec s ""); [contradiction |].
  reflexivity.
Qed.

Lemma tagged_text_is_not_empty (name before body after : string) :
  before ++ AssetPanel.open_tag name ++ body ++ AssetPanel.close_tag ++ after
  <> "".
Proof. destruct before; cbn; discriminate. Qed.

(** X22.  What [extractAssetData] reports comes from the text: a text
    field that is set holds the trimmed text between an opening tag of
    that parameter and the first closing tag after it, a number field
    holds [parseInt] of such a text, and the asset type, the aspect
    ratio and the number of images are never set. *)
Theorem extracted_parameters_are_captured (Obj : Type)
  (JSON_stringify : Obj -> string) (trim : string -> string)
  (Num : Type) (parseInt : string -> Num) (c : AssetView.Content Obj) :
  let d := AssetPanel.extractAssetData JSON_stringify trim parseInt c in
  let text := AssetView.contentStr JSON_stringify c in
  (forall t, AssetPanel.prompt d = Some t -> captured trim "prompt" text t) /\
  (forall t, AssetPanel.output_file d = Some t ->
             captured trim "output_file" text t) /\
  (forall t, AssetPanel.game_style d = Some t ->
             captured trim "game_style" text t) /\
  (forall t, AssetPanel.format d = Some t -> captured trim "format" text t) /\
  (forall n, AssetPanel.width d = Some n ->
             exists t, captured trim "width" text t /\ n = parseInt t) /\
  (forall n, AssetPanel.height d = Some n ->
             exists t, captured trim "height" text t /\ n = parseInt t) /\
  AssetPanel.asset_type d = None /\
  AssetPanel.aspect_ratio d = None /\
  AssetPanel.number_of_images d = None.
Proof.
  cbv zeta. unfold AssetPanel.extractAssetData.
  destruct (negb (AssetView.truthy c)).
  { cbn. repeat split; intros; discriminate. }
  cbn [AssetPanel.prompt AssetPanel.output_file AssetPanel.game_style
       AssetPanel.format AssetPanel.width AssetPanel.height
       AssetPanel.asset_type AssetPanel.aspect_ratio
       AssetPanel.number_of_images].
  assert (Htext : forall name t,
            option_map trim
              (AssetPanel.parameter name (AssetView.contentStr JSON_stringify c))
            = Some t ->
            captured trim name (AssetView.contentStr JSON_stringify c) t).
  { intros name t H.
    destruct (AssetPanel.parameter name _) as [g |] eqn:Hg; [| discriminate].
    injection H as <-.
    destruct (parameter_sound name _ g Hg) as (before & after & Heq & Hfree).
    now exists before, g, after. }
  assert (Hnum : forall name n,
            option_map (fun g => parseInt (trim g))
              (AssetPanel.parameter name (AssetView.contentStr JSON_stringify c))
            = Some n ->
            exists t,
              captured trim name (AssetView.contentStr JSON_stringify c) t /\
              n = parseInt t).
  { intros name n H.
    destruct (AssetPanel.parameter name _) as [g |] eqn:Hg; [| discriminate].
    injection H as <-. exists (trim g). split; [| reflexivity].
    apply Htext. now rewrite Hg. }
  repeat split; intros; auto.
Qed.

(** X23.  Round trip of a parameter: when the text holds an opening tag
    of a parameter after a text without [<], and the text after that
    tag up to the closing tag holds no closing tag, the field of that
    parameter is that text, trimmed (and read as a number for the width
    and the height). *)
Theorem parameter_round_trip (Obj : Type)
  (JSON_stringify : Obj -> string) (trim : string -> string)
  (Num : Type) (parseInt : string -> Num) (c : AssetView.Content Obj)
  (name before body after : string) :
  AssetView.contentStr JSON_stringify c
  = before ++ AssetPanel.open_tag name ++ body ++ AssetPanel.close_tag ++ after ->
  has_char "<" before = false ->
  ~ occurs_in AssetPanel.close_tag body ->
  let d := AssetPanel.extractAssetData JSON_stringify trim parseInt c in
  (name = "prompt" -> AssetPanel.prompt d = Some (trim body)) /\
  (name = "output_file" -> AssetPanel.output_file d = Some (trim body)) /\
  (name = "game_style" -> AssetPanel.game_style d = Some (trim body)) /\
  (name = "format" -> AssetPanel.format d = Some (trim body)) /\
  (name = "width" -> AssetPanel.width d = Some (parseInt (trim body))) /\
  (name = "height" -> AssetPanel.height d = Some (parseInt (trim body))).
Proof.
  intros Htext Hbefore Hfree. cbv zeta.
  unfold AssetPanel.extractAssetData.
  rewrite (text_is_truthy Obj JSON_stringify c)
    by (rewrite Htext; apply tagged_text_is_not_empty).
  cbn [negb AssetPanel.prompt AssetPanel.output_file AssetPanel.game_style
       AssetPanel.format AssetPanel.width AssetPanel.height].
  pose proof (parameter_complete name before body after Hbefore Hfree) as Hp.
  rewrite <- Htext in Hp.
  repeat split; intros <-; now rewrite Hp.
Qed.

(** A prompt between its tags, after some words of the assistant. *)
Lemma parameter_round_trip_witness :
  AssetPanel.prompt
    (AssetPanel.extractAssetData (fun o : unit => "{}") (fun s => s)
       (fun s : string => String.length s)
       (AssetView.CString
          ("I will draw it. " ++ AssetPanel.open_tag "prompt" ++ "a red dragon"
           ++ AssetPanel.close_tag ++ " Done.")))
  = Some "a red dragon".
Proof.
  refine (proj1 (parameter_round_trip unit (fun _ => "{}") (fun s => s) nat
                   (fun s => String.length s)
                   (AssetView.CString
                      ("I will draw it. " ++ AssetPanel.open_tag "prompt"
                       ++ "a red dragon" ++ AssetPanel.close_tag ++ " Done."))
                   "prompt" "I will draw it. " "a red dragon" " Done."
                   eq_refl eq_refl _) eq_refl).
  intros Hocc. apply includes_occurs in Hocc. vm_compute in Hocc. discriminate.
Defined.

(** X24.  A parameter is reported exactly when the text holds an
    opening tag of it with a closing tag somewhere after it. *)
Theorem parameter_reported_iff_tagged (Obj : Type)
  (JSON_stringify : Obj -> string) (trim : string -> string)
  (Num : Type) (parseInt : string -> Num) (c : AssetView.Content Obj) :
  let d := AssetPanel.extractAssetData JSON_stringify trim parseInt c in
  let tagged name :=
    exists before body after,
      AssetView.contentStr JSON_stringify c
      = before ++ AssetPanel.open_tag name ++ body
               ++ AssetPanel.close_tag ++ after in
  (AssetPanel.prompt d <> None <-> tagged "prompt") /\
  (AssetPanel.output_file d <> None <-> tagged "output_file") /\
  (AssetPanel.game_style d <> None <-> tagged "game_style") /\
  (AssetPanel.format d <> None <-> tagged "format") /\
  (AssetPanel.width d <> None <-> tagged "width") /\
  (AssetPanel.height d <> None <-> tagged "height").
Proof.
  cbv zeta.
  assert (Hfield : forall (A : Type) (f : string -> A) name,
            option_map f
              (AssetPanel.parameter name (AssetView.contentStr JSON_stringify c))
            <> None <->
            exists before body after,
              AssetView.contentStr JSON_stringify c
              = before ++ AssetPanel.open_tag name ++ body
                       ++ AssetPanel.close_tag ++ after).
  { intros A f name. split.
    - destruct (AssetPanel.parameter name _) as [g |] eqn:Hg;
        [intros _ | intros H; now elim H].
      destruct (parameter_sound name _ g Hg) as (before & after & Heq & _).
      now exists before, g, after.
    - intros (before & body & after & Heq). rewrite Heq.
      pose proof (parameter_total name before body after) as Hp.
      destruct (AssetPanel.parameter name _); [discriminate | contradiction]. }
  unfold AssetPanel.extractAssetData.
  destruct (negb (AssetView.truthy c)) eqn:Htruthy.
  - assert (Hempty : forall name,
              ~ exists before body after,
                  AssetView.contentStr JSON_stringify c
                  = before ++ AssetPanel.open_tag name ++ body
                           ++ AssetPanel.close_tag ++ after).
    { intros name (before & body & after & Heq).
      rewrite (text_is_truthy Obj JSON_stringify c) in Htruthy; [discriminate |].
      rewrite Heq. apply tagged_text_is_not_empty. }
    assert (Hnone : forall (A : Type) name,
              @None A <> None <->
              exists before body after,
                AssetView.contentStr JSON_stringify c
                = before ++ AssetPanel.open_tag name ++ body
                         ++ AssetPanel.close_tag ++ after).
    { intros A name. split; [intros H; now elim H |].
      intros H. now apply Hempty in H. }
    cbn [AssetPanel.no_data AssetPanel.prompt AssetPanel.output_file
         AssetPanel.game_style AssetPanel.format AssetPanel.width
         AssetPanel.height].
    do 5 (split; [apply Hnone |]). apply Hnone.
  - cbn [AssetPanel.prompt AssetPanel.output_file AssetPanel.game_style
         AssetPanel.format AssetPanel.width AssetPanel.height].
    do 5 (split; [apply Hfield |]). apply Hfield.
Qed.

(* ================================================================== *)
(** ** The hand-off of the preview *)
(* ================================================================== *)

(** The target the preview finds is the listed agent with the id asked
    for. *)
Lemma target_listed (agentId : string) (r : PreviewCall.AgentsResponse) :
  listed agentId (Fulfilled r) = true ->
  exists target,
    PreviewCall.targetAgent agentId r = Some target /\
    PreviewCall.agent_id target = agentId.
Proof.
  destruct r as [[agents |] |]; cbn; try discriminate.
  induction agents as [| a agents IH]; cbn; [discriminate |].
  destruct (String.eqb_spec (PreviewCall.agent_id a) agentId) as [Ha | Ha].
  - intros _. now exists a.
  - exact IH.
Qed.

Lemma target_not_listed (agentId : string) (r : PreviewCall.AgentsResponse) :
  listed agentId (Fulfilled r) = false ->
  PreviewCall.targetAgent agentId r = None.
Proof.
  destruct r as [[agents |] |]; cbn; try reflexivity.
  induction agents as [| a agents IH]; cbn; [reflexivity |].
  destruct (PreviewCall.agent_id a =? agentId); [discriminate | exact IH].
Qed.

(** The message block of the preview appends locally, then awaits the
    save. *)
Lemma exec_preview_message (env : Call -> Response) (tid : string) clk message
  (w : World) :
  exec env (PreviewCall.add_handoff_message tid clk message) w =
  match message with
  | Some m =>
      if Js.truthy m
      then await_each env [AppendMessage tid m]
             (updated (setMessages
                         (fun prev => prev ++ [PreviewCall.handoffMessage tid clk m])%list)
                      w)
      else (Fulfilled tt, w)
  | None => (Fulfilled tt, w)
  end.
Proof.
  unfold PreviewCall.add_handoff_message.
  destruct message as [m |]; [| reflexivity].
  destruct (Js.truthy m); [| reflexivity].
  rewrite exec_bind, exec_act, exec_bind, exec_await. cbn [await_each].
  destruct (env (AppendMessage tid m)); reflexivity.
Qed.

(** The start block of the preview. *)
Lemma exec_preview_start (env : Call -> Response) (tid : string)
  (target : PreviewCall.Agent) (w : World) :
  exec env (PreviewCall.start_target tid target) w =
  match env (StartRun tid (PreviewCall.agentOptions target)) with
  | Resolved rid =>
      (Fulfilled tt,
       updated (toast (ToastSuccess ("Switched to " ++ PreviewCall.name target)))
         (updated (setAgentRunId (Some rid))
            (settled env (StartRun tid (PreviewCall.agentOptions target)) w)))
  | Rejected e =>
      (Failed e, settled env (StartRun tid (PreviewCall.agentOptions target)) w)
  end.
Proof.
  unfold PreviewCall.start_target. rewrite exec_bind, exec_await.
  destruct (env (StartRun tid (PreviewCall.agentOptions target))); reflexivity.
Qed.

(** The [catch] block of the preview. *)
Lemma exec_preview_recover (env : Call -> Response) (e : Js.Error) (w : World) :
  exec env (PreviewCall.recover e) w =
  if Js.is_nullish e
  then (Failed (Js.cannot_read e "message"),
        updated (console_error "[AGENT_CALL] Error in agent call:") w)
  else (Fulfilled tt,
        updated (toast (ToastError ("Failed to switch to agent: "
                                    ++ Js.nullish (Js.err_message e) "undefined")))
          (updated (console_error "[AGENT_CALL] Error in agent call:") w)).
Proof. destruct e; reflexivity. Qed.

(** A hand-off of the preview on a conversation, by what the agents
    query gave. *)
Lemma preview_handoff_runs (env : Call -> Response) (tid : string) fetched clk
  agentId message (w : World) :
  Js.truthy tid = true ->
  exec env (PreviewCall.handleAgentCall (Some tid) fetched clk agentId message) w =
  match fetched with
  | Failed e => exec env (PreviewCall.recover e) w
  | Fulfilled r =>
      match PreviewCall.targetAgent agentId r with
      | None =>
          (Fulfilled tt,
           updated (toast (ToastError ("Agent with ID " ++ quote ++ agentId
                                       ++ quote ++ " not found")))
             (updated (console_error "[AGENT_CALL] Agent not found with ID:") w))
      | Some target =>
          match exec env (PreviewCall.add_handoff_message tid clk message) w with
          | (Failed e, w1) => exec env (PreviewCall.recover e) w1
          | (Fulfilled _, w1) =>
              match exec env (PreviewCall.start_target tid target) w1 with
              | (Failed e, w2) => exec env (PreviewCall.recover e) w2
              | (Fulfilled _, w2) => (Fulfilled tt, w2)
              end
          end
      end
  end.
Proof.
  intros Ht. unfold PreviewCall.handleAgentCall. rewrite Ht. cbn [negb].
  rewrite exec_try_catch, exec_bind.
  destruct fetched as [r | e]; [| reflexivity].
  cbn [exec].
  destruct (PreviewCall.targetAgent agentId r) as [target |]; [| reflexivity].
  rewrite exec_bind.
  destruct (exec env (PreviewCall.add_handoff_message tid clk message) w)
    as [[[] | e] w1]; [| reflexivity].
  destruct (exec env (PreviewCall.start_target tid target) w1)
    as [[[] | e] w2]; reflexivity.
Qed.

(** Without a conversation the preview only logs. *)
Lemma preview_handoff_no_thread (env : Call -> Response) threadId fetched clk
  agentId message (w : World) :
  match threadId with Some tid => Js.truthy tid | None => false end = false ->
  exec env (PreviewCall.handleAgentCall threadId fetched clk agentId message) w =
  (Fulfilled tt,
   updated (console_error "[AGENT_CALL] No thread ID available for agent call") w).
Proof.
  intros Ht. unfold PreviewCall.handleAgentCall.
  destruct threadId as [tid |]; [| reflexivity].
  rewrite Ht. reflexivity.
Qed.

(** Takes the hand-off of the preview apart: the world is spelled out in
    every way it can end. *)
Ltac preview_cases env tid fetched clk agentId message w :=
  destruct w as [[run sel status msgs loading err shown logged] table calls seen];
  unfold preview_handoff, preview_result;
  rewrite !preview_handoff_runs by assumption;
  destruct fetched as [r | e0];
  [ destruct (PreviewCall.targetAgent agentId r) as [target |] eqn:Htarget;
    [ rewrite exec_preview_message;
      destruct message as [m |];
      [ destruct (Js.truthy m) eqn:Hm;
        [ rewrite await_one;
          destruct (env (AppendMessage tid m)) as [v1 | e1] eqn:Happend | ] | ];
      rewrite ?exec_preview_start, ?exec_preview_recover;
      try (destruct (env (StartRun tid (PreviewCall.agentOptions target)))
             as [rid | e2] eqn:Hstart);
      rewrite ?exec_preview_recover
    | ]
  | rewrite exec_preview_recover ];
  reasons;
  cbv [updated settled toast console_error setMessages setAgentRunId
       store runs issued observed agentRunId selectedAgentId agentStatus
       messages isLoading error toasts console_errors fst snd];
  repeat match goal with
         | H : env _ = _ |- _ => rewrite H
         end;
  cbn [controller].

(** X25.  The preview checks the target: when the agents query answers
    and does not list the target, the hand-off issues no call, leaves
    the runs, the messages and the run id as they were, and shows one
    error toast that names the target. *)
Theorem preview_rejects_unknown_target (env : Call -> Response) (tid : string)
  (r : PreviewCall.AgentsResponse) (clk : Clock) (agentId : string)
  (message : option string) (w : World) :
  Js.truthy tid = true ->
  listed agentId (Fulfilled r) = false ->
  let w' := preview_handoff env (Some tid) (Fulfilled r) clk agentId message w in
  issued w' = issued w /\
  runs w' = runs w /\
  messages (store w') = messages (store w) /\
  agentRunId (store w') = agentRunId (store w) /\
  toasts (store w')
  = (toasts (store w)
     ++ [ToastError ("Agent with ID " ++ quote ++ agentId ++ quote ++ " not found")])%list.
Proof.
  intros Ht Hlisted. cbv zeta. apply target_not_listed in Hlisted.
  unfold preview_handoff. rewrite preview_handoff_runs by assumption.
  rewrite Hlisted. destruct w as [[] ? ? ?]. cbn. repeat split.
Qed.

(** The target [ghost] is not among the two agents. *)
Lemma preview_rejects_unknown_target_witness :
  let w' := preview_handoff (always "R2") (Some "t1") two_agents clock0
              "ghost" (Some please_draw) (world_with empty_store []) in
  issued w' = [] /\
  toasts (store w')
  = [ToastError ("Agent with ID " ++ quote ++ "ghost" ++ quote ++ " not found")].
Proof.
  pose proof (preview_rejects_unknown_target (always "R2") "t1"
                (Some (Some [PreviewCall.mkAgent "writer" "Writer";
                             PreviewCall.mkAgent "artist" "Artist"]))
                clock0 "ghost" (Some please_draw) (world_with empty_store [])
                eq_refl eq_refl) as (Hcalls & _ & _ & _ & Htoasts).
  split; [exact Hcalls | exact Htoasts].
Defined.

Lemma target_has_id (agentId : string) (r : PreviewCall.AgentsResponse)
  (target : PreviewCall.Agent) :
  PreviewCall.targetAgent agentId r = Some target ->
  PreviewCall.agent_id target = agentId.
Proof.
  destruct r as [[agents |] |]; cbn; try discriminate.
  intros H. apply find_some in H as [_ H]. now apply String.eqb_eq.
Qed.

(** Reads the calls and the runs a hand-off added off the goal. *)
Ltac grown :=
  rewrite <- ?app_assoc;
  match goal with
  | |- exists more started, (_ ++ ?l)%list = _ /\ (_ ++ ?s)%list = _ /\ _ =>
      exists l, s
  | |- exists more started, (_ ++ ?l)%list = _ /\ _ = _ /\ _ =>
      exists l, (@nil Run); rewrite app_nil_r
  | |- exists more started, _ = _ /\ _ = _ /\ _ =>
      exists (@nil Call), (@nil Run); rewrite !app_nil_r
  end.

(** X26.  A hand-off of the preview stops nothing: whatever the agents
    query and the calls do, no stop is issued, the runs that were there
    stay as they were (a started run is added after them), and a start
    is for this conversation and carries the id of the target and no
    setting. *)
Theorem preview_handoff_stops_nothing (env : Call -> Response)
  (threadId : option string) (fetched : Outcome PreviewCall.AgentsResponse)
  (clk : Clock) (agentId : string) (message : option string) (w : World) :
  let w' := preview_handoff env threadId fetched clk agentId message w in
  exists more started,
    issued w' = (issued w ++ more)%list /\
    runs w' = (runs w ++ started)%list /\
    existsb is_stop more = false /\
    (forall tid o, In (StartRun tid o) more ->
                   threadId = Some tid /\
                   o = mkOptions (Some agentId) None None None None).
Proof.
  cbv zeta.
  destruct (match threadId with Some tid => Js.truthy tid | None => false end)
    eqn:Ht.
  - destruct threadId as [tid |]; [| discriminate].
    preview_cases env tid fetched clk agentId message w.
    all: try (apply target_has_id in Htarget).
    all: grown.
    all: split; [reflexivity |]; split; [reflexivity |]; split; [reflexivity |].
    all: intros tid0 o Hin; cbn [In app] in Hin.
    all: repeat match goal with
                | H : _ \/ _ |- _ => destruct H as [H | H]
                | H : False |- _ => destruct H
                end.
    all: try discriminate.
    all: injection Hin as <- <-; unfold PreviewCall.agentOptions;
         rewrite Htarget; split; reflexivity.
  - unfold preview_handoff. rewrite preview_handoff_no_thread by exact Ht.
    destruct w as [st table calls seen]. exists [], []. cbn.
    rewrite !app_nil_r.
    split; [reflexivity |]. split; [reflexivity |]. split; [reflexivity |].
    intros ? ? [].
Qed.



(** X28.  The preview does not take the hand-off message back: once the
    target is found, the local sequence is the old one followed by the
    hand-off message (if one was given), however the save and the start
    end. *)
Theorem preview_handoff_keeps_the_message (env : Call -> Response)
  (tid : string) (r : PreviewCall.AgentsResponse) (clk : Clock)
  (agentId : string) (message : option string) (w : World) :
  Js.truthy tid = true ->
  listed agentId (Fulfilled r) = true ->
  let w' := preview_handoff env (Some tid) (Fulfilled r) clk agentId message w in
  messages (store w')
  = (messages (store w) ++ preview_messages tid clk message)%list.
Proof.
  intros Ht Hl. cbv zeta.
  destruct (target_listed agentId r Hl) as (target & Htarget & _).
  destruct w as [[run sel status msgs loading err shown logged] table calls seen].
  unfold preview_handoff. rewrite preview_handoff_runs by assumption.
  rewrite Htarget, exec_preview_message. unfold preview_messages.
  destruct message as [m |]; [destruct (Js.truthy m) |];
    rewrite ?await_one;
    repeat match goal with
           | |- context [match env ?c with _ => _ end] => destruct (env c)
           end;
    rewrite ?exec_preview_start;
    repeat match goal with
           | |- context [match env ?c with _ => _ end] => destruct (env c)
           end;
    rewrite ?exec_preview_recover; reasons;
    cbn; rewrite ?app_nil_r; reflexivity.
Qed.

(** The save is rejected, and the message is still shown. *)
Lemma preview_handoff_keeps_the_message_witness :
  messages (store (preview_handoff append_fails (Some "t1") two_agents clock0
                     "artist" (Some please_draw) (world_with empty_store [])))
  = [PreviewCall.handoffMessage "t1" clock0 please_draw].
Proof.
  exact (preview_handoff_keeps_the_message append_fails "t1"
           (Some (Some [PreviewCall.mkAgent "writer" "Writer";
                        PreviewCall.mkAgent "artist" "Artist"]))
           clock0 "artist" (Some please_draw) (world_with empty_store [])
           eq_refl eq_refl).
Defined.
